(** * Token-based session management of the task manager

    A shallow embedding of the session subsystem of the repository:

    - [backend/src/utils/auth.ts]        (module [Auth]): token codec and
      refresh-token store;
    - [backend/src/services/userService] (module [UserService]);
    - [backend/src/controllers/authController] (module [AuthController]):
      the [login], [refreshToken] and [logout] handlers;
    - [backend/src/middleware/auth.ts]   (module [Middleware]);
    - [frontend/src/lib/api.ts]          (module [Client]): cookie storage,
      request interceptor and the single-flight refresh.

    The libraries the code calls are modelled by what they document:
    [jsonwebtoken] as a symbolic signature scheme ([Jwt]), [bcrypt] by
    the key it reads from a password, [Date] by its time value and the
    offset of the host's time zone, Prisma as a table of rows with a
    unique key ([Prisma]), [js-cookie] as a jar of cookies with an expiry
    instant in whole seconds. *)

From Stdlib Require Import ZArith String List Bool Lia.
Import ListNotations.
Local Open Scope string_scope.
Local Open Scope Z_scope.

(** ** JavaScript values shared by the modules *)

(** An [Error] object: the handlers only look at [name] and [message];
    Prisma's known request errors also carry a [code]. *)
Record error : Type := mkError {
  name : string;
  message : string;
  code : string
}.

(** [String.prototype.includes]. *)
Fixpoint includes (needle hay : string) : bool :=
  if String.prefix needle hay then true
  else match hay with
       | EmptyString => false
       | String _ rest => includes needle rest
       end.

(** [x || fallback] on an optional string: [undefined] and the empty
    string are both falsy. *)
Definition or_else (x : option string) (fallback : string) : string :=
  match x with
  | Some s => if (s =? "")%string then fallback else s
  | None => fallback
  end.

(** ** jsonwebtoken *)
Module Jwt.

(** The claims of a token the code signs: [{ userId, type }] plus the
    [iat] and [exp] the library adds, both in whole seconds. *)
Record payload : Type := mkPayload {
  userId : string;
  type : string;
  iat : Z;
  exp : option Z
}.

(** A token string is either the HS256 serialisation of a payload under
    a secret, or some other text.  The serialisation is deterministic
    (there is no [jti] and no nonce) and is taken to be injective in the
    payload and the secret, so a signed token is represented by the pair
    it was made from. *)
Inductive token : Type :=
| Signed (p : payload) (secret : string)
| Text (s : string).

Definition opt_eqb (a b : option Z) : bool :=
  match a, b with
  | Some x, Some y => x =? y
  | None, None => true
  | _, _ => false
  end.

Definition payload_eqb (p q : payload) : bool :=
  (userId p =? userId q)%string && (type p =? type q)%string
  && (iat p =? iat q) && opt_eqb (exp p) (exp q).

Definition token_eqb (a b : token) : bool :=
  match a, b with
  | Signed p k, Signed q k' => payload_eqb p q && (k =? k')%string
  | Text s, Text s' => (s =? s')%string
  | _, _ => false
  end.

(** [token.length === 0] *)
Definition is_empty (t : token) : bool :=
  match t with
  | Text s => (s =? "")%string
  | Signed _ _ => false
  end.

(** [Math.floor(Date.now() / 1000)] *)
Definition clockTimestamp (now : Z) : Z := now / 1000.

(** [jwt.sign({ userId, type }, secret, { expiresIn })], [expiresIn] in
    seconds, called when the clock reads [now] milliseconds. *)
Definition sign (now : Z) (uid ty : string) (secret : string)
    (expiresIn : Z) : token :=
  let timestamp := clockTimestamp now in
  Signed {| userId := uid; type := ty; iat := timestamp;
            exp := Some (timestamp + expiresIn) |} secret.

Definition JsonWebTokenError (msg : string) : error :=
  {| name := "JsonWebTokenError"; message := msg; code := "" |}.

Definition TokenExpiredError : error :=
  {| name := "TokenExpiredError"; message := "jwt expired"; code := "" |}.

(** [jwt.verify(token, secret)]: the signature is checked first, then
    [exp] against the clock in seconds, with no tolerance. *)
Definition verify (now : Z) (t : token) (secret : string)
    : payload + error :=
  match t with
  | Text s =>
      if (s =? "")%string
      then inr (JsonWebTokenError "jwt must be provided")
      else inr (JsonWebTokenError "jwt malformed")
  | Signed p k =>
      if (k =? secret)%string then
        match exp p with
        | Some e =>
            if clockTimestamp now >=? e then inr TokenExpiredError
            else inl p
        | None => inl p
        end
      else inr (JsonWebTokenError "invalid signature")
  end.

End Jwt.

(** ** The process: clock, environment, database *)

(** The Prisma calls the session code makes. *)
Inductive prisma_op : Type :=
| RefreshToken_create
| RefreshToken_delete
| RefreshToken_findUnique
| RefreshToken_deleteMany
| User_findUnique.

Definition prisma_op_eqb (a b : prisma_op) : bool :=
  match a, b with
  | RefreshToken_create, RefreshToken_create
  | RefreshToken_delete, RefreshToken_delete
  | RefreshToken_findUnique, RefreshToken_findUnique
  | RefreshToken_deleteMany, RefreshToken_deleteMany
  | User_findUnique, User_findUnique => true
  | _, _ => false
  end.

(** A row of the [RefreshToken] table ([token] is [@unique]). *)
Record RefreshToken : Type := mkRefreshToken {
  token : Jwt.token;
  userId : string;
  expiresAt : Z
}.

(** *** bcrypt

    A password is given by its UTF-8 bytes.  bcrypt keys Blowfish with
    18 words, that is 72 bytes, which it reads cyclically from the
    password followed by its terminating NUL; a password of 72 bytes or
    more is cut to its first 72 bytes, and the terminator no longer
    counts. *)

(** [n] bytes read cyclically from [key], the reading being at [cur]. *)
Fixpoint key_stream (n : nat) (key cur : string) : string :=
  match n with
  | O => EmptyString
  | S n' =>
      match cur with
      | String c rest => String c (key_stream n' key rest)
      | EmptyString =>
          match key with
          | String c rest => String c (key_stream n' key rest)
          | EmptyString => EmptyString
          end
      end
  end.

Definition NUL : string := String Ascii.zero EmptyString.

(** The 72 bytes of key material bcrypt takes from a password. *)
Definition bcrypt_key (pw : string) : string :=
  let key := (String.substring 0 72 pw ++ NUL)%string in
  key_stream 72 key key.

(** A password without a NUL byte. *)
Fixpoint no_NUL (s : string) : bool :=
  match s with
  | EmptyString => true
  | String c rest => negb (Ascii.eqb c Ascii.zero) && no_NUL rest
  end.

(** A bcrypt digest: the salt, and the key material that went into it.
    Two passwords have the same digest under a salt exactly when bcrypt
    reads the same key from them. *)
Record digest : Type := mkDigest {
  salt : string;
  hashed : string
}.

(** [bcrypt.hash(password, rounds)] with the salt that was drawn. *)
Definition bcrypt_hash (salt_ : string) (pw : string) : digest :=
  {| salt := salt_; hashed := bcrypt_key pw |}.

(** [bcrypt.compare(password, digest)] recomputes the digest of the
    candidate with the stored salt. *)
Definition bcrypt_compare (pw : string) (d : digest) : bool :=
  (bcrypt_key pw =? hashed d)%string.

(** A row of the [User] table. *)
Record User : Type := mkUser {
  id : string;
  email : string;
  password : digest;
  user_name : string;
  createdAt : Z;
  updatedAt : Z
}.

Record process_env : Type := mkEnv {
  JWT_ACCESS_SECRET_var : option string;
  JWT_REFRESH_SECRET_var : option string
}.

(** Everything a request handler can observe: the clock ([Date.now()], in
    milliseconds), the time zone of the host ([zone t true] is the offset
    of local time from UTC, in milliseconds, at the instant [t], and
    [zone t false] the offset at the local time [t]), [process.env], the
    two tables, and the Prisma calls that currently fail for reasons
    outside the program (connection lost, timeout). *)
Record world : Type := mkWorld {
  clock : Z;
  zone : Z -> bool -> Z;
  env : process_env;
  refreshTokens : list RefreshToken;
  users : list User;
  outage : list prisma_op
}.

Definition set_clock (t : Z) (w : world) : world :=
  {| clock := t; zone := zone w; env := env w;
     refreshTokens := refreshTokens w; users := users w;
     outage := outage w |}.

Definition set_refreshTokens (l : list RefreshToken) (w : world) : world :=
  {| clock := clock w; zone := zone w; env := env w; refreshTokens := l;
     users := users w; outage := outage w |}.

Definition msPerDay : Z := 86400000.

(** [LocalTZA(t, isUTC)] of ECMAScript: the host's offset, which is less
    than a day in either direction. *)
Definition LocalTZA (w : world) (t : Z) (isUTC : bool) : Z :=
  Z.max (- (msPerDay - 1)) (Z.min (msPerDay - 1) (zone w t isUTC)).

Definition available (op : prisma_op) (w : world) : bool :=
  negb (existsb (prisma_op_eqb op) (outage w)).

(** ** Async functions: state and exceptions

    An [async] function either returns or throws, and the database keeps
    what was written before a throw. *)
Inductive completion (A : Type) : Type :=
| Return (a : A)
| Throw (e : error).
Arguments Return {A} a.
Arguments Throw {A} e.

Definition io (A : Type) : Type := world -> completion A * world.

Definition ret {A} (a : A) : io A := fun w => (Return a, w).

Definition throw {A} (e : error) : io A := fun w => (Throw e, w).

Definition bind {A B} (m : io A) (k : A -> io B) : io B :=
  fun w =>
    match m w with
    | (Return a, w') => k a w'
    | (Throw e, w') => (Throw e, w')
    end.

(** [try { body } catch (error) { handler }] *)
Definition try_catch {A} (body : io A) (handler : error -> io A) : io A :=
  fun w =>
    match body w with
    | (Return a, w') => (Return a, w')
    | (Throw e, w') => handler e w'
    end.

(** A synchronous call that may throw. *)
Definition lift {A} (r : A + error) : io A :=
  match r with
  | inl a => ret a
  | inr e => throw e
  end.

(** [new Date()] *)
Definition new_Date : io Z := fun w => (Return (clock w), w).

(** The time value of a date [n] calendar days after the date of time
    value [t], at the same local time of day: the local time of [t] is
    moved by [n] days and read back as an instant with the offset in
    force at that local time. *)
Definition plus_days (tz : Z -> bool -> Z) (n t : Z) : Z :=
  let local := t + tz t true in
  let newDate := local + n * msPerDay in
  newDate - tz newDate false.

(** [d.setDate(d.getDate() + n)] on a date of time value [t]. *)
Definition setDate_plus (n t : Z) : io Z :=
  fun w => (Return (plus_days (LocalTZA w) n t), w).

Definition get_env : io process_env := fun w => (Return (env w), w).

Declare Scope io_scope.
Delimit Scope io_scope with io.
Notation "x <- m ;; k" := (bind m (fun x => k))
  (at level 61, m at next level, right associativity) : io_scope.
Notation "m ;; k" := (bind m (fun _ => k))
  (at level 61, right associativity) : io_scope.
Local Open Scope io_scope.

(** ** Prisma *)
Module Prisma.

Definition PrismaClientInitializationError : error :=
  {| name := "PrismaClientInitializationError";
     message := "Can't reach database server"; code := "P1001" |}.

Definition KnownRequestError (c msg : string) : error :=
  {| name := "PrismaClientKnownRequestError"; message := msg; code := c |}.

Definition RecordNotFound : error :=
  KnownRequestError "P2025"
    "Invalid `prisma.refreshToken.delete()` invocation: An operation failed because it depends on one or more records that were required but not found. Record to delete does not exist.".

Definition UniqueConstraintFailed : error :=
  KnownRequestError "P2002"
    "Invalid `prisma.refreshToken.create()` invocation: Unique constraint failed on the fields: (`token`)".

(** Every call first needs the database to answer. *)
Definition call {A} (op : prisma_op) (m : io A) : io A :=
  fun w => if available op w then m w
           else (Throw PrismaClientInitializationError, w).

Definition has_token (t : Jwt.token) (r : RefreshToken) : bool :=
  Jwt.token_eqb (token r) t.

(** [prisma.refreshToken.findUnique({ where: { token } })] *)
Definition refreshToken_findUnique (t : Jwt.token)
    : io (option RefreshToken) :=
  call RefreshToken_findUnique
    (fun w => (Return (find (has_token t) (refreshTokens w)), w)).

(** [prisma.refreshToken.create({ data })]: rejected when the unique
    token is already there. *)
Definition refreshToken_create (row : RefreshToken) : io unit :=
  call RefreshToken_create
    (fun w =>
       if existsb (has_token (token row)) (refreshTokens w)
       then (Throw UniqueConstraintFailed, w)
       else (Return tt,
             set_refreshTokens (refreshTokens w ++ [row]) w)).

(** [prisma.refreshToken.delete({ where: { token } })]: Prisma's
    [delete] rejects with P2025 when there is no such record. *)
Definition refreshToken_delete (t : Jwt.token) : io unit :=
  call RefreshToken_delete
    (fun w =>
       if existsb (has_token t) (refreshTokens w)
       then (Return tt,
             set_refreshTokens
               (filter (fun r => negb (has_token t r)) (refreshTokens w)) w)
       else (Throw RecordNotFound, w)).

(** [prisma.refreshToken.deleteMany({ where })] never rejects for lack
    of matching rows. *)
Definition refreshToken_deleteMany (where_ : RefreshToken -> bool)
    : io unit :=
  call RefreshToken_deleteMany
    (fun w =>
       (Return tt,
        set_refreshTokens
          (filter (fun r => negb (where_ r)) (refreshTokens w)) w)).

(** [prisma.user.findUnique({ where })] *)
Definition user_findUnique (where_ : User -> bool) : io (option User) :=
  call User_findUnique
    (fun w => (Return (find where_ (users w)), w)).

End Prisma.

(** ** backend/src/utils/auth.ts *)
Module Auth.

Definition JWT_ACCESS_SECRET (e : process_env) : string :=
  or_else (JWT_ACCESS_SECRET_var e) "fallback-access-secret".

Definition JWT_REFRESH_SECRET (e : process_env) : string :=
  or_else (JWT_REFRESH_SECRET_var e) "fallback-refresh-secret".

(** ['15m'] and ['7d'] in seconds. *)
Definition fifteen_minutes : Z := 15 * 60.
Definition seven_days : Z := 7 * 24 * 60 * 60.

(** [bcrypt.compare(password, hashedPassword)] *)
Definition comparePassword (pw : string) (hashedPassword : digest) : bool :=
  bcrypt_compare pw hashedPassword.

Definition generateAccessToken (e : process_env) (now : Z)
    (uid : string) : Jwt.token :=
  Jwt.sign now uid "access" (JWT_ACCESS_SECRET e) fifteen_minutes.

Definition generateRefreshToken (e : process_env) (now : Z)
    (uid : string) : Jwt.token :=
  Jwt.sign now uid "refresh" (JWT_REFRESH_SECRET e) seven_days.

Definition plain_Error (msg : string) : error :=
  {| name := "Error"; message := msg; code := "" |}.

(** The [try] body throws either from [jwt.verify] or from the type
    check; the [catch] replaces whatever was thrown. *)
Definition verifyAccessToken (e : process_env) (now : Z) (t : Jwt.token)
    : Jwt.payload + error :=
  match Jwt.verify now t (JWT_ACCESS_SECRET e) with
  | inl decoded =>
      if negb (Jwt.type decoded =? "access")%string
      then inr (plain_Error "Invalid or expired access token")
      else inl decoded
  | inr _ => inr (plain_Error "Invalid or expired access token")
  end.

Definition verifyRefreshToken (e : process_env) (now : Z) (t : Jwt.token)
    : Jwt.payload + error :=
  match Jwt.verify now t (JWT_REFRESH_SECRET e) with
  | inl decoded =>
      if negb (Jwt.type decoded =? "refresh")%string
      then inr (plain_Error "Invalid or expired refresh token")
      else inl decoded
  | inr _ => inr (plain_Error "Invalid or expired refresh token")
  end.

(** Seven days in milliseconds. *)
Definition seven_days_ms : Z := 7 * 24 * 60 * 60 * 1000.

(** [const expiresAt = new Date();
     expiresAt.setDate(expiresAt.getDate() + 7)]: the same local time of
    day seven calendar days later, which is seven days later only when
    the offset of the zone is then what it is now. *)
Definition storeRefreshToken (uid : string) (t : Jwt.token) : io unit :=
  now <- new_Date ;;
  expires <- setDate_plus 7 now ;;
  Prisma.refreshToken_create
    {| token := t; userId := uid; expiresAt := expires |}.

(** The [expiresAt] of a row stored now. *)
Definition expiry (w : world) : Z := plus_days (LocalTZA w) 7 (clock w).

Definition removeRefreshToken (t : Jwt.token) : io unit :=
  Prisma.refreshToken_delete t.

Definition isRefreshTokenValid (t : Jwt.token) : io bool :=
  found <- Prisma.refreshToken_findUnique t ;;
  match found with
  | None => ret false
  | Some row =>
      now <- new_Date ;;
      if expiresAt row <? now then
        removeRefreshToken t ;;
        ret false
      else ret true
  end.

Definition cleanupExpiredTokens (uid : string) : io unit :=
  now <- new_Date ;;
  Prisma.refreshToken_deleteMany
    (fun r => (userId r =? uid)%string && (expiresAt r <? now)).

End Auth.

(** ** backend/src/services/userService.ts *)
Module UserService.

Record UserWithoutPassword : Type := mkPublic {
  pub_id : string;
  pub_email : string;
  pub_name : string;
  pub_createdAt : Z;
  pub_updatedAt : Z
}.

Definition without_password (u : User) : UserWithoutPassword :=
  {| pub_id := id u; pub_email := email u; pub_name := user_name u;
     pub_createdAt := createdAt u; pub_updatedAt := updatedAt u |}.

Definition findUserByEmail (mail : string) : io (option User) :=
  Prisma.user_findUnique (fun u => (email u =? mail)%string).

Definition authenticateUser (mail pw : string)
    : io (option UserWithoutPassword) :=
  user <- findUserByEmail mail ;;
  match user with
  | None => ret None
  | Some u =>
      if negb (Auth.comparePassword pw (password u)) then ret None
      else ret (Some (without_password u))
  end.

End UserService.

(** ** Express responses *)

Inductive json : Type :=
| AuthBody (user : UserService.UserWithoutPassword)
    (accessToken refreshToken : Jwt.token)
| TokenBody (accessToken refreshToken : Jwt.token)
| MessageBody (msg : string)
| ErrorBody (error_code error_message : string).

Record response : Type := mkResponse {
  status : Z;
  body : json
}.

(** [res.json(b)] and [res.status(s).json(b)] *)
Definition res_json (b : json) : io response :=
  ret {| status := 200; body := b |}.

Definition res_status_json (s : Z) (b : json) : io response :=
  ret {| status := s; body := b |}.

(** The failure tags of the session service as the request layer shows
    them. *)
Definition InvalidRefresh : response :=
  {| status := 401;
     body := ErrorBody "INVALID_REFRESH_TOKEN"
               "Invalid or expired refresh token" |}.

Definition ValidationError : response :=
  {| status := 400; body := ErrorBody "VALIDATION_ERROR" "Invalid input data" |}.

Definition LoggedOut : response :=
  {| status := 200; body := MessageBody "Logged out successfully" |}.

(** ** backend/src/schemas/authSchemas.ts *)
Module Schemas.

Definition ZodError : error :=
  {| name := "ZodError"; message := "Invalid input data"; code := "" |}.

(** [{ refreshToken }] of a request body: [None] when the field is
    missing or is not a string. *)
Record RefreshTokenRequest : Type := mkRefreshBody {
  refreshToken_field : option Jwt.token
}.

(** [refreshTokenSchema.parse]: [z.string().min(1)] *)
Definition refreshTokenSchema_parse (b : RefreshTokenRequest)
    : Jwt.token + error :=
  match refreshToken_field b with
  | Some t => if Jwt.is_empty t then inr ZodError else inl t
  | None => inr ZodError
  end.

(** [loginSchema.parse(req.body)]: the e-mail format check and its
    normalisation are zod's own; a login body is given by what they
    make of it. *)
Inductive LoginRequest : Type :=
| WellFormed (mail pw : string)
| IllFormed.

Definition loginSchema_parse (b : LoginRequest)
    : (string * string) + error :=
  match b with
  | WellFormed mail pw => inl (mail, pw)
  | IllFormed => inr ZodError
  end.

End Schemas.

(** ** backend/src/controllers/authController.ts *)
Module AuthController.
Import Schemas.

Definition InternalServerError (msg : string) : response :=
  {| status := 500; body := ErrorBody "INTERNAL_SERVER_ERROR" msg |}.

Definition InvalidCredentials : response :=
  {| status := 401;
     body := ErrorBody "INVALID_CREDENTIALS" "Invalid email or password" |}.

Definition login (req : LoginRequest) : io response :=
  try_catch
    (validatedData <- lift (loginSchema_parse req) ;;
     user <- UserService.authenticateUser
               (fst validatedData) (snd validatedData) ;;
     match user with
     | None => ret InvalidCredentials
     | Some user =>
         e <- get_env ;;
         now <- new_Date ;;
         let accessToken :=
           Auth.generateAccessToken e now (UserService.pub_id user) in
         let refreshToken :=
           Auth.generateRefreshToken e now (UserService.pub_id user) in
         Auth.storeRefreshToken (UserService.pub_id user) refreshToken ;;
         Auth.cleanupExpiredTokens (UserService.pub_id user) ;;
         res_json (AuthBody user accessToken refreshToken)
     end)
    (fun error =>
       if (name error =? "ZodError")%string then ret ValidationError
       else ret (InternalServerError
                   "An unexpected error occurred during login")).

Definition refreshToken (req : RefreshTokenRequest) : io response :=
  try_catch
    (refreshToken <- lift (refreshTokenSchema_parse req) ;;
     e <- get_env ;;
     now <- new_Date ;;
     decoded <- lift (Auth.verifyRefreshToken e now refreshToken) ;;
     isValid <- Auth.isRefreshTokenValid refreshToken ;;
     if negb isValid then ret InvalidRefresh
     else
       now <- new_Date ;;
       let newAccessToken :=
         Auth.generateAccessToken e now (Jwt.userId decoded) in
       let newRefreshToken :=
         Auth.generateRefreshToken e now (Jwt.userId decoded) in
       Auth.removeRefreshToken refreshToken ;;
       Auth.storeRefreshToken (Jwt.userId decoded) newRefreshToken ;;
       res_json (TokenBody newAccessToken newRefreshToken))
    (fun error =>
       if (name error =? "ZodError")%string then ret ValidationError
       else if includes "Invalid or expired" (message error)
       then ret InvalidRefresh
       else ret (InternalServerError
                   "An unexpected error occurred during token refresh")).

Definition logout (req : RefreshTokenRequest) : io response :=
  try_catch
    (refreshToken <- lift (refreshTokenSchema_parse req) ;;
     Auth.removeRefreshToken refreshToken ;;
     res_json (MessageBody "Logged out successfully"))
    (fun error =>
       if (name error =? "ZodError")%string then ret ValidationError
       else res_json (MessageBody "Logged out successfully")).

End AuthController.

(** ** backend/src/middleware/auth.ts *)
Module Middleware.

(** The [Authorization] header: [Bearer t] is the text ["Bearer "]
    followed by the token [t]; [Other s] is a value that does not start
    with ["Bearer "]. *)
Inductive authorization : Type :=
| Bearer (t : Jwt.token)
| Other (s : string).

(** What the middleware does with the request: answers it, or calls
    [next()] with [req.user] set. *)
Inductive outcome : Type :=
| Responded (r : response)
| Next (user : UserService.UserWithoutPassword).

Definition unauthorized (c msg : string) : outcome :=
  Responded {| status := 401; body := ErrorBody c msg |}.

Definition authenticateToken (authHeader : option authorization)
    : io outcome :=
  try_catch
    (let token :=
       match authHeader with
       | Some (Bearer t) => Some t
       | _ => None
       end in
     match token with
     | None => ret (unauthorized "MISSING_TOKEN" "Access token is required")
     | Some t =>
         if Jwt.is_empty t
         then ret (unauthorized "MISSING_TOKEN" "Access token is required")
         else
           e <- get_env ;;
           now <- new_Date ;;
           match Auth.verifyAccessToken e now t with
           | inr _ =>
               ret (unauthorized "INVALID_TOKEN"
                      "Invalid or expired access token")
           | inl decoded =>
               user <- Prisma.user_findUnique
                         (fun u => (id u =? Jwt.userId decoded)%string) ;;
               match user with
               | None =>
                   ret (unauthorized "USER_NOT_FOUND"
                          "User associated with token no longer exists")
               | Some u => ret (Next (UserService.without_password u))
               end
           end
     end)
    (fun _ =>
       ret (Responded
              {| status := 500;
                 body := ErrorBody "AUTHENTICATION_ERROR"
                           "Internal authentication error" |})).

End Middleware.

(** ** Observations on the store *)

(** The row the table holds for a token value, if any. *)
Definition stored (t : Jwt.token) (w : world) : option RefreshToken :=
  find (Prisma.has_token t) (refreshTokens w).

(** The table without the row of a token value. *)
Definition without (t : Jwt.token) (rows : list RefreshToken)
    : list RefreshToken :=
  filter (fun r => negb (Prisma.has_token t r)) rows.

(** The body of a refresh or logout request carrying [t]. *)
Definition carrying (t : Jwt.token) : Schemas.RefreshTokenRequest :=
  {| Schemas.refreshToken_field := Some t |}.

(** ** A concrete deployment used to run the handlers *)
Module Scenario.

Definition alice : User :=
  {| id := "u1"; email := "alice@example.com";
     password := bcrypt_hash "c2FsdA" "Secret123!";
     user_name := "Alice"; createdAt := 0; updatedAt := 0 |}.

Definition defaults : process_env :=
  {| JWT_ACCESS_SECRET_var := None; JWT_REFRESH_SECRET_var := None |}.

(** A host on universal time. *)
Definition UTC : Z -> bool -> Z := fun _ _ => 0.

(** A host whose zone puts the clocks forward by an hour at the end of
    the third day. *)
Definition summer_time_ahead : Z -> bool -> Z :=
  fun t _ => if t <? 3 * msPerDay then 0 else 3600000.

(** One registered user, no session, the clock at 1.5 s. *)
Definition fresh : world :=
  {| clock := 1500; zone := UTC; env := defaults; refreshTokens := [];
     users := [alice]; outage := [] |}.

Definition credentials : Schemas.LoginRequest :=
  Schemas.WellFormed "alice@example.com" "Secret123!".

(** The tokens a login at 1.5 s hands out. *)
Definition A1 : Jwt.token := Auth.generateAccessToken defaults 1500 "u1".
Definition R1 : Jwt.token := Auth.generateRefreshToken defaults 1500 "u1".

(** The world after that login. *)
Definition logged_in : world :=
  snd (AuthController.login credentials fresh).

(** The same deployment on a host whose clocks go forward within the
    week. *)
Definition before_summer_time : world :=
  {| clock := 1500; zone := summer_time_ahead; env := defaults;
     refreshTokens := []; users := [alice]; outage := [] |}.

(** The same deployment with the housekeeping query failing. *)
Definition no_housekeeping : world :=
  {| clock := 1500; zone := UTC; env := defaults; refreshTokens := [];
     users := [alice]; outage := [RefreshToken_deleteMany] |}.

(** A row that expires exactly now. *)
Definition expiring_now : world :=
  {| clock := 604801500; zone := UTC; env := defaults;
     refreshTokens :=
       [{| token := R1; userId := "u1"; expiresAt := 604801500 |}];
     users := [alice]; outage := [] |}.

End Scenario.

(** ** frontend/src/lib/api.ts *)
Module Client.

(** *** js-cookie *)

(** A cookie and the instant (in milliseconds) from which the browser
    no longer returns it. *)
Record cookie : Type := mkCookie {
  value : string;
  expires : Z
}.

Record jar : Type := mkJar {
  accessToken : option cookie;
  refreshToken : option cookie
}.

(** [864e5]: a day in milliseconds, the unit of [expires]. *)
Definition day : Z := 86400000.

(** [Cookies.get(name)] when the clock reads [now]. *)
Definition Cookies_get (c : option cookie) (now : Z) : option string :=
  match c with
  | Some c => if now <? expires c then Some (value c) else None
  | None => None
  end.

(** [v || null] *)
Definition or_null (v : option string) : option string :=
  match v with
  | Some s => if (s =? "")%string then None else Some s
  | None => None
  end.

Definition getAccessToken (now : Z) (j : jar) : option string :=
  or_null (Cookies_get (accessToken j) now).

Definition getRefreshToken (now : Z) (j : jar) : option string :=
  or_null (Cookies_get (refreshToken j) now).

(** [new Date(t).toUTCString()] names the second that [t] lies in: the
    instant a cookie's [expires] attribute stands for. *)
Definition toUTCString (t : Z) : Z := t / 1000 * 1000.

(** [Cookies.set(name, value, { expires: days })] writes the attribute
    [expires=new Date(Date.now() + days * 864e5).toUTCString()]; the
    tokens are stored with [expires: 1/96] and [expires: 7]. *)
Definition setTokens (now : Z) (access refresh : string) (j : jar) : jar :=
  {| accessToken :=
       Some {| value := access; expires := toUTCString (now + day / 96) |};
     refreshToken :=
       Some {| value := refresh; expires := toUTCString (now + 7 * day) |} |}.

Definition clearTokens (j : jar) : jar :=
  {| accessToken := None; refreshToken := None |}.

(** *** Requests *)

(** The part of an axios request config the interceptors touch. *)
Record config : Type := mkConfig {
  url : string;
  Authorization : option string;
  _retry : bool
}.

Definition set_Authorization (h : string) (c : config) : config :=
  {| url := url c; Authorization := Some h; _retry := _retry c |}.

Definition set_retry (c : config) : config :=
  {| url := url c; Authorization := Authorization c; _retry := true |}.

(** The request interceptor. *)
Definition request_interceptor (now : Z) (j : jar) (c : config) : config :=
  match getAccessToken now j with
  | Some token => set_Authorization ("Bearer " ++ token) c
  | None => c
  end.

(** *** The client instance and its pending work

    JavaScript runs one task at a time.  An [async] function runs until
    its first [await] on an unsettled promise and is then suspended; when
    a task ends, every suspended function whose promise has settled is
    resumed, in the order of suspension. *)

Inductive settlement : Type :=
| Fulfilled (token : string)
| Rejected (e : error).

(** A response interceptor suspended in [await this.refreshAccessToken()]:
    the request it serves, the promise it waits for, and whether it is
    the caller that created the promise and so runs the [finally]. *)
Record waiter : Type := mkWaiter {
  request : nat;
  original : config;
  promise : nat;
  owner : bool
}.

(** How a response interceptor ends: it re-issues the request, or it
    rejects. *)
Inductive completed : Type :=
| Reissued (c : config)
| Failed (e : error).

Record agent : Type := mkAgent {
  now : Z;
  cookies : jar;
  refreshPromise : option nat;
  promises : list (option settlement);
  posts : list string;
  suspended : list waiter;
  finished : list (nat * completed)
}.

Definition set_now (t : Z) (a : agent) : agent :=
  mkAgent t (cookies a) (refreshPromise a) (promises a) (posts a)
    (suspended a) (finished a).

Definition set_cookies (j : jar) (a : agent) : agent :=
  mkAgent (now a) j (refreshPromise a) (promises a) (posts a)
    (suspended a) (finished a).

Definition set_refreshPromise (p : option nat) (a : agent) : agent :=
  mkAgent (now a) (cookies a) p (promises a) (posts a)
    (suspended a) (finished a).

Definition set_promises (l : list (option settlement)) (a : agent) : agent :=
  mkAgent (now a) (cookies a) (refreshPromise a) l (posts a)
    (suspended a) (finished a).

Definition set_posts (l : list string) (a : agent) : agent :=
  mkAgent (now a) (cookies a) (refreshPromise a) (promises a) l
    (suspended a) (finished a).

Definition set_suspended (l : list waiter) (a : agent) : agent :=
  mkAgent (now a) (cookies a) (refreshPromise a) (promises a) (posts a)
    l (finished a).

Definition set_finished (l : list (nat * completed)) (a : agent) : agent :=
  mkAgent (now a) (cookies a) (refreshPromise a) (promises a) (posts a)
    (suspended a) l.

Definition suspend (wt : waiter) (a : agent) : agent :=
  set_suspended (suspended a ++ [wt]) a.

Definition finish (c : nat) (r : completed) (a : agent) : agent :=
  set_finished (finished a ++ [(c, r)]) a.

(** The state of a promise: [None] while it is pending or unknown. *)
Definition settled (a : agent) (p : nat) : option settlement :=
  match nth_error (promises a) p with
  | Some (Some s) => Some s
  | _ => None
  end.

Fixpoint replace_nth {A} (n : nat) (x : A) (l : list A) : list A :=
  match l, n with
  | [], _ => []
  | _ :: tl, O => x :: tl
  | hd :: tl, S n' => hd :: replace_nth n' x tl
  end.

Definition settle (p : nat) (s : settlement) (a : agent) : agent :=
  set_promises (replace_nth p (Some s) (promises a)) a.

Definition no_refresh_token : error :=
  {| name := "Error"; message := "No refresh token available"; code := "" |}.

(** [performTokenRefresh()] up to its [await]: the promise it returns is
    rejected at once when no refresh token is stored, and otherwise
    pending on the POST to [/api/auth/refresh] that has just been
    sent. *)
Definition performTokenRefresh (a : agent) : nat * agent :=
  let p := List.length (promises a) in
  match getRefreshToken (now a) (cookies a) with
  | None => (p, set_promises (promises a ++ [Some (Rejected no_refresh_token)]) a)
  | Some refreshToken =>
      (p, set_posts (posts a ++ [refreshToken])
            (set_promises (promises a ++ [None]) a))
  end.

(** The answer to that POST: [performTokenRefresh] stores the new pair
    and returns the access token, or throws. *)
Inductive reply : Type :=
| Tokens (accessToken refreshToken : string)
| NoTokens (e : error).

Definition performTokenRefresh_resume (p : nat) (r : reply) (a : agent)
    : agent :=
  match nth_error (promises a) p with
  | Some None =>
      match r with
      | Tokens accessToken newRefreshToken =>
          settle p (Fulfilled accessToken)
            (set_cookies
               (setTokens (now a) accessToken newRefreshToken (cookies a)) a)
      | NoTokens e => settle p (Rejected e) a
      end
  | _ => a
  end.

(** [refreshAccessToken()] called for request [c], up to the suspension
    of its caller: a refresh in flight is shared, otherwise one is
    started and remembered. *)
Definition refreshAccessToken (c : nat) (cfg : config) (a : agent) : agent :=
  match refreshPromise a with
  | Some p =>
      suspend {| request := c; original := cfg; promise := p;
                 owner := false |} a
  | None =>
      let (p, a') := performTokenRefresh a in
      suspend {| request := c; original := cfg; promise := p;
                 owner := true |}
        (set_refreshPromise (Some p) a')
  end.

(** The rest of the response interceptor once the awaited promise has
    settled.  The owner first runs its [finally]; then the request is
    sent again with the new token (through the request interceptor), or
    the tokens are cleared and the failure is passed on. *)
Definition resume (wt : waiter) (s : settlement) (a : agent) : agent :=
  let a := if owner wt then set_refreshPromise None a else a in
  match s with
  | Fulfilled newToken =>
      finish (request wt)
        (Reissued
           (request_interceptor (now a) (cookies a)
              (set_Authorization ("Bearer " ++ newToken) (original wt))))
        a
  | Rejected e =>
      finish (request wt) (Failed e)
        (set_cookies (clearTokens (cookies a)) a)
  end.

Definition wake (a : agent) (wt : waiter) : agent :=
  match settled a (promise wt) with
  | Some s => resume wt s a
  | None => suspend wt a
  end.

(** The end of a task: every suspended interceptor whose promise has
    settled continues. *)
Definition drain (a : agent) : agent :=
  fold_left wake (suspended a) (set_suspended [] a).

(** The error path of the response interceptor for request [c]. *)
Definition response_error (c : nat) (status : option Z) (cfg : config)
    (e : error) (a : agent) : agent :=
  match status with
  | Some s =>
      if (s =? 401) && negb (_retry cfg)
      then refreshAccessToken c (set_retry cfg) a
      else finish c (Failed e) a
  | None => finish c (Failed e) a
  end.

(** What the browser delivers to the client, one task each. *)
Inductive event : Type :=
| ResponseError (c : nat) (status : option Z) (cfg : config) (e : error)
| RefreshReply (p : nat) (r : reply)
| Elapsed (dt : Z).

Definition handle (ev : event) (a : agent) : agent :=
  match ev with
  | ResponseError c status cfg e => response_error c status cfg e a
  | RefreshReply p r => performTokenRefresh_resume p r a
  | Elapsed dt => set_now (now a + Z.max 0 dt) a
  end.

Definition step (a : agent) (ev : event) : agent := drain (handle ev a).

Definition run (evs : list event) (a : agent) : agent :=
  fold_left step evs a.

(** *** Vocabulary of the properties *)

(** The 401 that request [c] sent with [cfg] has met. *)
Definition unauthorized (x : nat * config) : event :=
  ResponseError (fst x) (Some 401) (snd x)
    {| name := "AxiosError";
       message := "Request failed with status code 401";
       code := "ERR_BAD_REQUEST" |}.







(** A refresh is in flight on promise [p]: the marker points to it, it is
    pending, and every suspended interceptor waits for it. *)
Definition in_flight (p : nat) (a : agent) : Prop :=
  refreshPromise a = Some p
  /\ nth_error (promises a) p = Some None
  /\ (forall wt, In wt (suspended a) -> promise wt = p).

(** The interceptor of a request that joins a refresh in flight. *)
Definition sharer (p : nat) (x : nat * config) : waiter :=
  {| request := fst x; original := set_retry (snd x); promise := p;
     owner := false |}.

(** An access cookie never outlives the refresh cookie stored with it. *)
Definition storage_ok (a : agent) : Prop :=
  forall ca, accessToken (cookies a) = Some ca ->
    exists cr, refreshToken (cookies a) = Some cr
               /\ expires ca <= expires cr
               /\ value cr <> ""%string.

(** A server answer carries two signed tokens, neither of them empty. *)
Definition well_formed (ev : event) : Prop :=
  match ev with
  | RefreshReply _ (Tokens _ refresh) => refresh <> ""%string
  | _ => True
  end.

(** The states of the client's storage that its own operations produce,
    starting with no cookie: storing a pair after login, register or
    refresh, clearing it, the passing of time, and the tasks of the
    interceptors. *)
Inductive reachable : agent -> Prop :=
| reach_start a :
    cookies a = {| accessToken := None; refreshToken := None |} ->
    reachable a
| reach_setTokens a access refresh :
    reachable a -> refresh <> ""%string ->
    reachable (set_cookies (setTokens (now a) access refresh (cookies a)) a)
| reach_clearTokens a :
    reachable a -> reachable (set_cookies (clearTokens (cookies a)) a)
| reach_step a ev :
    reachable a -> well_formed ev -> reachable (step a ev).


(** [auth.refresh()] after the [await], the server having answered with
    a pair. *)
Definition auth_refresh_done (access refresh : string) (a : agent) : agent :=
  set_cookies (setTokens (now a) access refresh (cookies a)) a.

(** Storage holding an access token and no refresh token. *)
Definition access_only : jar :=
  {| accessToken := Some {| value := "A"; expires := 900000 |};
     refreshToken := None |}.

Definition blank : config :=
  {| url := "/api/tasks"; Authorization := None; _retry := false |}.

(** A client that has never logged in. *)
Definition start : agent :=
  {| now := 0;
     cookies := {| accessToken := None; refreshToken := None |};
     refreshPromise := None; promises := []; posts := [];
     suspended := []; finished := [] |}.

(** A client with a stored pair and nothing in flight. *)
Definition idle : agent :=
  {| now := 1000000;
     cookies := setTokens 0 "A0" "R0" {| accessToken := None;
                                         refreshToken := None |};
     refreshPromise := None; promises := []; posts := [];
     suspended := []; finished := [] |}.

(** Reading a field of an updated client. *)
Ltac fields :=
  cbn [now cookies refreshPromise promises posts suspended finished
       set_now set_cookies set_refreshPromise set_promises set_posts
       set_suspended set_finished settle suspend finish].

End Client.

(** * Further parts of the code *)

(** ** backend/src/middleware/auth.ts: the lenient middleware *)
Module OptionalAuth.

(** [optionalAuth] always calls [next()]; the result is [req.user] as the
    next handler finds it. *)
Definition optionalAuth (authHeader : option Middleware.authorization)
    : io (option UserService.UserWithoutPassword) :=
  try_catch
    (let token :=
       match authHeader with
       | Some (Middleware.Bearer t) => Some t
       | _ => None
       end in
     match token with
     | None => ret None
     | Some t =>
         if Jwt.is_empty t then ret None
         else
           try_catch
             (e <- get_env ;;
              now <- new_Date ;;
              decoded <- lift (Auth.verifyAccessToken e now t) ;;
              user <- Prisma.user_findUnique
                        (fun u => (id u =? Jwt.userId decoded)%string) ;;
              match user with
              | Some u => ret (Some (UserService.without_password u))
              | None => ret None
              end)
             (fun _ => ret None)
     end)
    (fun _ => ret None).

End OptionalAuth.

(** ** Registration: userService.createUser and authController.register *)
Module Register.

(** What the libraries contribute to one registration: the salt bcrypt
    draws, the id Prisma generates for the row, and whether the insert
    reaches the database. *)
Record draw : Type := mkDraw {
  bcrypt_salt : string;
  cuid : string;
  insert_answers : bool
}.

(** [bcrypt.hash(password, SALT_ROUNDS)] with the salt drawn. *)
Definition hashPassword (d : draw) (pw : string) : digest :=
  bcrypt_hash (bcrypt_salt d) pw.

Definition set_users (l : list User) (w : world) : world :=
  {| clock := clock w; zone := zone w; env := env w;
     refreshTokens := refreshTokens w; users := l; outage := outage w |}.

Definition UniqueConstraintFailed_user : error :=
  Prisma.KnownRequestError "P2002"
    "Invalid `prisma.user.create()` invocation: Unique constraint failed on the fields: (`email`)".

(** [prisma.user.create({ data, select })]: [id] and [email] are unique;
    the timestamps default to now. *)
Definition user_create (d : draw) (mail : string) (pw : digest)
    (name_ : string) : io UserService.UserWithoutPassword :=
  fun w =>
    if negb (insert_answers d)
    then (Throw Prisma.PrismaClientInitializationError, w)
    else if existsb (fun u => (id u =? cuid d)%string
                              || (email u =? mail)%string) (users w)
    then (Throw UniqueConstraintFailed_user, w)
    else
      let row := {| id := cuid d; email := mail; password := pw;
                    user_name := name_; createdAt := clock w;
                    updatedAt := clock w |} in
      (Return (UserService.without_password row),
       set_users (users w ++ [row]) w).

Definition createUser (d : draw) (mail pw name_ : string)
    : io UserService.UserWithoutPassword :=
  existingUser <- Prisma.user_findUnique
                    (fun u => (email u =? mail)%string) ;;
  match existingUser with
  | Some _ =>
      throw (Auth.plain_Error "User with this email already exists")
  | None =>
      let hashedPassword := hashPassword d pw in
      user_create d mail hashedPassword name_
  end.

(** [registerSchema.parse(req.body)]: the checks and normalisations are
    zod's; a registration body is given by what they make of it. *)
Inductive RegisterRequest : Type :=
| WellFormed (mail pw name_ : string)
| IllFormed.

Definition registerSchema_parse (b : RegisterRequest)
    : (string * string * string) + error :=
  match b with
  | WellFormed mail pw name_ => inl (mail, pw, name_)
  | IllFormed => inr Schemas.ZodError
  end.

Definition DuplicateEmail : response :=
  {| status := 409;
     body := ErrorBody "DUPLICATE_EMAIL"
               "A user with this email already exists" |}.

Definition register (d : draw) (req : RegisterRequest) : io response :=
  try_catch
    (validatedData <- lift (registerSchema_parse req) ;;
     user <- createUser d (fst (fst validatedData))
               (snd (fst validatedData)) (snd validatedData) ;;
     e <- get_env ;;
     now <- new_Date ;;
     let accessToken :=
       Auth.generateAccessToken e now (UserService.pub_id user) in
     let refreshToken :=
       Auth.generateRefreshToken e now (UserService.pub_id user) in
     Auth.storeRefreshToken (UserService.pub_id user) refreshToken ;;
     Auth.cleanupExpiredTokens (UserService.pub_id user) ;;
     res_status_json 201 (AuthBody user accessToken refreshToken))
    (fun error =>
       if (name error =? "ZodError")%string then ret ValidationError
       else if includes "already exists" (message error)
       then ret DuplicateEmail
       else ret (AuthController.InternalServerError
                   "An unexpected error occurred during registration")).

End Register.

(** ** backend/src/middleware: error handler, body validation, routes *)
Module Pipeline.

(** What reaches [errorHandler]: an [AppError], with its own status and
    code, or any other error. *)
Inductive thrown : Type :=
| AppError (msg : string) (statusCode : Z) (code_ : string)
| Other (e : error).

(** [errorHandler]: the status and the [error] object of the answer
    (the [details] of a validation error are left out of [json]).  An
    instance of [ZodError] is an error named so. *)
Definition errorHandler (err : thrown) : response :=
  match err with
  | AppError msg statusCode code_ =>
      {| status := statusCode; body := ErrorBody code_ msg |}
  | Other e =>
      if (name e =? "ZodError")%string then
        {| status := 400;
           body := ErrorBody "VALIDATION_ERROR" "Invalid input data" |}
      else if (name e =? "JsonWebTokenError")%string then
        {| status := 401;
           body := ErrorBody "INVALID_TOKEN" "Invalid authentication token" |}
      else if (name e =? "TokenExpiredError")%string then
        {| status := 401;
           body := ErrorBody "TOKEN_EXPIRED"
                     "Authentication token has expired" |}
      else if (name e =? "PrismaClientKnownRequestError")%string then
        if (code e =? "P2002")%string then
          {| status := 409;
             body := ErrorBody "DUPLICATE_ENTRY"
                       "A record with this information already exists" |}
        else if (code e =? "P2025")%string then
          {| status := 404;
             body := ErrorBody "RECORD_NOT_FOUND"
                       "The requested record was not found" |}
        else
          {| status := 500;
             body := ErrorBody "DATABASE_ERROR" "A database error occurred" |}
      else if (name e =? "PrismaClientValidationError")%string then
        {| status := 400;
           body := ErrorBody "INVALID_DATA"
                     "Invalid data provided to database" |}
      else
        {| status := 500;
           body := ErrorBody "INTERNAL_SERVER_ERROR"
                     "An unexpected error occurred" |}
  end.

(** [validateBody(schema)]: [next()] with the body replaced by the parsed
    data, or [next(error)]. *)
Definition validateBody {A B} (parse : A -> B + error) (body_ : A)
    : B + thrown :=
  match parse body_ with
  | inl validatedData => inl validatedData
  | inr e =>
      if (name e =? "ZodError")%string then inr (Other e)
      else inr (AppError "Validation failed" 400 "VALIDATION_ERROR")
  end.

(** A route [router.post(path, validateBody(schema), handler)] under the
    application's error handler; [again] is the validated data as the
    body the handler reads. *)
Definition route {A B} (parse : A -> B + error) (again : B -> A)
    (handler : A -> io response) (body_ : A) : io response :=
  match validateBody parse body_ with
  | inl validatedData => handler (again validatedData)
  | inr err => ret (errorHandler err)
  end.

(** The refresh and logout routes of [authRoutes]. *)
Definition post_refresh : Schemas.RefreshTokenRequest -> io response :=
  route Schemas.refreshTokenSchema_parse carrying
    AuthController.refreshToken.

Definition post_logout : Schemas.RefreshTokenRequest -> io response :=
  route Schemas.refreshTokenSchema_parse carrying AuthController.logout.

End Pipeline.

(** ** backend/src/middleware/validation.ts: the rate limiter *)
Module RateLimit.

Record entry : Type := mkEntry {
  count : Z;
  resetTime : Z
}.

(** [requestCounts], a [Map] from client id to its entry. *)
Definition counters : Type := string -> option entry.

Definition empty : counters := fun _ => None.

(** [requestCounts.set(k, v)] *)
Definition set (k : string) (v : entry) (m : counters) : counters :=
  fun k' => if (k' =? k)%string then Some v else m k'.

(** [Math.ceil(ms / 1000)] *)
Definition ceil_seconds (ms : Z) : Z := - ((- ms) / 1000).

(** The largest time value of a [Date], 100 million days from the
    epoch in either direction. *)
Definition maxTime : Z := 8640000000000000.

Definition RangeError : error :=
  {| name := "RangeError"; message := "Invalid time value"; code := "" |}.

(** [new Date(t).toISOString()] returns for a time value and throws for
    any other number. *)
Definition is_time_value (t : Z) : bool :=
  (- maxTime <=? t) && (t <=? maxTime).

(** The request goes on, or it is answered 429 with [Retry-After] and
    [X-RateLimit-Reset], or the middleware throws before it has answered
    or called [next]. *)
Inductive verdict : Type :=
| Passed
| TooManyRequests (retryAfter : Z) (reset : Z)
| Threw (e : error).

(** One request through [basicRateLimit(maxRequests, windowMs)], from the
    address [ip] when the clock reads [now]; [windowMs] is a whole number
    of milliseconds. *)
Definition basicRateLimit (maxRequests windowMs : Z) (ip : option string)
    (now : Z) (m : counters) : verdict * counters :=
  let clientId := or_else ip "unknown" in
  match m clientId with
  | None =>
      (Passed, set clientId {| count := 1; resetTime := now + windowMs |} m)
  | Some clientData =>
      if now >? resetTime clientData then
        (Passed, set clientId {| count := 1; resetTime := now + windowMs |} m)
      else if count clientData <? maxRequests then
        (Passed,
         set clientId {| count := count clientData + 1;
                         resetTime := resetTime clientData |} m)
      else
        let resetTimeSeconds := ceil_seconds (resetTime clientData - now) in
        if is_time_value (resetTime clientData)
        then (TooManyRequests resetTimeSeconds (resetTime clientData), m)
        else (Threw RangeError, m)
  end.

(** A sequence of requests, each with its address and its time. *)
Fixpoint serve (maxRequests windowMs : Z) (reqs : list (option string * Z))
    (m : counters) : list verdict * counters :=
  match reqs with
  | [] => ([], m)
  | (ip, now) :: rest =>
      let (v, m') := basicRateLimit maxRequests windowMs ip now m in
      let (vs, m'') := serve maxRequests windowMs rest m' in
      (v :: vs, m'')
  end.

Definition passed (v : verdict) : bool :=
  match v with
  | Passed => true
  | TooManyRequests _ _ => false
  | Threw _ => false
  end.

(** [req.ip || 'unknown'] *)
Definition clientId (req : option string * Z) : string :=
  or_else (fst req) "unknown".

(** The requests of one client among all, and the verdicts they got. *)
Definition of_client (c : string) (reqs : list (option string * Z))
    : list (option string * Z) :=
  filter (fun r => (clientId r =? c)%string) reqs.

Definition verdicts_of (c : string) (reqs : list (option string * Z))
    (vs : list verdict) : list verdict :=
  map snd (filter (fun rv => (clientId (fst rv) =? c)%string)
             (combine reqs vs)).

End RateLimit.

(** A registration in the deployment of [Scenario]. *)
Definition bob_draw : Register.draw :=
  {| Register.bcrypt_salt := "c2FsdDI"; Register.cuid := "u2";
     Register.insert_answers := true |}.

(** ** Invariants of the handlers *)

(** No two rows of the table hold the same token. *)
Definition unique_tokens (w : world) : Prop :=
  NoDup (map token (refreshTokens w)).

(** Everything but the refresh-token table. *)
Definition same_elsewhere (w w' : world) : Prop :=
  clock w' = clock w /\ env w' = env w /\ users w' = users w
  /\ outage w' = outage w.

(** [m] keeps [P] from any world, whether it returns or throws. *)
Definition preserves {A} (P : world -> Prop) (m : io A) : Prop :=
  forall w, P w -> P (snd (m w)).

(** [w'] differs from [w] at most in the refresh-token table, and the
    token column of that table has stayed free of duplicates if it
    was. *)
Definition table_step (w w' : world) : Prop :=
  same_elsewhere w w' /\ (unique_tokens w -> unique_tokens w').

(** ** frontend/src/lib/api.ts: errors, the stored pair, logout *)
Module ClientAuth.

(** What [enhanceError] reads of an axios error and the two flags it
    sets; a flag that is [undefined] is [false]. *)
Record AxiosError : Type := mkAxiosError {
  response : option Z;
  error_code : option string;
  error_message : string;
  isNetworkError : bool;
  isTimeoutError : bool
}.

Definition enhanceError (e : AxiosError) : AxiosError :=
  match response e with
  | Some _ => e
  | None =>
      {| response := response e;
         error_code := error_code e;
         error_message := error_message e;
         isNetworkError := true;
         isTimeoutError :=
           if match error_code e with
              | Some c => (c =? "ECONNABORTED")%string
              | None => false
              end
              || includes "timeout" (error_message e)
           then true
           else isTimeoutError e |}
  end.

(** [auth.getCurrentUser()] *)
Definition getCurrentUser (now : Z) (j : Client.jar)
    : option string * option string :=
  (Client.getAccessToken now j, Client.getRefreshToken now j).

(** [auth.logout()] up to its [await]: the body of the POST to
    [/api/auth/logout], when a refresh token is stored and a request is
    made at all. *)
Definition auth_logout_request (a : Client.agent) : option string :=
  Client.getRefreshToken (Client.now a) (Client.cookies a).

(** [auth.logout()] after the [await], or at once when no request is
    made: whatever the server answered, the pair is cleared. *)
Definition auth_logout_done (a : Client.agent) : Client.agent :=
  Client.set_cookies (Client.clearTokens (Client.cookies a)) a.

(** Every interceptor that waits, and every request that was sent again,
    carries the [_retry] mark. *)
Definition marked (a : Client.agent) : Prop :=
  (forall wt, In wt (Client.suspended a) ->
              Client._retry (Client.original wt) = true)
  /\ (forall c cfg, In (c, Client.Reissued cfg) (Client.finished a) ->
                    Client._retry cfg = true).

End ClientAuth.

(** ** backend/src/services/taskService.ts: the operations on one task *)
Module Tasks.

Record Task : Type := mkTask {
  id : string;
  title : string;
  description : option string;
  status : string;
  userId : string;
  createdAt : Z;
  updatedAt : Z
}.

Definition PENDING : string := "PENDING".
Definition COMPLETED : string := "COMPLETED".

(** [prisma.task.findFirst({ where: { id: taskId, userId } })] *)
Definition getTaskById (uid taskId : string) (table : list Task)
    : option Task :=
  find (fun t => (id t =? taskId)%string && (userId t =? uid)%string) table.

(** [prisma.task.update({ where: { id }, data })] on a table that holds
    the id. *)
Definition task_update (taskId : string) (data : Task -> Task)
    (table : list Task) : list Task :=
  map (fun t => if (id t =? taskId)%string then data t else t) table.

(** [prisma.task.delete({ where: { id } })] on a table that holds the
    id. *)
Definition task_delete (taskId : string) (table : list Task) : list Task :=
  filter (fun t => negb (id t =? taskId)%string) table.

(** The validated body of an update: each field may be left out. *)
Record UpdateTaskRequest : Type := mkUpdate {
  new_title : option string;
  new_description : option string;
  new_status : option string
}.

Definition or_old {A} (x : option A) (old : A) : A :=
  match x with
  | Some v => v
  | None => old
  end.

Definition updateTask (uid taskId : string) (updates : UpdateTaskRequest)
    (now : Z) (table : list Task) : option Task * list Task :=
  match getTaskById uid taskId table with
  | None => (None, table)
  | Some _ =>
      let data t :=
        {| id := id t;
           title := or_old (new_title updates) (title t);
           description :=
             match new_description updates with
             | Some d => Some d
             | None => description t
             end;
           status := or_old (new_status updates) (status t);
           userId := userId t;
           createdAt := createdAt t;
           updatedAt := now |} in
      let table' := task_update taskId data table in
      (find (fun t => (id t =? taskId)%string) table', table')
  end.

Definition toggleTaskStatus (uid taskId : string) (now : Z)
    (table : list Task) : option Task * list Task :=
  match getTaskById uid taskId table with
  | None => (None, table)
  | Some existingTask =>
      let newStatus :=
        if (status existingTask =? PENDING)%string
        then COMPLETED else PENDING in
      let data t :=
        {| id := id t; title := title t; description := description t;
           status := newStatus; userId := userId t;
           createdAt := createdAt t; updatedAt := now |} in
      let table' := task_update taskId data table in
      (find (fun t => (id t =? taskId)%string) table', table')
  end.

Definition deleteTask (uid taskId : string) (table : list Task)
    : bool * list Task :=
  match getTaskById uid taskId table with
  | None => (false, table)
  | Some _ => (true, task_delete taskId table)
  end.

(** The tasks that do not belong to [uid]. *)
Definition of_others (uid : string) (table : list Task) : list Task :=
  filter (fun t => negb (userId t =? uid)%string) table.

(** Two tasks of two users. *)
Definition sample : list Task :=
  [ {| id := "t1"; title := "Write"; description := None;
       status := PENDING; userId := "u1"; createdAt := 0; updatedAt := 0 |};
    {| id := "t2"; title := "Read"; description := Some "twice";
       status := COMPLETED; userId := "u2"; createdAt := 5;
       updatedAt := 5 |} ].

End Tasks.

(** * Properties of the server side *)

(** ** Equality of tokens and lookups in the table *)

Lemma opt_eqb_eq (a b : option Z) : Jwt.opt_eqb a b = true <-> a = b.
Proof.
  destruct a as [x|], b as [y|]; simpl; split; intro H;
    try discriminate; try reflexivity.
  - apply Z.eqb_eq in H. now subst.
  - injection H as ->. apply Z.eqb_refl.
Qed.

Lemma payload_eqb_eq (p q : Jwt.payload) :
  Jwt.payload_eqb p q = true <-> p = q.
Proof.
  unfold Jwt.payload_eqb. destruct p as [u ty i e], q as [u' ty' i' e'].
  simpl. rewrite !andb_true_iff, !String.eqb_eq, Z.eqb_eq, opt_eqb_eq.
  split.
  - intros [[[-> ->] ->] ->]. reflexivity.
  - intros H. injection H as -> -> -> ->. auto.
Qed.

Lemma token_eqb_eq (a b : Jwt.token) : Jwt.token_eqb a b = true <-> a = b.
Proof.
  destruct a as [p k|s], b as [q k'|s']; simpl;
    try (split; intro H; discriminate).
  - rewrite andb_true_iff, payload_eqb_eq, String.eqb_eq.
    split; [intros [-> ->]; reflexivity | intros H; injection H; auto].
  - rewrite String.eqb_eq.
    split; [intros ->; reflexivity | intros H; injection H; auto].
Qed.

Lemma token_eqb_refl (a : Jwt.token) : Jwt.token_eqb a a = true.
Proof. now apply token_eqb_eq. Qed.

Lemma token_eqb_neq (a b : Jwt.token) : a <> b -> Jwt.token_eqb a b = false.
Proof.
  intro H. destruct (Jwt.token_eqb a b) eqn:E; [|reflexivity].
  apply token_eqb_eq in E. contradiction.
Qed.

Lemma stored_some_exists t w row :
  stored t w = Some row ->
  existsb (Prisma.has_token t) (refreshTokens w) = true.
Proof.
  unfold stored. intro H. apply find_some in H.
  apply existsb_exists. exists row. exact H.
Qed.

Lemma stored_some_token t w row : stored t w = Some row -> token row = t.
Proof.
  unfold stored. intro H. apply find_some in H. destruct H as [_ H].
  now apply token_eqb_eq.
Qed.

Lemma stored_none_exists t w :
  stored t w = None ->
  existsb (Prisma.has_token t) (refreshTokens w) = false.
Proof.
  unfold stored. intro H.
  destruct (existsb _ _) eqn:E; [|reflexivity].
  apply existsb_exists in E. destruct E as [r [Hin Hr]].
  now rewrite (find_none _ _ H r Hin) in Hr.
Qed.

Lemma find_without t rows : find (Prisma.has_token t) (without t rows) = None.
Proof.
  unfold without. induction rows as [|r rows IH]; simpl; [reflexivity|].
  destruct (Prisma.has_token t r) eqn:E; simpl; [exact IH|].
  now rewrite E.
Qed.

Lemma find_without_other t t' rows :
  t <> t' ->
  find (Prisma.has_token t') (without t rows) = find (Prisma.has_token t') rows.
Proof.
  intro Hne. unfold without.
  induction rows as [|r rows IH]; simpl; [reflexivity|].
  destruct (Prisma.has_token t r) eqn:E; simpl.
  - unfold Prisma.has_token in *. apply token_eqb_eq in E.
    rewrite E, (token_eqb_neq _ _ Hne). exact IH.
  - destruct (Prisma.has_token t' r); [reflexivity | exact IH].
Qed.

Lemma find_app_none {A} (f : A -> bool) l l' :
  find f l = None -> find f (l ++ l') = find f l'.
Proof.
  induction l as [|x l IH]; simpl; [reflexivity|].
  destruct (f x); [discriminate | exact IH].
Qed.

Lemma find_append {A} (f : A -> bool) l l' :
  find f (l ++ l')
  = match find f l with Some x => Some x | None => find f l' end.
Proof.
  induction l as [|x l IH]; simpl; [reflexivity|].
  destruct (f x); [reflexivity | exact IH].
Qed.

Lemma existsb_find_none {A} (f : A -> bool) l :
  find f l = None -> existsb f l = false.
Proof.
  induction l as [|x l IH]; simpl; [reflexivity|].
  destruct (f x); [discriminate | exact IH].
Qed.

(** ** Running the Prisma calls *)

Lemma findUnique_run t w :
  available RefreshToken_findUnique w = true ->
  Prisma.refreshToken_findUnique t w = (Return (stored t w), w).
Proof.
  intro H. unfold Prisma.refreshToken_findUnique, Prisma.call.
  now rewrite H.
Qed.

Lemma delete_run_present t w :
  available RefreshToken_delete w = true ->
  existsb (Prisma.has_token t) (refreshTokens w) = true ->
  Auth.removeRefreshToken t w
  = (Return tt, set_refreshTokens (without t (refreshTokens w)) w).
Proof.
  intros Ha He.
  unfold Auth.removeRefreshToken, Prisma.refreshToken_delete, Prisma.call.
  now rewrite Ha, He.
Qed.

Lemma delete_run_absent t w :
  available RefreshToken_delete w = true ->
  existsb (Prisma.has_token t) (refreshTokens w) = false ->
  Auth.removeRefreshToken t w = (Throw Prisma.RecordNotFound, w).
Proof.
  intros Ha He.
  unfold Auth.removeRefreshToken, Prisma.refreshToken_delete, Prisma.call.
  now rewrite Ha, He.
Qed.

Lemma delete_run_outage t w :
  available RefreshToken_delete w = false ->
  Auth.removeRefreshToken t w
  = (Throw Prisma.PrismaClientInitializationError, w).
Proof.
  intros Ha.
  unfold Auth.removeRefreshToken, Prisma.refreshToken_delete, Prisma.call.
  now rewrite Ha.
Qed.

(** The expiry of a row stored now: seven days from now when the zone
    keeps its offset, and within two days of that in any zone. *)
Lemma LocalTZA_bounds w t b :
  - msPerDay < LocalTZA w t b < msPerDay.
Proof. unfold LocalTZA, msPerDay. lia. Qed.

Lemma expiry_offsets w :
  Auth.expiry w
  = clock w + Auth.seven_days_ms
    + (LocalTZA w (clock w) true
       - LocalTZA w (clock w + LocalTZA w (clock w) true
                     + Auth.seven_days_ms) false).
Proof.
  unfold Auth.expiry, plus_days, Auth.seven_days_ms, msPerDay.
  cbv zeta.
  replace (clock w + LocalTZA w (clock w) true + 7 * 86400000)
    with (clock w + LocalTZA w (clock w) true + 7 * 24 * 60 * 60 * 1000)
    by lia.
  lia.
Qed.

Lemma expiry_bounds w :
  clock w + 5 * msPerDay < Auth.expiry w < clock w + 9 * msPerDay.
Proof.
  rewrite expiry_offsets.
  pose proof (LocalTZA_bounds w (clock w) true).
  pose proof (LocalTZA_bounds w (clock w + LocalTZA w (clock w) true
                                 + Auth.seven_days_ms) false).
  unfold Auth.seven_days_ms, msPerDay in *. lia.
Qed.

Lemma expiry_fixed_offset w :
  LocalTZA w (clock w + LocalTZA w (clock w) true + Auth.seven_days_ms) false
  = LocalTZA w (clock w) true ->
  Auth.expiry w = clock w + Auth.seven_days_ms.
Proof. intro H. rewrite expiry_offsets, H. lia. Qed.

Lemma store_run uid t w :
  available RefreshToken_create w = true ->
  existsb (Prisma.has_token t) (refreshTokens w) = false ->
  Auth.storeRefreshToken uid t w
  = (Return tt,
     set_refreshTokens
       (refreshTokens w ++
        [{| token := t; userId := uid;
            expiresAt := Auth.expiry w |}]) w).
Proof.
  intros Ha He.
  unfold Auth.storeRefreshToken, bind, new_Date, setDate_plus,
    Prisma.refreshToken_create, Prisma.call. cbn [token].
  fold (Auth.expiry w). now rewrite Ha, He.
Qed.

(** The three ways a validity check goes when the store answers. *)
Lemma isValid_absent t w :
  available RefreshToken_findUnique w = true ->
  stored t w = None ->
  Auth.isRefreshTokenValid t w = (Return false, w).
Proof.
  intros Ha Hs. unfold Auth.isRefreshTokenValid, bind.
  now rewrite (findUnique_run t w Ha), Hs.
Qed.

Lemma isValid_expired t w row :
  available RefreshToken_findUnique w = true ->
  available RefreshToken_delete w = true ->
  stored t w = Some row ->
  expiresAt row < clock w ->
  Auth.isRefreshTokenValid t w
  = (Return false, set_refreshTokens (without t (refreshTokens w)) w).
Proof.
  intros Ha Hd Hs Hlt. unfold Auth.isRefreshTokenValid, bind.
  rewrite (findUnique_run t w Ha), Hs. unfold new_Date.
  apply Z.ltb_lt in Hlt. rewrite Hlt.
  now rewrite (delete_run_present t w Hd (stored_some_exists _ _ _ Hs)).
Qed.

Lemma isValid_live t w row :
  available RefreshToken_findUnique w = true ->
  stored t w = Some row ->
  clock w <= expiresAt row ->
  Auth.isRefreshTokenValid t w = (Return true, w).
Proof.
  intros Ha Hs Hle. unfold Auth.isRefreshTokenValid, bind.
  rewrite (findUnique_run t w Ha), Hs. unfold new_Date.
  apply Z.ltb_ge in Hle. now rewrite Hle.
Qed.

(** ** The refresh-token store *)

(** C4, as stated, fails: removing a token value that has no row does not
    complete; Prisma's [delete] rejects with P2025 (record not found). *)
Lemma remove_absent_row_rejects :
  stored (Jwt.Text "never-issued") Scenario.fresh = None
  /\ Auth.removeRefreshToken (Jwt.Text "never-issued") Scenario.fresh
     = (Throw Prisma.RecordNotFound, Scenario.fresh)
  /\ fst (Auth.removeRefreshToken (Jwt.Text "never-issued") Scenario.fresh)
     <> Return tt.
Proof. repeat split. discriminate. Qed.

(** C4, amended: with the store reachable, [removeRefreshToken] deletes the
    row when one exists for the token value (no row for that value is left
    and the rows of other values stay untouched); when no row exists it
    rejects with Prisma's record-not-found error and leaves the store
    unchanged. *)
Theorem removeRefreshToken_deletes_or_rejects (t : Jwt.token) (w : world) :
  available RefreshToken_delete w = true ->
  (forall row, stored t w = Some row ->
     exists w',
       Auth.removeRefreshToken t w = (Return tt, w')
       /\ stored t w' = None
       /\ (forall t', t <> t' -> stored t' w' = stored t' w))
  /\ (stored t w = None ->
      Auth.removeRefreshToken t w = (Throw Prisma.RecordNotFound, w)).
Proof.
  intro Ha. split.
  - intros row Hs.
    exists (set_refreshTokens (without t (refreshTokens w)) w).
    split; [|split].
    + apply delete_run_present; [exact Ha | exact (stored_some_exists _ _ _ Hs)].
    + apply find_without.
    + intros t' Hne. unfold stored. simpl. now apply find_without_other.
  - intro Hs. apply delete_run_absent; [exact Ha | now apply stored_none_exists].
Qed.

Lemma removeRefreshToken_deletes_or_rejects_witness :
  exists w',
    Auth.removeRefreshToken Scenario.R1 Scenario.logged_in = (Return tt, w')
    /\ stored Scenario.R1 w' = None.
Proof.
  destruct (proj1 (removeRefreshToken_deletes_or_rejects
                     Scenario.R1 Scenario.logged_in eq_refl)
              {| token := Scenario.R1; userId := "u1";
                 expiresAt := 1500 + Auth.seven_days_ms |} eq_refl)
    as [w' [Hrun [Hgone _]]].
  exists w'. split; assumption.
Defined.

(** C5, as stated, fails at the boundary: a row whose [expiresAt] equals
    the current instant is still valid, and it is kept. *)
Lemma row_expiring_now_is_valid :
  stored Scenario.R1 Scenario.expiring_now
  = Some {| token := Scenario.R1; userId := "u1";
            expiresAt := clock Scenario.expiring_now |}
  /\ Auth.isRefreshTokenValid Scenario.R1 Scenario.expiring_now
     = (Return true, Scenario.expiring_now).
Proof. split; reflexivity. Qed.

(** C5, amended: with the store reachable, [isRefreshTokenValid] returns
    false when no row exists; when a row exists with [expiresAt < now] it
    deletes that row and returns false; when a row exists with
    [expiresAt >= now] it returns true and leaves the store unchanged. *)
Theorem isRefreshTokenValid_lazy_expiry (t : Jwt.token) (w : world) :
  available RefreshToken_findUnique w = true ->
  available RefreshToken_delete w = true ->
  (stored t w = None -> Auth.isRefreshTokenValid t w = (Return false, w))
  /\ (forall row, stored t w = Some row -> expiresAt row < clock w ->
        exists w',
          Auth.isRefreshTokenValid t w = (Return false, w')
          /\ stored t w' = None
          /\ (forall t', t <> t' -> stored t' w' = stored t' w))
  /\ (forall row, stored t w = Some row -> clock w <= expiresAt row ->
        Auth.isRefreshTokenValid t w = (Return true, w)).
Proof.
  intros Ha Hd. split; [|split].
  - now apply isValid_absent.
  - intros row Hs Hlt.
    exists (set_refreshTokens (without t (refreshTokens w)) w).
    split; [|split].
    + now apply isValid_expired with row.
    + apply find_without.
    + intros t' Hne. unfold stored. simpl. now apply find_without_other.
  - intros row Hs Hle. now apply isValid_live with row.
Qed.

Lemma isRefreshTokenValid_lazy_expiry_witness :
  Auth.isRefreshTokenValid Scenario.R1 Scenario.expiring_now
  = (Return true, Scenario.expiring_now).
Proof.
  refine (proj2 (proj2 (isRefreshTokenValid_lazy_expiry
            Scenario.R1 Scenario.expiring_now eq_refl eq_refl)) _ eq_refl _).
  simpl. lia.
Defined.

(** ** The token codec *)

Lemma generated_access_verifies_as_refresh e e' now now' uid :
  Auth.verifyRefreshToken e' now' (Auth.generateAccessToken e now uid)
  = inr (Auth.plain_Error "Invalid or expired refresh token").
Proof.
  unfold Auth.verifyRefreshToken, Auth.generateAccessToken, Jwt.sign,
    Jwt.verify. simpl.
  destruct (_ =? _)%string; [|reflexivity].
  destruct (_ >=? _); reflexivity.
Qed.

Lemma generated_refresh_verifies_as_access e e' now now' uid :
  Auth.verifyAccessToken e' now' (Auth.generateRefreshToken e now uid)
  = inr (Auth.plain_Error "Invalid or expired access token").
Proof.
  unfold Auth.verifyAccessToken, Auth.generateRefreshToken, Jwt.sign,
    Jwt.verify. simpl.
  destruct (_ =? _)%string; [|reflexivity].
  destruct (_ >=? _); reflexivity.
Qed.

(** C8: for every subject id, whatever the configured secrets and the
    instants of issuance and of verification, an access token never
    verifies as a refresh token and a refresh token never verifies as an
    access token; accordingly the refresh handler answers an access token
    with InvalidRefresh and the middleware answers a refresh token with
    INVALID_TOKEN. *)
Theorem token_classes_never_cross
    (e e' : process_env) (now now' : Z) (uid : string) (w : world) :
  Auth.verifyRefreshToken e' now' (Auth.generateAccessToken e now uid)
  = inr (Auth.plain_Error "Invalid or expired refresh token")
  /\ Auth.verifyAccessToken e' now' (Auth.generateRefreshToken e now uid)
     = inr (Auth.plain_Error "Invalid or expired access token")
  /\ AuthController.refreshToken
       (carrying (Auth.generateAccessToken e now uid)) w
     = (Return InvalidRefresh, w)
  /\ Middleware.authenticateToken
       (Some (Middleware.Bearer (Auth.generateRefreshToken e now uid))) w
     = (Return (Middleware.unauthorized "INVALID_TOKEN"
                  "Invalid or expired access token"), w).
Proof.
  split; [apply generated_access_verifies_as_refresh|].
  split; [apply generated_refresh_verifies_as_access|].
  split.
  - unfold AuthController.refreshToken, try_catch, bind, get_env, new_Date.
    simpl. now rewrite generated_access_verifies_as_refresh.
  - unfold Middleware.authenticateToken, try_catch, bind, get_env, new_Date.
    simpl. now rewrite generated_refresh_verifies_as_access.
Qed.

(** ** Access-token lifetime *)

(** The codec's verdict on an access token of this deployment, as a
    function of the two clock readings. *)
Lemma verify_generated_access e t0 t uid :
  Auth.verifyAccessToken e t (Auth.generateAccessToken e t0 uid)
  = if Jwt.clockTimestamp t >=? Jwt.clockTimestamp t0 + Auth.fifteen_minutes
    then inr (Auth.plain_Error "Invalid or expired access token")
    else inl {| Jwt.userId := uid; Jwt.type := "access";
                Jwt.iat := Jwt.clockTimestamp t0;
                Jwt.exp := Some (Jwt.clockTimestamp t0
                                 + Auth.fifteen_minutes) |}.
Proof.
  unfold Auth.verifyAccessToken, Auth.generateAccessToken, Jwt.sign,
    Jwt.verify. simpl.
  rewrite String.eqb_refl.
  destruct (_ >=? _); reflexivity.
Qed.

Lemma authenticate_invalid t w err :
  Jwt.is_empty t = false ->
  Auth.verifyAccessToken (env w) (clock w) t = inr err ->
  Middleware.authenticateToken (Some (Middleware.Bearer t)) w
  = (Return (Middleware.unauthorized "INVALID_TOKEN"
               "Invalid or expired access token"), w).
Proof.
  intros Hne Hv.
  unfold Middleware.authenticateToken, try_catch, bind, get_env, new_Date.
  now rewrite Hne, Hv.
Qed.

Lemma authenticate_verified t w decoded :
  Auth.verifyAccessToken (env w) (clock w) t = inl decoded ->
  available User_findUnique w = true ->
  Middleware.authenticateToken (Some (Middleware.Bearer t)) w
  = (Return
       match find (fun u => (id u =? Jwt.userId decoded)%string) (users w) with
       | None => Middleware.unauthorized "USER_NOT_FOUND"
                   "User associated with token no longer exists"
       | Some u => Middleware.Next (UserService.without_password u)
       end, w).
Proof.
  intros Hv Ha.
  assert (Hne : Jwt.is_empty t = false).
  { destruct t as [p k|s]; [reflexivity|].
    unfold Auth.verifyAccessToken in Hv. simpl in Hv.
    destruct (s =? "")%string; discriminate. }
  unfold Middleware.authenticateToken, try_catch, bind, get_env, new_Date.
  rewrite Hne, Hv. unfold Prisma.user_findUnique, Prisma.call.
  rewrite Ha. now destruct (find _ _).
Qed.

(** C9, as stated, fails: expiry is compared in whole seconds, so a token
    issued at 1.5 s is already rejected at 901.0 s, half a second before
    fifteen minutes have passed, although its subject exists; and a token
    checked at the very instant of its issuance is not accepted when its
    subject is not in the user table. *)
Lemma access_token_rejected_before_fifteen_minutes :
  901000 < 1500 + 15 * 60 * 1000
  /\ Auth.verifyAccessToken Scenario.defaults 901000 Scenario.A1
     = inr (Auth.plain_Error "Invalid or expired access token")
  /\ fst (Middleware.authenticateToken
            (Some (Middleware.Bearer Scenario.A1))
            (set_clock 901000 Scenario.fresh))
     = Return (Middleware.unauthorized "INVALID_TOKEN"
                 "Invalid or expired access token")
  /\ fst (Middleware.authenticateToken
            (Some (Middleware.Bearer
                     (Auth.generateAccessToken Scenario.defaults 1500 "u2")))
            Scenario.fresh)
     = Return (Middleware.unauthorized "USER_NOT_FOUND"
                 "User associated with token no longer exists").
Proof. split; [lia|]. repeat split. Qed.

(** C9, amended: an access token issued at clock reading [t0] (in
    milliseconds) is rejected by the codec check of authorize, with
    INVALID_TOKEN, at every check time [t >= t0 + 15 min]; the comparison
    is made in whole seconds with no tolerance, so the token is rejected
    exactly when [floor(t/1000) >= floor(t0/1000) + 900] and passes the
    check exactly when [floor(t/1000) < floor(t0/1000) + 900], in which
    case authorize admits the request if the subject exists. *)
Theorem access_token_expiry_boundary
    (w : world) (t0 : Z) (uid : string) (u : User) :
  let tok := Auth.generateAccessToken (env w) t0 uid in
  let rejected :=
    (Return (Middleware.unauthorized "INVALID_TOKEN"
               "Invalid or expired access token"), w) in
  (t0 + 15 * 60 * 1000 <= clock w ->
     Middleware.authenticateToken (Some (Middleware.Bearer tok)) w = rejected)
  /\ (Jwt.clockTimestamp t0 + 900 <= Jwt.clockTimestamp (clock w) ->
        Middleware.authenticateToken (Some (Middleware.Bearer tok)) w
        = rejected)
  /\ (Jwt.clockTimestamp (clock w) < Jwt.clockTimestamp t0 + 900 ->
        (exists decoded,
           Auth.verifyAccessToken (env w) (clock w) tok = inl decoded
           /\ Jwt.userId decoded = uid)
        /\ (available User_findUnique w = true ->
            find (fun u => (id u =? uid)%string) (users w) = Some u ->
            Middleware.authenticateToken (Some (Middleware.Bearer tok)) w
            = (Return (Middleware.Next (UserService.without_password u)),
               w))).
Proof.
  intros tok rejected.
  assert (Hrej : Jwt.clockTimestamp t0 + 900 <= Jwt.clockTimestamp (clock w) ->
                 Middleware.authenticateToken
                   (Some (Middleware.Bearer tok)) w = rejected).
  { intro H. apply authenticate_invalid
      with (err := Auth.plain_Error "Invalid or expired access token");
      [reflexivity|].
    unfold tok. rewrite verify_generated_access.
    unfold Auth.fifteen_minutes.
    rewrite Z.geb_leb. destruct (_ <=? _) eqn:E; [reflexivity|].
    apply Z.leb_gt in E. simpl in E. lia. }
  split; [|split; [exact Hrej|]].
  - intro H. apply Hrej. unfold Jwt.clockTimestamp.
    replace (clock w) with (clock w - 900000 + 900 * 1000) by lia.
    rewrite Z.div_add by lia.
    assert (t0 / 1000 <= (clock w - 900000) / 1000)
      by (apply Z.div_le_mono; lia).
    lia.
  - intro H.
    assert (Hv : Auth.verifyAccessToken (env w) (clock w) tok
                 = inl {| Jwt.userId := uid; Jwt.type := "access";
                          Jwt.iat := Jwt.clockTimestamp t0;
                          Jwt.exp := Some (Jwt.clockTimestamp t0
                                           + Auth.fifteen_minutes) |}).
    { unfold tok. rewrite verify_generated_access.
      unfold Auth.fifteen_minutes.
      rewrite Z.geb_leb. destruct (_ <=? _) eqn:E; [|reflexivity].
      apply Z.leb_le in E. simpl in E. lia. }
    split.
    + eexists. split; [exact Hv | reflexivity].
    + intros Ha Hu.
      rewrite (authenticate_verified _ _ _ Hv Ha). simpl. now rewrite Hu.
Qed.

Lemma access_token_expiry_boundary_witness :
  Middleware.authenticateToken
    (Some (Middleware.Bearer Scenario.A1)) Scenario.fresh
  = (Return (Middleware.Next (UserService.without_password Scenario.alice)),
     Scenario.fresh).
Proof.
  refine (proj2 (proj2 (proj2 (access_token_expiry_boundary
            Scenario.fresh 1500 "u1" Scenario.alice)) _) eq_refl eq_refl).
  vm_compute. reflexivity.
Defined.

(** ** The user lookup of the middleware *)

Lemma authenticate_never_admits_unknown t w decoded :
  Auth.verifyAccessToken (env w) (clock w) t = inl decoded ->
  find (fun u => (id u =? Jwt.userId decoded)%string) (users w) = None ->
  exists r, fst (Middleware.authenticateToken
                   (Some (Middleware.Bearer t)) w)
            = Return (Middleware.Responded r)
            /\ (status r = 401 \/ status r = 500).
Proof.
  intros Hv Hu.
  destruct (available User_findUnique w) eqn:Ha.
  - rewrite (authenticate_verified _ _ _ Hv Ha), Hu.
    eexists. split; [reflexivity | left; reflexivity].
  - assert (Hne : Jwt.is_empty t = false).
    { destruct t as [p k|s]; [reflexivity|].
      unfold Auth.verifyAccessToken in Hv. simpl in Hv.
      destruct (s =? "")%string; discriminate. }
    unfold Middleware.authenticateToken, try_catch, bind, get_env, new_Date.
    rewrite Hne, Hv. unfold Prisma.user_findUnique, Prisma.call.
    rewrite Ha. eexists. split; [reflexivity | right; reflexivity].
Qed.

(** C10: authorize is not a pure codec check.  For every access token that
    verifies (well-formed, rightly signed, unexpired) and whose subject is
    no longer in the user table, the middleware answers 401 USER_NOT_FOUND
    once the lookup has answered, and in no case calls [next()]. *)
Theorem authorize_rejects_deleted_subject
    (t : Jwt.token) (w : world) (decoded : Jwt.payload) :
  Auth.verifyAccessToken (env w) (clock w) t = inl decoded ->
  find (fun u => (id u =? Jwt.userId decoded)%string) (users w) = None ->
  (available User_findUnique w = true ->
   Middleware.authenticateToken (Some (Middleware.Bearer t)) w
   = (Return (Middleware.unauthorized "USER_NOT_FOUND"
                "User associated with token no longer exists"), w))
  /\ (forall u,
        fst (Middleware.authenticateToken (Some (Middleware.Bearer t)) w)
        <> Return (Middleware.Next u)).
Proof.
  intros Hv Hu. split.
  - intro Ha. now rewrite (authenticate_verified _ _ _ Hv Ha), Hu.
  - intros u Hnext.
    destruct (authenticate_never_admits_unknown _ _ _ Hv Hu) as [r [Hr _]].
    rewrite Hr in Hnext. discriminate.
Qed.

Lemma authorize_rejects_deleted_subject_witness :
  Middleware.authenticateToken
    (Some (Middleware.Bearer
             (Auth.generateAccessToken Scenario.defaults 1500 "u2")))
    Scenario.fresh
  = (Return (Middleware.unauthorized "USER_NOT_FOUND"
               "User associated with token no longer exists"),
     Scenario.fresh).
Proof.
  refine (proj1 (authorize_rejects_deleted_subject
            (Auth.generateAccessToken Scenario.defaults 1500 "u2")
            Scenario.fresh
            {| Jwt.userId := "u2"; Jwt.type := "access"; Jwt.iat := 1;
               Jwt.exp := Some 901 |} eq_refl eq_refl) eq_refl).
Defined.

(** ** The handlers of the session service *)

Lemma verifyRefreshToken_error e now t err :
  Auth.verifyRefreshToken e now t = inr err ->
  err = Auth.plain_Error "Invalid or expired refresh token".
Proof.
  unfold Auth.verifyRefreshToken.
  destruct (Jwt.verify _ _ _) as [d|x];
    [destruct (negb _)|]; intro H; now inversion H.
Qed.

Lemma verifyRefreshToken_nonempty e now t decoded :
  Auth.verifyRefreshToken e now t = inl decoded -> Jwt.is_empty t = false.
Proof.
  destruct t as [p k|s]; [reflexivity|].
  unfold Auth.verifyRefreshToken. simpl.
  destruct (s =? "")%string; discriminate.
Qed.

Lemma parse_carrying t :
  Jwt.is_empty t = false ->
  Schemas.refreshTokenSchema_parse (carrying t) = inl t.
Proof. intro H. unfold Schemas.refreshTokenSchema_parse. simpl. now rewrite H. Qed.

(** A refresh with a token value that has no row is answered
    InvalidRefresh and writes nothing. *)
Lemma refresh_absent t w :
  Jwt.is_empty t = false ->
  available RefreshToken_findUnique w = true ->
  stored t w = None ->
  AuthController.refreshToken (carrying t) w = (Return InvalidRefresh, w).
Proof.
  intros Hne Ha Hs.
  unfold AuthController.refreshToken, try_catch, bind at 1.
  rewrite (parse_carrying t Hne). simpl.
  unfold bind at 1. unfold get_env at 1. unfold bind at 1.
  unfold new_Date at 1. unfold bind at 1.
  destruct (Auth.verifyRefreshToken (env w) (clock w) t) as [d|err] eqn:Hv.
  - simpl. unfold bind at 1. now rewrite (isValid_absent t w Ha Hs).
  - apply verifyRefreshToken_error in Hv. subst err. reflexivity.
Qed.

(** A refresh with a live token whose successor is not yet in the table
    rotates: the old row goes, the new row is appended, nothing else
    changes. *)
Lemma refresh_rotates t w decoded row :
  Auth.verifyRefreshToken (env w) (clock w) t = inl decoded ->
  stored t w = Some row ->
  clock w <= expiresAt row ->
  available RefreshToken_findUnique w = true ->
  available RefreshToken_delete w = true ->
  available RefreshToken_create w = true ->
  stored (Auth.generateRefreshToken (env w) (clock w) (Jwt.userId decoded)) w
  = None ->
  AuthController.refreshToken (carrying t) w
  = (Return
       {| status := 200;
          body :=
            TokenBody
              (Auth.generateAccessToken (env w) (clock w) (Jwt.userId decoded))
              (Auth.generateRefreshToken (env w) (clock w)
                 (Jwt.userId decoded)) |},
     set_refreshTokens
       (without t (refreshTokens w) ++
        [{| token := Auth.generateRefreshToken (env w) (clock w)
                       (Jwt.userId decoded);
            userId := Jwt.userId decoded;
            expiresAt := Auth.expiry w |}]) w).
Proof.
  intros Hv Hs Hle Hf Hd Hc Hnew.
  set (newR := Auth.generateRefreshToken (env w) (clock w)
                 (Jwt.userId decoded)) in *.
  assert (Hne : t <> newR).
  { intro E. rewrite <- E in Hnew. congruence. }
  unfold AuthController.refreshToken, try_catch, bind at 1.
  rewrite (parse_carrying t (verifyRefreshToken_nonempty _ _ _ _ Hv)). simpl.
  unfold bind at 1. unfold get_env at 1. unfold bind at 1.
  unfold new_Date at 1. unfold bind at 1. rewrite Hv. simpl.
  unfold bind at 1. rewrite (isValid_live t w row Hf Hs Hle). simpl.
  unfold bind at 1. unfold new_Date at 1. unfold bind at 1.
  rewrite (delete_run_present t w Hd (stored_some_exists _ _ _ Hs)).
  unfold bind at 1.
  rewrite store_run; [reflexivity | exact Hc |].
  simpl. apply existsb_find_none.
  rewrite (find_without_other t newR _ Hne). exact Hnew.
Qed.

Lemma stored_after_rotation t newR uid expires rows w :
  t <> newR ->
  stored t (set_refreshTokens
              (without t rows ++
               [{| token := newR; userId := uid; expiresAt := expires |}]) w)
  = None.
Proof.
  intro Hne. unfold stored. simpl.
  rewrite find_app_none by apply find_without.
  simpl. unfold Prisma.has_token. simpl.
  rewrite token_eqb_neq; [reflexivity | congruence].
Qed.

(** Logout of a schema-valid token reports success whatever the store
    does. *)
Lemma logout_succeeds t w :
  Jwt.is_empty t = false ->
  fst (AuthController.logout (carrying t) w) = Return LoggedOut.
Proof.
  intro Hne. unfold AuthController.logout, try_catch, bind at 1.
  rewrite (parse_carrying t Hne). simpl. unfold bind.
  unfold Auth.removeRefreshToken, Prisma.refreshToken_delete, Prisma.call.
  destruct (available RefreshToken_delete w); [|reflexivity].
  destruct (existsb _ _); reflexivity.
Qed.

Lemma logout_run t w :
  Jwt.is_empty t = false ->
  available RefreshToken_delete w = true ->
  AuthController.logout (carrying t) w
  = (Return LoggedOut,
     match stored t w with
     | Some _ => set_refreshTokens (without t (refreshTokens w)) w
     | None => w
     end).
Proof.
  intros Hne Ha. unfold AuthController.logout, try_catch, bind at 1.
  rewrite (parse_carrying t Hne). simpl. unfold bind.
  destruct (stored t w) as [row|] eqn:Hs.
  - now rewrite (delete_run_present t w Ha (stored_some_exists _ _ _ Hs)).
  - now rewrite (delete_run_absent t w Ha (stored_none_exists _ _ Hs)).
Qed.

Lemma logout_removes t w :
  Jwt.is_empty t = false ->
  available RefreshToken_delete w = true ->
  stored t (snd (AuthController.logout (carrying t) w)) = None
  /\ outage (snd (AuthController.logout (carrying t) w)) = outage w.
Proof.
  intros Hne Ha. rewrite (logout_run t w Hne Ha). simpl.
  destruct (stored t w) as [row|] eqn:Hs.
  - split; [apply find_without | reflexivity].
  - split; [exact Hs | reflexivity].
Qed.

Lemma logout_invalid_body req w err :
  Schemas.refreshTokenSchema_parse req = inr err ->
  AuthController.logout req w = (Return ValidationError, w).
Proof.
  intro Hp. unfold AuthController.logout, try_catch, bind at 1.
  rewrite Hp. simpl.
  unfold Schemas.refreshTokenSchema_parse in Hp.
  destruct (Schemas.refreshToken_field req) as [t|];
    [destruct (Jwt.is_empty t)|]; inversion Hp; reflexivity.
Qed.

(** ** Rotation *)

(** Where the successor token differs from every stored value, refresh
    does what rotation promises: it answers with the new pair, the old
    value is no longer valid, and presenting it again, at any later time,
    is answered InvalidRefresh. *)
Lemma rotation_when_successor_is_fresh t w decoded row later :
  Auth.verifyRefreshToken (env w) (clock w) t = inl decoded ->
  stored t w = Some row ->
  clock w <= expiresAt row ->
  available RefreshToken_findUnique w = true ->
  available RefreshToken_delete w = true ->
  available RefreshToken_create w = true ->
  stored (Auth.generateRefreshToken (env w) (clock w) (Jwt.userId decoded)) w
  = None ->
  let done := AuthController.refreshToken (carrying t) w in
  fst done
  = Return {| status := 200;
              body :=
                TokenBody
                  (Auth.generateAccessToken (env w) (clock w)
                     (Jwt.userId decoded))
                  (Auth.generateRefreshToken (env w) (clock w)
                     (Jwt.userId decoded)) |}
  /\ Auth.isRefreshTokenValid t (snd done) = (Return false, snd done)
  /\ AuthController.refreshToken (carrying t) (set_clock later (snd done))
     = (Return InvalidRefresh, set_clock later (snd done)).
Proof.
  intros Hv Hs Hle Hf Hd Hc Hnew done.
  assert (Hne : t <> Auth.generateRefreshToken (env w) (clock w)
                       (Jwt.userId decoded)).
  { intro E. rewrite <- E in Hnew. congruence. }
  unfold done. rewrite (refresh_rotates t w decoded row Hv Hs Hle Hf Hd Hc Hnew).
  cbn [fst snd]. split; [reflexivity|]. split.
  - apply isValid_absent; [exact Hf | now apply stored_after_rotation].
  - apply refresh_absent.
    + exact (verifyRefreshToken_nonempty _ _ _ _ Hv).
    + exact Hf.
    + change (stored t (set_clock later ?x)) with (stored t x).
      now apply stored_after_rotation.
Qed.

(** Where the successor token is the presented token itself, which is
    the case within the second of its issuance, the row deleted by the
    rotation is inserted again and the token is handed back. *)
Lemma refresh_within_issuing_second t w decoded row :
  Auth.verifyRefreshToken (env w) (clock w) t = inl decoded ->
  stored t w = Some row ->
  clock w <= expiresAt row ->
  available RefreshToken_findUnique w = true ->
  available RefreshToken_delete w = true ->
  available RefreshToken_create w = true ->
  Auth.generateRefreshToken (env w) (clock w) (Jwt.userId decoded) = t ->
  let done := AuthController.refreshToken (carrying t) w in
  fst done
  = Return {| status := 200;
              body :=
                TokenBody
                  (Auth.generateAccessToken (env w) (clock w)
                     (Jwt.userId decoded)) t |}
  /\ Auth.isRefreshTokenValid t (snd done) = (Return true, snd done).
Proof.
  intros Hv Hs Hle Hf Hd Hc Hsame done.
  assert (Hrun : done
                 = (Return
                      {| status := 200;
                         body :=
                           TokenBody
                             (Auth.generateAccessToken (env w) (clock w)
                                (Jwt.userId decoded)) t |},
                    set_refreshTokens
                      (without t (refreshTokens w) ++
                       [{| token := t; userId := Jwt.userId decoded;
                           expiresAt := Auth.expiry w |}]) w)).
  { unfold done, AuthController.refreshToken, try_catch, bind at 1.
    rewrite (parse_carrying t (verifyRefreshToken_nonempty _ _ _ _ Hv)). simpl.
    unfold bind at 1. unfold get_env at 1. unfold bind at 1.
    unfold new_Date at 1. unfold bind at 1. rewrite Hv. simpl.
    unfold bind at 1. rewrite (isValid_live t w row Hf Hs Hle). simpl.
    unfold bind at 1. unfold new_Date at 1. unfold bind at 1.
    rewrite (delete_run_present t w Hd (stored_some_exists _ _ _ Hs)).
    unfold bind at 1. rewrite Hsame.
    rewrite store_run; [reflexivity | exact Hc |].
    simpl. apply existsb_find_none. apply find_without. }
  rewrite Hrun. cbn [fst snd]. split; [reflexivity|].
  apply isValid_live
    with (row := {| token := t; userId := Jwt.userId decoded;
                    expiresAt := Auth.expiry w |}).
  - exact Hf.
  - unfold stored. simpl. rewrite find_app_none by apply find_without.
    simpl. unfold Prisma.has_token. simpl. now rewrite token_eqb_refl.
  - cbn [clock set_refreshTokens expiresAt].
    pose proof (expiry_bounds w). unfold msPerDay in *. lia.
Qed.

(** C1 at its failing input: a login at 1.5 s hands out the refresh token
    [R1]; a refresh with [R1] at 1.999 s, still within the second of
    issuance, signs the same payload again, so the token it returns is
    [R1] itself, the row deleted by the rotation is inserted again, [R1]
    is still valid afterwards, and a second refresh with [R1] succeeds
    instead of failing with InvalidRefresh. *)
Theorem refresh_within_issuing_second_keeps_token :
  let w1 := set_clock 1999 Scenario.logged_in in
  let first := AuthController.refreshToken (carrying Scenario.R1) w1 in
  let second := AuthController.refreshToken (carrying Scenario.R1) (snd first) in
  fst (AuthController.login Scenario.credentials Scenario.fresh)
  = Return {| status := 200;
              body := AuthBody (UserService.without_password Scenario.alice)
                        Scenario.A1 Scenario.R1 |}
  /\ Auth.isRefreshTokenValid Scenario.R1 w1 = (Return true, w1)
  /\ fst first
     = Return {| status := 200; body := TokenBody Scenario.A1 Scenario.R1 |}
  /\ Auth.isRefreshTokenValid Scenario.R1 (snd first)
     = (Return true, snd first)
  /\ fst second
     = Return {| status := 200; body := TokenBody Scenario.A1 Scenario.R1 |}
  /\ fst second <> Return InvalidRefresh.
Proof.
  cbv zeta. repeat split; try (vm_compute; reflexivity).
  vm_compute. discriminate.
Qed.

(** ** Logout *)

(** C3, as stated, fails on an input that does not pass the schema: logout
    with an empty token, or with no token at all, is answered 400
    VALIDATION_ERROR, and so is the refresh that follows. *)
Lemma logout_rejects_invalid_body :
  AuthController.logout (carrying (Jwt.Text "")) Scenario.logged_in
  = (Return ValidationError, Scenario.logged_in)
  /\ AuthController.logout
       {| Schemas.refreshToken_field := None |} Scenario.logged_in
     = (Return ValidationError, Scenario.logged_in)
  /\ status ValidationError = 400
  /\ ValidationError <> LoggedOut
  /\ AuthController.refreshToken (carrying (Jwt.Text "")) Scenario.logged_in
     = (Return ValidationError, Scenario.logged_in)
  /\ ValidationError <> InvalidRefresh.
Proof. repeat split; try reflexivity; discriminate. Qed.

(** C3, amended: for every token value that passes the schema (a
    non-empty string), be it valid, expired, malformed or already
    consumed, logout returns the success response; with the store
    reachable, its row is gone afterwards and a subsequent refresh with
    the same value, at any time, fails with InvalidRefresh.  A body that
    fails the schema is answered 400 VALIDATION_ERROR and nothing is
    written. *)
Theorem logout_then_refresh_fails
    (req : Schemas.RefreshTokenRequest) (w : world) (later : Z) :
  (forall t, Schemas.refreshTokenSchema_parse req = inl t ->
     fst (AuthController.logout req w) = Return LoggedOut
     /\ (available RefreshToken_delete w = true ->
         available RefreshToken_findUnique w = true ->
         let w1 := set_clock later (snd (AuthController.logout req w)) in
         stored t w1 = None
         /\ AuthController.refreshToken req w1 = (Return InvalidRefresh, w1)))
  /\ (forall err, Schemas.refreshTokenSchema_parse req = inr err ->
        AuthController.logout req w = (Return ValidationError, w)).
Proof.
  split.
  - intros t Hp.
    assert (Hreq : req = carrying t /\ Jwt.is_empty t = false).
    { destruct req as [[t0|]]; unfold Schemas.refreshTokenSchema_parse in Hp;
        simpl in Hp; [|discriminate].
      destruct (Jwt.is_empty t0) eqn:E; [discriminate|].
      injection Hp as ->. split; [reflexivity | exact E]. }
    destruct Hreq as [-> Hne]. split; [now apply logout_succeeds|].
    intros Hd Hf w1.
    destruct (logout_removes t w Hne Hd) as [Hgone Hout].
    assert (Hs : stored t w1 = None) by exact Hgone.
    split; [exact Hs|].
    apply refresh_absent; [exact Hne | | exact Hs].
    unfold available, w1 in *. simpl. now rewrite Hout.
  - intros err Hp. now apply logout_invalid_body with err.
Qed.

Lemma logout_then_refresh_fails_witness :
  let w1 := set_clock 5000
              (snd (AuthController.logout (carrying Scenario.R1)
                      Scenario.logged_in)) in
  fst (AuthController.logout (carrying Scenario.R1) Scenario.logged_in)
  = Return LoggedOut
  /\ AuthController.refreshToken (carrying Scenario.R1) w1
     = (Return InvalidRefresh, w1).
Proof.
  destruct (proj1 (logout_then_refresh_fails
                     (carrying Scenario.R1) Scenario.logged_in 5000)
              Scenario.R1 eq_refl) as [Hout Hnext].
  split; [exact Hout|].
  exact (proj2 (Hnext eq_refl eq_refl)).
Defined.

(** ** Housekeeping during login *)

Lemma cleanup_run uid w :
  available RefreshToken_deleteMany w = true ->
  exists w', Auth.cleanupExpiredTokens uid w = (Return tt, w').
Proof.
  intro Ha. unfold Auth.cleanupExpiredTokens, bind, new_Date,
    Prisma.refreshToken_deleteMany, Prisma.call.
  rewrite Ha. eexists. reflexivity.
Qed.

Lemma cleanup_outage uid w :
  available RefreshToken_deleteMany w = false ->
  Auth.cleanupExpiredTokens uid w
  = (Throw Prisma.PrismaClientInitializationError, w).
Proof.
  intro Ha. unfold Auth.cleanupExpiredTokens, bind, new_Date,
    Prisma.refreshToken_deleteMany, Prisma.call.
  now rewrite Ha.
Qed.


(** C6, as stated, fails: with the housekeeping query failing, a login
    with the right credentials is answered 500 INTERNAL_SERVER_ERROR,
    although the new refresh token has been stored. *)
Lemma login_fails_when_housekeeping_fails :
  available RefreshToken_deleteMany Scenario.no_housekeeping = false
  /\ fst (AuthController.login Scenario.credentials Scenario.no_housekeeping)
     = Return (AuthController.InternalServerError
                 "An unexpected error occurred during login")
  /\ stored Scenario.R1
       (snd (AuthController.login Scenario.credentials
               Scenario.no_housekeeping))
     = Some {| token := Scenario.R1; userId := "u1";
               expiresAt := 1500 + Auth.seven_days_ms |}.
Proof. repeat split. Qed.

(** C6, amended: the housekeeping call of login is awaited inside the
    handler's [try] block.  For a login whose credentials match and whose
    refresh token has been stored, a failing housekeeping call makes the
    handler answer 500 INTERNAL_SERVER_ERROR (the stored token stays),
    and only a housekeeping call that succeeds lets the success payload
    through.  The refresh handler makes no housekeeping call: it rotates
    whether or not the housekeeping query is available, and it leaves the
    other rows of the subject, expired or not, in place. *)
Theorem login_awaits_housekeeping
    (w : world) (mail pw : string) (u : UserService.UserWithoutPassword) :
  let A := Auth.generateAccessToken (env w) (clock w) (UserService.pub_id u) in
  let R := Auth.generateRefreshToken (env w) (clock w) (UserService.pub_id u) in
  let row := {| token := R; userId := UserService.pub_id u;
                expiresAt := Auth.expiry w |} in
  (UserService.authenticateUser mail pw w = (Return (Some u), w) ->
   available RefreshToken_create w = true ->
   stored R w = None ->
   (available RefreshToken_deleteMany w = false ->
      AuthController.login (Schemas.WellFormed mail pw) w
      = (Return (AuthController.InternalServerError
                   "An unexpected error occurred during login"),
         set_refreshTokens (refreshTokens w ++ [row]) w))
   /\ (available RefreshToken_deleteMany w = true ->
       fst (AuthController.login (Schemas.WellFormed mail pw) w)
       = Return {| status := 200; body := AuthBody u A R |}))
  /\ (forall t decoded old,
        Auth.verifyRefreshToken (env w) (clock w) t = inl decoded ->
        stored t w = Some old ->
        clock w <= expiresAt old ->
        available RefreshToken_findUnique w = true ->
        available RefreshToken_delete w = true ->
        available RefreshToken_create w = true ->
        stored (Auth.generateRefreshToken (env w) (clock w)
                  (Jwt.userId decoded)) w = None ->
        exists r w',
          AuthController.refreshToken (carrying t) w = (Return r, w')
          /\ status r = 200
          /\ (forall t', t' <> t ->
                t' <> Auth.generateRefreshToken (env w) (clock w)
                        (Jwt.userId decoded) ->
                stored t' w' = stored t' w)).
Proof.
  intros A R row. split.
  - intros Hauth Hc Hs.
    assert (Hstore := store_run (UserService.pub_id u) R w Hc
                        (stored_none_exists _ _ Hs)).
    fold row in Hstore.
    split; intro Hm.
    + unfold AuthController.login, try_catch, bind at 1. simpl.
      unfold bind at 1. rewrite Hauth.
      unfold bind at 1. unfold get_env at 1. unfold bind at 1.
      unfold new_Date at 1. unfold bind at 1. fold R. rewrite Hstore.
      unfold bind at 1. rewrite cleanup_outage by exact Hm. reflexivity.
    + unfold AuthController.login, try_catch, bind at 1. simpl.
      unfold bind at 1. rewrite Hauth.
      unfold bind at 1. unfold get_env at 1. unfold bind at 1.
      unfold new_Date at 1. unfold bind at 1. fold R. rewrite Hstore.
      unfold bind at 1.
      destruct (cleanup_run (UserService.pub_id u)
                  (set_refreshTokens (refreshTokens w ++ [row]) w) Hm)
        as [w' Hw'].
      rewrite Hw'. reflexivity.
  - intros t decoded old Hv Hs Hle Hf Hd Hc Hnew.
    rewrite (refresh_rotates t w decoded old Hv Hs Hle Hf Hd Hc Hnew).
    eexists. eexists. split; [reflexivity|]. split; [reflexivity|].
    intros t' Hne Hne'. unfold stored. simpl.
    rewrite find_append.
    rewrite (find_without_other t t') by congruence.
    destruct (find (Prisma.has_token t') (refreshTokens w)); [reflexivity|].
    cbn [find]. unfold Prisma.has_token. cbn [token].
    rewrite token_eqb_neq; [reflexivity | congruence].
Qed.

Lemma login_awaits_housekeeping_witness :
  AuthController.login Scenario.credentials Scenario.no_housekeeping
  = (Return (AuthController.InternalServerError
               "An unexpected error occurred during login"),
     set_refreshTokens
       [{| token := Scenario.R1; userId := "u1";
           expiresAt := 1500 + Auth.seven_days_ms |}]
       Scenario.no_housekeeping).
Proof.
  exact (proj1 (proj1 (login_awaits_housekeeping Scenario.no_housekeeping
                         "alice@example.com" "Secret123!"
                         (UserService.without_password Scenario.alice))
                  eq_refl eq_refl eq_refl) eq_refl).
Defined.

(** * Properties of the client side *)

Import Client.

(** ** Suspended interceptors *)

Lemma settled_suspend wt a p : settled (suspend wt a) p = settled a p.
Proof. reflexivity. Qed.

Lemma fold_wake_pending (l : list waiter) :
  forall acc,
    (forall wt, In wt l -> settled acc (promise wt) = None) ->
    fold_left wake l acc = set_suspended (suspended acc ++ l) acc.
Proof.
  induction l as [|wt l IH]; intros acc Hp; simpl.
  - rewrite app_nil_r. now destruct acc.
  - unfold wake at 2. rewrite (Hp wt (or_introl eq_refl)).
    rewrite IH.
    + unfold suspend, set_suspended. simpl. now rewrite <- app_assoc.
    + intros wt' Hin. rewrite settled_suspend. apply Hp. now right.
Qed.

(** While the awaited promises are pending, the end of a task wakes
    nobody. *)
Lemma drain_pending a :
  (forall wt, In wt (suspended a) -> settled a (promise wt) = None) ->
  drain a = a.
Proof.
  intro Hp. unfold drain. rewrite fold_wake_pending.
  - now destruct a.
  - exact Hp.
Qed.

Lemma in_flight_pending p a :
  in_flight p a ->
  forall wt, In wt (suspended a) -> settled a (promise wt) = None.
Proof.
  intros [_ [Hn Hw]] wt Hin. unfold settled. now rewrite (Hw wt Hin), Hn.
Qed.

(** A 401 met while a refresh is in flight starts nothing: its interceptor
    joins the waiters of the pending promise. *)
Lemma step_joins p a x :
  in_flight p a ->
  _retry (snd x) = false ->
  step a (unauthorized x) = suspend (sharer p x) a
  /\ in_flight p (suspend (sharer p x) a).
Proof.
  intros Hf Hr.
  assert (Hf' : in_flight p (suspend (sharer p x) a)).
  { destruct Hf as [Hm [Hn Hw]]. repeat split; try assumption.
    intros wt Hin. simpl in Hin. apply in_app_or in Hin.
    destruct Hin as [Hin|[<-|[]]]; [now apply Hw | reflexivity]. }
  split; [|exact Hf'].
  unfold step, handle, unauthorized, response_error. rewrite Hr. simpl.
  unfold refreshAccessToken. destruct Hf as [Hm _]. rewrite Hm.
  apply drain_pending. now apply in_flight_pending with p.
Qed.

Lemma run_joins p (xs : list (nat * config)) :
  forall a,
    in_flight p a ->
    (forall x, In x xs -> _retry (snd x) = false) ->
    run (map unauthorized xs) a
    = set_suspended (suspended a ++ map (sharer p) xs) a.
Proof.
  induction xs as [|x xs IH]; intros a Hf Hr; simpl.
  - rewrite app_nil_r. now destruct a.
  - destruct (step_joins p a x Hf (Hr x (or_introl eq_refl))) as [Hs Hf'].
    unfold run in *. rewrite Hs, IH.
    + unfold suspend, set_suspended. simpl. now rewrite <- app_assoc.
    + exact Hf'.
    + intros y Hy. apply Hr. now right.
Qed.

Lemma run_cons ev evs a : run (ev :: evs) a = run evs (step a ev).
Proof. reflexivity. Qed.

Lemma nth_error_end {A} (l : list A) (x : A) :
  nth_error (l ++ [x]) (List.length l) = Some x.
Proof. induction l as [|y l IH]; simpl; [reflexivity | exact IH]. Qed.



(** ** Waking the waiters *)



(** The second a cookie expires in. *)
Lemma toUTCString_bounds t : t - 1000 < toUTCString t <= t.
Proof.
  unfold toUTCString.
  pose proof (Z.div_mod t 1000 ltac:(lia)).
  pose proof (Z.mod_pos_bound t 1000 ltac:(lia)).
  lia.
Qed.

Lemma toUTCString_mono s t : s <= t -> toUTCString s <= toUTCString t.
Proof.
  intro H. unfold toUTCString.
  apply Z.mul_le_mono_nonneg_r; [lia|]. apply Z.div_le_mono; lia.
Qed.


Lemma fresh_refresh_cookie t : (t <? toUTCString (t + 7 * day)) = true.
Proof.
  apply Z.ltb_lt. pose proof (toUTCString_bounds (t + 7 * day)).
  unfold day in *. lia.
Qed.


(** ** While a refresh is in flight *)







(** ** Single-flight refresh *)




(** Without a stored refresh token nothing is sent: the promise is
    rejected at once and the caller fails within its own task. *)
Lemma step_without_refresh_token a x :
  refreshPromise a = None ->
  suspended a = [] ->
  getRefreshToken (now a) (cookies a) = None ->
  _retry (snd x) = false ->
  let a' := step a (unauthorized x) in
  posts a' = posts a
  /\ refreshPromise a' = None
  /\ finished a' = (finished a ++ [(fst x, Failed no_refresh_token)])%list
  /\ cookies a' = clearTokens (cookies a).
Proof.
  intros Hm Hs Hrt Hr.
  unfold step, handle, unauthorized, response_error. rewrite Hr. simpl.
  unfold refreshAccessToken, performTokenRefresh. rewrite Hm, Hrt.
  unfold drain. fields. rewrite Hs. simpl.
  unfold wake, settled. fields. cbn [promise].
  rewrite nth_error_end. unfold resume. cbn [owner request].
  fields. repeat split.
Qed.

(** ** The stored pair *)

Lemma storage_ok_cookies a b :
  cookies b = cookies a \/ cookies b = clearTokens (cookies a) ->
  storage_ok a -> storage_ok b.
Proof.
  intros [H|H] Hok ca; rewrite H; [apply Hok | discriminate].
Qed.

Lemma storage_ok_setTokens a b access refresh :
  cookies b = setTokens (now a) access refresh (cookies a) ->
  refresh <> ""%string ->
  storage_ok b.
Proof.
  intros H Hne ca. rewrite H. unfold setTokens. cbn [accessToken refreshToken].
  intro E. injection E as <-.
  eexists. split; [reflexivity|]. cbn [expires value]. split; [|exact Hne].
  apply toUTCString_mono. change (day / 96) with 900000. unfold day. lia.
Qed.

Lemma wake_cookies a wt :
  cookies (wake a wt) = cookies a
  \/ cookies (wake a wt) = clearTokens (cookies a).
Proof.
  unfold wake. destruct (settled a (promise wt)) as [[tok|e]|];
    unfold resume; destruct (owner wt); simpl; auto.
Qed.

Lemma storage_ok_fold_wake l :
  forall a, storage_ok a -> storage_ok (fold_left wake l a).
Proof.
  induction l as [|wt l IH]; intros a Hok; simpl; [exact Hok|].
  apply IH. exact (storage_ok_cookies a _ (wake_cookies a wt) Hok).
Qed.

Lemma storage_ok_drain a : storage_ok a -> storage_ok (drain a).
Proof.
  intro Hok. unfold drain. apply storage_ok_fold_wake.
  now apply (storage_ok_cookies a); [left|].
Qed.

Lemma storage_ok_handle a ev :
  well_formed ev -> storage_ok a -> storage_ok (handle ev a).
Proof.
  intros Hwf Hok. destruct ev as [c status cfg e|p r|dt]; simpl.
  - apply (storage_ok_cookies a); [left | exact Hok].
    unfold response_error, refreshAccessToken, performTokenRefresh.
    destruct status as [s|]; [|reflexivity].
    destruct ((s =? 401) && negb (_retry cfg)); [|reflexivity].
    destruct (refreshPromise a); [reflexivity|].
    destruct (getRefreshToken (now a) (cookies a)); reflexivity.
  - unfold performTokenRefresh_resume.
    destruct (nth_error (promises a) p) as [[s|]|]; try exact Hok.
    destruct r as [access refresh|e].
    + now apply (storage_ok_setTokens a _ access refresh).
    + now apply (storage_ok_cookies a); [left|].
  - now apply (storage_ok_cookies a); [left|].
Qed.

Lemma reachable_storage_ok a : reachable a -> storage_ok a.
Proof.
  induction 1 as [a H0|a access refresh _ IH Hne|a _ IH|a ev _ IH Hwf].
  - intros ca. rewrite H0. discriminate.
  - now apply (storage_ok_setTokens a _ access refresh).
  - now apply (storage_ok_cookies a); [right|].
  - unfold step. apply storage_ok_drain. now apply storage_ok_handle.
Qed.

(** C7, as stated, fails: the request interceptor reads the access cookie
    alone, so in a storage state that holds an access token and no
    refresh token the outgoing call still carries the access token. *)
Lemma stray_access_token_is_attached :
  getRefreshToken 0 access_only = None
  /\ getAccessToken 0 access_only = Some "A"
  /\ Authorization (request_interceptor 0 access_only blank)
     = Some "Bearer A".
Proof. repeat split. Qed.

(** C7, amended: in every storage state that the client's own operations
    produce from an empty storage (storing a pair whose refresh token is
    not empty, clearing the pair, the tasks of the interceptors, cookies
    expiring as time passes), whenever the refresh token is absent the
    access token is absent too, and the request interceptor attaches no
    access token to an outgoing call.  The interceptor itself does not
    consult the refresh token. *)
Theorem no_access_without_refresh (a : agent) (c : config) :
  reachable a ->
  getRefreshToken (now a) (cookies a) = None ->
  getAccessToken (now a) (cookies a) = None
  /\ request_interceptor (now a) (cookies a) c = c.
Proof.
  intros Hreach Hnone.
  assert (Hacc : getAccessToken (now a) (cookies a) = None).
  { pose proof (reachable_storage_ok a Hreach) as Hok.
    unfold getAccessToken, getRefreshToken, Cookies_get in *.
    destruct (accessToken (cookies a)) as [ca|] eqn:Ea; [|reflexivity].
    destruct (now a <? expires ca) eqn:El; [|reflexivity].
    destruct (Hok ca Ea) as [cr [Er [Hle Hne]]].
    rewrite Er in Hnone.
    apply Z.ltb_lt in El.
    assert (Hl : (now a <? expires cr) = true) by (apply Z.ltb_lt; lia).
    rewrite Hl in Hnone. simpl in Hnone.
    destruct (value cr =? "")%string eqn:Ev; [|discriminate].
    apply String.eqb_eq in Ev. contradiction. }
  split; [exact Hacc|].
  unfold request_interceptor. now rewrite Hacc.
Qed.

Lemma no_access_without_refresh_witness :
  let a := step (set_cookies (setTokens 0 "A0" "R0" (cookies start)) start)
             (Elapsed (8 * day)) in
  getAccessToken (now a) (cookies a) = None
  /\ request_interceptor (now a) (cookies a) blank = blank.
Proof.
  apply no_access_without_refresh.
  - apply reach_step; [|exact I].
    apply (reach_setTokens start "A0" "R0"); [|discriminate].
    apply reach_start. reflexivity.
  - reflexivity.
Defined.

(** * Further properties of the server side *)

(** ** The codec *)

(** X1: the two verifiers accept exactly the tokens signed with the secret
    of their class, carrying the tag of their class, and not yet expired
    on the clock in whole seconds; what they return is the signed payload
    itself.  Any other text, any token signed with another secret, is
    rejected. *)
Theorem verifiers_accept_exactly_own_tokens
    (e : process_env) (now : Z) (t : Jwt.token) (d : Jwt.payload) :
  (Auth.verifyAccessToken e now t = inl d
   <-> t = Jwt.Signed d (Auth.JWT_ACCESS_SECRET e)
       /\ Jwt.type d = "access"
       /\ (forall x, Jwt.exp d = Some x -> Jwt.clockTimestamp now < x))
  /\ (Auth.verifyRefreshToken e now t = inl d
      <-> t = Jwt.Signed d (Auth.JWT_REFRESH_SECRET e)
          /\ Jwt.type d = "refresh"
          /\ (forall x, Jwt.exp d = Some x -> Jwt.clockTimestamp now < x)).
Proof.
  assert (H : forall secret ty msg,
    match Jwt.verify now t secret with
    | inl decoded =>
        if negb (Jwt.type decoded =? ty)%string
        then inr (Auth.plain_Error msg) else inl decoded
    | inr _ => inr (Auth.plain_Error msg)
    end = inl d
    <-> t = Jwt.Signed d secret /\ Jwt.type d = ty
        /\ (forall x, Jwt.exp d = Some x -> Jwt.clockTimestamp now < x)).
  { intros secret ty msg. split.
    - destruct t as [p k|s]; simpl.
      + destruct (k =? secret)%string eqn:Ek; [|discriminate].
        apply String.eqb_eq in Ek. subst k.
        destruct (Jwt.exp p) as [x|] eqn:Ex.
        * rewrite Z.geb_leb. destruct (x <=? _) eqn:El; [discriminate|].
          destruct (Jwt.type p =? ty)%string eqn:Et; simpl; [|discriminate].
          intro H. injection H as <-. apply String.eqb_eq in Et.
          apply Z.leb_gt in El. repeat split; try assumption.
          intros y Hy. rewrite Ex in Hy. injection Hy as <-. exact El.
        * destruct (Jwt.type p =? ty)%string eqn:Et; simpl; [|discriminate].
          intro H. injection H as <-. apply String.eqb_eq in Et.
          repeat split; try assumption. intros y Hy. congruence.
      + destruct (s =? "")%string; discriminate.
    - intros [-> [Ht Hx]]. simpl. rewrite String.eqb_refl.
      apply String.eqb_eq in Ht.
      destruct (Jwt.exp d) as [x|] eqn:Ex.
      + rewrite Z.geb_leb. specialize (Hx x eq_refl).
        apply Z.leb_gt in Hx. rewrite Hx, Ht. reflexivity.
      + rewrite Ht. reflexivity. }
  split; apply H.
Qed.

Lemma refresh_token_round_trip_aux e t0 t uid :
  Auth.verifyRefreshToken e t (Auth.generateRefreshToken e t0 uid)
  = if Jwt.clockTimestamp t <? Jwt.clockTimestamp t0 + 7 * 24 * 60 * 60
    then inl {| Jwt.userId := uid; Jwt.type := "refresh";
                Jwt.iat := Jwt.clockTimestamp t0;
                Jwt.exp := Some (Jwt.clockTimestamp t0 + 7 * 24 * 60 * 60) |}
    else inr (Auth.plain_Error "Invalid or expired refresh token").
Proof.
  unfold Auth.verifyRefreshToken, Auth.generateRefreshToken, Jwt.sign,
    Jwt.verify, Auth.seven_days. simpl Jwt.exp. cbv iota beta.
  rewrite String.eqb_refl, Z.geb_leb, Z.ltb_antisym.
  destruct (_ <=? _); reflexivity.
Qed.

(** X2: a refresh token verifies as one, and yields the subject id it was
    issued for, from its issuance until 604800 whole seconds later and
    never afterwards. *)
Theorem refresh_token_round_trip (e : process_env) (t0 t : Z) (uid : string) :
  Auth.verifyRefreshToken e t (Auth.generateRefreshToken e t0 uid)
  = if Jwt.clockTimestamp t <? Jwt.clockTimestamp t0 + 7 * 24 * 60 * 60
    then inl {| Jwt.userId := uid; Jwt.type := "refresh";
                Jwt.iat := Jwt.clockTimestamp t0;
                Jwt.exp := Some (Jwt.clockTimestamp t0 + 7 * 24 * 60 * 60) |}
    else inr (Auth.plain_Error "Invalid or expired refresh token").
Proof. apply refresh_token_round_trip_aux. Qed.

(** ** The store *)

Lemma find_filter_kept {A} (f g : A -> bool) l x :
  find f l = Some x -> g x = true -> find f (filter g l) = Some x.
Proof.
  induction l as [|y l IH]; simpl; [discriminate|].
  destruct (f y) eqn:Ef.
  - intros H Hg. injection H as ->. rewrite Hg. simpl. now rewrite Ef.
  - intros H Hg. destruct (g y); simpl; [rewrite Ef|]; now apply IH.
Qed.



(** Where the clocks go forward by an hour within the week, the row is
    gone an hour before the seven days are over. *)
Lemma row_expires_an_hour_early_across_summer_time :
  let w1 := set_clock (1500 + 7 * 86400000 - 3600000 + 1)
              (snd (Auth.storeRefreshToken "u1" Scenario.R1
                      Scenario.before_summer_time)) in
  fst (Auth.isRefreshTokenValid Scenario.R1 w1) = Return false.
Proof. vm_compute. reflexivity. Qed.

Lemma storing_a_stored_token_is_rejected_aux uid t w row :
  available RefreshToken_create w = true ->
  stored t w = Some row ->
  Auth.storeRefreshToken uid t w = (Throw Prisma.UniqueConstraintFailed, w).
Proof.
  intros Hc Hs.
  unfold Auth.storeRefreshToken, bind, new_Date, setDate_plus,
    Prisma.refreshToken_create, Prisma.call. cbn [token].
  now rewrite Hc, (stored_some_exists _ _ _ Hs).
Qed.

(** X4: storing a token value that already has a row is rejected with
    Prisma's unique-constraint error, and the table is left as it was. *)
Theorem storing_a_stored_token_is_rejected
    (uid : string) (t : Jwt.token) (w : world) (row : RefreshToken) :
  available RefreshToken_create w = true ->
  stored t w = Some row ->
  Auth.storeRefreshToken uid t w = (Throw Prisma.UniqueConstraintFailed, w).
Proof. apply storing_a_stored_token_is_rejected_aux. Qed.

Lemma storing_a_stored_token_is_rejected_witness :
  Auth.storeRefreshToken "u1" Scenario.R1 Scenario.logged_in
  = (Throw Prisma.UniqueConstraintFailed, Scenario.logged_in).
Proof.
  exact (storing_a_stored_token_is_rejected "u1" Scenario.R1 Scenario.logged_in
           {| token := Scenario.R1; userId := "u1";
              expiresAt := 1500 + Auth.seven_days_ms |} eq_refl eq_refl).
Defined.

(** X5: the housekeeping of a subject deletes exactly the rows of that
    subject whose expiry lies before now; it touches nothing else, and
    every token that was valid before it is valid after it. *)
Theorem cleanup_removes_only_expired_rows_of_subject
    (uid : string) (w : world) :
  available RefreshToken_deleteMany w = true ->
  exists w',
    Auth.cleanupExpiredTokens uid w = (Return tt, w')
    /\ same_elsewhere w w'
    /\ (forall r, In r (refreshTokens w')
                  <-> In r (refreshTokens w)
                      /\ ~ (userId r = uid /\ expiresAt r < clock w))
    /\ (forall t, available RefreshToken_findUnique w = true ->
                  Auth.isRefreshTokenValid t w = (Return true, w) ->
                  Auth.isRefreshTokenValid t w' = (Return true, w')).
Proof.
  intro Ha.
  exists (set_refreshTokens
            (filter (fun r => negb ((userId r =? uid)%string
                                    && (expiresAt r <? clock w)))
               (refreshTokens w)) w).
  split; [|split; [|split]].
  - unfold Auth.cleanupExpiredTokens, bind, new_Date,
      Prisma.refreshToken_deleteMany, Prisma.call. now rewrite Ha.
  - repeat split.
  - intro r. simpl. rewrite filter_In, negb_true_iff, andb_false_iff.
    rewrite String.eqb_neq, Z.ltb_ge. split.
    + intros [Hin Hk]. split; [exact Hin|]. intros [Hu Hl].
      destruct Hk; [contradiction | lia].
    + intros [Hin Hk]. split; [exact Hin|].
      destruct (String.string_dec (userId r) uid) as [Hu|Hu];
        [|now left].
      right. destruct (Z.lt_ge_cases (expiresAt r) (clock w)); [|lia].
      exfalso. apply Hk. now split.
  - intros t Hf Hv.
    destruct (stored t w) as [row|] eqn:Hs.
    + assert (Hlive : clock w <= expiresAt row).
      { destruct (Z.lt_ge_cases (expiresAt row) (clock w)) as [Hlt|]; [|lia].
        rewrite (isValid_expired t w row Hf) in Hv; try assumption.
        - discriminate.
        - unfold available in *.
          (* the validity check returned true, so no deletion was tried *)
          destruct (negb (existsb (prisma_op_eqb RefreshToken_delete)
                            (outage w))) eqn:Hd; [reflexivity|].
          unfold Auth.isRefreshTokenValid, bind in Hv.
          rewrite (findUnique_run t w Hf), Hs in Hv. unfold new_Date in Hv.
          apply Z.ltb_lt in Hlt. rewrite Hlt in Hv.
          rewrite delete_run_outage in Hv by exact Hd. discriminate. }
      apply isValid_live with (row := row); [exact Hf | | exact Hlive].
      unfold stored. simpl. apply find_filter_kept; [exact Hs|].
      apply negb_true_iff, andb_false_iff. right. now apply Z.ltb_ge.
    + rewrite (isValid_absent t w Hf Hs) in Hv. discriminate.
Qed.

Lemma cleanup_removes_only_expired_rows_of_subject_witness :
  exists w',
    Auth.cleanupExpiredTokens "u1" (set_clock 604801501 Scenario.expiring_now)
    = (Return tt, w')
    /\ refreshTokens w' = [].
Proof.
  destruct (cleanup_removes_only_expired_rows_of_subject "u1"
              (set_clock 604801501 Scenario.expiring_now) eq_refl)
    as [w' [Hrun _]].
  exists w'. split; [exact Hrun|].
  injection Hrun as <-. reflexivity.
Defined.

(** ** What the handlers keep *)

Lemma preserves_ret {A} P (a : A) : preserves P (ret a).
Proof. intros w H. exact H. Qed.

Lemma preserves_throw {A} P e : preserves P (@throw A e).
Proof. intros w H. exact H. Qed.

Lemma preserves_lift {A} P (r : A + error) : preserves P (lift r).
Proof. destruct r; intros w H; exact H. Qed.

Lemma preserves_new_Date P : preserves P new_Date.
Proof. intros w H. exact H. Qed.

Lemma preserves_get_env P : preserves P get_env.
Proof. intros w H. exact H. Qed.

Lemma preserves_bind {A B} P (m : io A) (k : A -> io B) :
  preserves P m -> (forall a, preserves P (k a)) -> preserves P (bind m k).
Proof.
  intros Hm Hk w H. unfold bind. specialize (Hm w H).
  destruct (m w) as [[a|e] w']; simpl in *; [now apply Hk | exact Hm].
Qed.

Lemma preserves_try_catch {A} P (m : io A) (h : error -> io A) :
  preserves P m -> (forall e, preserves P (h e)) ->
  preserves P (try_catch m h).
Proof.
  intros Hm Hh w H. unfold try_catch. specialize (Hm w H).
  destruct (m w) as [[a|e] w']; simpl in *; [exact Hm | now apply Hh].
Qed.

Lemma preserves_call {A} P op (m : io A) :
  preserves P m -> preserves P (Prisma.call op m).
Proof.
  intros Hm w H. unfold Prisma.call.
  destruct (available op w); [now apply Hm | exact H].
Qed.

Lemma table_step_refl w : table_step w w.
Proof. repeat split. auto. Qed.

Lemma table_step_trans w1 w2 w3 :
  table_step w1 w2 -> table_step w2 w3 -> table_step w1 w3.
Proof.
  intros [[Hc [He [Hu Ho]]] H12] [[Hc' [He' [Hu' Ho']]] H23].
  repeat split; try congruence. auto.
Qed.

(** A computation that, from any world, makes a [table_step]. *)
Lemma preserves_of_steps {A} (m : io A) w0 :
  (forall w, table_step w (snd (m w))) ->
  preserves (table_step w0) m.
Proof. intros Hm w H. exact (table_step_trans _ _ _ H (Hm w)). Qed.

Lemma NoDup_snoc {A} (l : list A) (x : A) :
  NoDup l -> ~ In x l -> NoDup (l ++ [x]).
Proof.
  induction l as [|y l IH]; simpl; intros Hnd Hnin.
  - constructor; [intros [] | constructor].
  - inversion Hnd as [|? ? Hy Hl]. subst. constructor.
    + intro Hin. apply in_app_or in Hin. destruct Hin as [Hin|[->|[]]];
        [contradiction | apply Hnin; now left].
    + apply IH; [exact Hl | intro; apply Hnin; now right].
Qed.

Lemma not_in_tokens t rows :
  existsb (Prisma.has_token t) rows = false -> ~ In t (map token rows).
Proof.
  intros He Hin. apply in_map_iff in Hin. destruct Hin as [r [Hr Hin]].
  assert (existsb (Prisma.has_token t) rows = true).
  { apply existsb_exists. exists r. split; [exact Hin|].
    unfold Prisma.has_token. rewrite Hr. apply token_eqb_refl. }
  congruence.
Qed.

Lemma NoDup_map_filter {A B} (f : A -> B) (g : A -> bool) l :
  NoDup (map f l) -> NoDup (map f (filter g l)).
Proof.
  induction l as [|x l IH]; simpl; intro H; [constructor|].
  inversion H as [|? ? Hnin Hnd]. subst.
  destruct (g x); simpl; [|now apply IH].
  constructor; [|now apply IH].
  intro Hin. apply Hnin. apply in_map_iff in Hin.
  destruct Hin as [y [Hy Hin]]. apply filter_In in Hin.
  apply in_map_iff. exists y. tauto.
Qed.

Lemma step_findUnique t w :
  table_step w (snd (Prisma.refreshToken_findUnique t w)).
Proof.
  unfold Prisma.refreshToken_findUnique, Prisma.call.
  destruct (available _ w); apply table_step_refl.
Qed.

Lemma step_user_findUnique f w :
  table_step w (snd (Prisma.user_findUnique f w)).
Proof.
  unfold Prisma.user_findUnique, Prisma.call.
  destruct (available _ w); apply table_step_refl.
Qed.

Lemma step_create row w :
  table_step w (snd (Prisma.refreshToken_create row w)).
Proof.
  unfold Prisma.refreshToken_create, Prisma.call.
  destruct (available _ w); [|apply table_step_refl].
  destruct (existsb _ _) eqn:He; [apply table_step_refl|].
  simpl. repeat split. unfold unique_tokens. simpl. intro Hnd.
  rewrite map_app. simpl. apply NoDup_snoc; [exact Hnd|].
  now apply not_in_tokens.
Qed.

Lemma step_delete t w : table_step w (snd (Prisma.refreshToken_delete t w)).
Proof.
  unfold Prisma.refreshToken_delete, Prisma.call.
  destruct (available _ w); [|apply table_step_refl].
  destruct (existsb _ _); [|apply table_step_refl].
  simpl. repeat split. unfold unique_tokens. simpl.
  apply NoDup_map_filter.
Qed.

Lemma step_deleteMany f w :
  table_step w (snd (Prisma.refreshToken_deleteMany f w)).
Proof.
  unfold Prisma.refreshToken_deleteMany, Prisma.call.
  destruct (available _ w); [|apply table_step_refl].
  simpl. repeat split. unfold unique_tokens. simpl.
  apply NoDup_map_filter.
Qed.

(** Breaking a handler down to the Prisma calls it makes. *)
Ltac step_through :=
  cbv zeta;
  repeat first
    [ apply preserves_ret
    | apply preserves_throw
    | apply preserves_lift
    | apply preserves_new_Date
    | apply preserves_get_env
    | apply preserves_of_steps; first
        [ apply step_findUnique | apply step_user_findUnique
        | apply step_create | apply step_delete | apply step_deleteMany ]
    | apply preserves_try_catch; [|intro]
    | apply preserves_bind; [|intro]
    | match goal with
      | |- preserves _ (match ?x with _ => _ end) => destruct x
      end ].

Lemma keeps_isRefreshTokenValid w0 t :
  preserves (table_step w0) (Auth.isRefreshTokenValid t).
Proof.
  unfold Auth.isRefreshTokenValid, Auth.removeRefreshToken. step_through.
Qed.

Lemma keeps_storeRefreshToken w0 uid t :
  preserves (table_step w0) (Auth.storeRefreshToken uid t).
Proof. unfold Auth.storeRefreshToken. step_through. Qed.

Lemma keeps_cleanupExpiredTokens w0 uid :
  preserves (table_step w0) (Auth.cleanupExpiredTokens uid).
Proof. unfold Auth.cleanupExpiredTokens. step_through. Qed.

Lemma keeps_authenticateUser w0 mail pw :
  preserves (table_step w0) (UserService.authenticateUser mail pw).
Proof.
  unfold UserService.authenticateUser, UserService.findUserByEmail.
  step_through.
Qed.

Lemma keeps_login w0 req : preserves (table_step w0) (AuthController.login req).
Proof.
  unfold AuthController.login, res_json. step_through.
Qed.

Lemma keeps_refreshToken w0 req :
  preserves (table_step w0) (AuthController.refreshToken req).
Proof.
  unfold AuthController.refreshToken, res_json, Auth.removeRefreshToken.
  step_through.
Qed.

Lemma keeps_logout w0 req :
  preserves (table_step w0) (AuthController.logout req).
Proof.
  unfold AuthController.logout, res_json, Auth.removeRefreshToken.
  step_through.
Qed.

(** X6: whatever the request and whatever they answer, the login, refresh
    and logout handlers write to nothing but the refresh-token table
    (users, configuration and clock are as before), and they keep the
    token column of that table free of duplicates. *)
Theorem session_handlers_keep_the_table_sound (w : world) :
  (forall req, table_step w (snd (AuthController.login req w)))
  /\ (forall req, table_step w (snd (AuthController.refreshToken req w)))
  /\ (forall req, table_step w (snd (AuthController.logout req w))).
Proof.
  split; [|split]; intro req.
  - apply (keeps_login w req w), table_step_refl.
  - apply (keeps_refreshToken w req w), table_step_refl.
  - apply (keeps_logout w req w), table_step_refl.
Qed.

(** ** Login *)

Lemma authenticateUser_run mail pw w :
  available User_findUnique w = true ->
  UserService.authenticateUser mail pw w
  = (Return
       match find (fun u => (email u =? mail)%string) (users w) with
       | Some u =>
           if Auth.comparePassword pw (password u)
           then Some (UserService.without_password u) else None
       | None => None
       end, w).
Proof.
  intro Ha.
  unfold UserService.authenticateUser, UserService.findUserByEmail, bind,
    Prisma.user_findUnique, Prisma.call.
  rewrite Ha. destruct (find _ _) as [u|]; [|reflexivity].
  now destruct (Auth.comparePassword pw (password u)).
Qed.

Lemma available_all op w : outage w = [] -> available op w = true.
Proof. intro H. unfold available. now rewrite H. Qed.

Lemma login_run_rejected mail pw w :
  UserService.authenticateUser mail pw w = (Return None, w) ->
  AuthController.login (Schemas.WellFormed mail pw) w
  = (Return AuthController.InvalidCredentials, w).
Proof.
  intro H. unfold AuthController.login, try_catch, bind at 1. simpl.
  unfold bind at 1. now rewrite H.
Qed.

(** What bcrypt reads from a password. *)
Lemma key_stream_prefix n key cur :
  (String.length cur <= n)%nat ->
  exists rest, key_stream n key cur = (cur ++ rest)%string.
Proof.
  revert cur. induction n as [|n IH]; intros cur Hlen.
  - destruct cur; [now exists EmptyString | simpl in Hlen; lia].
  - destruct cur as [|c cur].
    + now exists (key_stream (S n) key EmptyString).
    + simpl in Hlen. destruct (IH cur) as [rest Hr]; [lia|].
      exists rest. cbn [key_stream]. now rewrite Hr.
Qed.

Lemma key_stream_exact n key cur rest :
  String.length cur = n ->
  key_stream n key (cur ++ rest)%string = cur.
Proof.
  revert cur. induction n as [|n IH]; intros cur Hlen.
  - destruct cur; [reflexivity | discriminate].
  - destruct cur as [|c cur]; [discriminate|].
    simpl in Hlen. cbn [String.append key_stream]. rewrite IH by lia.
    reflexivity.
Qed.

Lemma substring_all s : String.substring 0 (String.length s) s = s.
Proof. induction s as [|c s IH]; simpl; [reflexivity | now rewrite IH]. Qed.

Lemma substring_short n s :
  (String.length s <= n)%nat -> String.substring 0 n s = s.
Proof.
  revert n. induction s as [|c s IH]; intros n Hlen.
  - now destruct n.
  - destruct n as [|n]; simpl in Hlen; [lia|].
    simpl. rewrite IH by lia. reflexivity.
Qed.

Lemma substring_append n s tail :
  String.length s = n -> String.substring 0 n (s ++ tail)%string = s.
Proof.
  revert n. induction s as [|c s IH]; intros n Hlen.
  - subst n. now destruct tail.
  - destruct n as [|n]; [discriminate|]. simpl in Hlen.
    simpl. rewrite IH by lia. reflexivity.
Qed.

Lemma length_append (a b : string) :
  String.length (a ++ b)%string = (String.length a + String.length b)%nat.
Proof. induction a as [|c a IH]; simpl; [reflexivity | now rewrite IH]. Qed.

Lemma until_NUL_inj a b r r' :
  no_NUL a = true -> no_NUL b = true ->
  (a ++ NUL ++ r)%string = (b ++ NUL ++ r')%string -> a = b.
Proof.
  revert b. induction a as [|c a IH]; intros [|d b] Ha Hb H.
  - reflexivity.
  - simpl in H, Hb. injection H as Hc _. subst d.
    now rewrite Ascii.eqb_refl in Hb.
  - simpl in H, Ha. injection H as Hc _. subst c.
    now rewrite Ascii.eqb_refl in Ha.
  - simpl in H, Ha, Hb. injection H as Hc Hrest. subst d.
    apply andb_true_iff in Ha, Hb. f_equal. apply (IH b); tauto.
Qed.

(** A password of fewer than 72 bytes is read whole, up to its
    terminator: two such passwords without a NUL byte have the same key
    only when they are the same password. *)
Lemma bcrypt_key_short_inj pw pw' :
  (String.length pw < 72)%nat -> (String.length pw' < 72)%nat ->
  no_NUL pw = true -> no_NUL pw' = true ->
  bcrypt_key pw = bcrypt_key pw' -> pw = pw'.
Proof.
  intros Hl Hl' Hn Hn'. unfold bcrypt_key. cbv zeta.
  rewrite !substring_short by lia.
  destruct (key_stream_prefix 72 (pw ++ NUL) (pw ++ NUL)) as [r Hr].
  { rewrite length_append. simpl. lia. }
  destruct (key_stream_prefix 72 (pw' ++ NUL) (pw' ++ NUL)) as [r' Hr'].
  { rewrite length_append. simpl. lia. }
  rewrite Hr, Hr'. intro H.
  apply (until_NUL_inj pw pw' r r' Hn Hn').
  revert H. clear. 
  assert (Happ : forall a b c : string,
             ((a ++ b) ++ c = a ++ b ++ c)%string).
  { intros a b c. induction a as [|x a IH]; simpl; [reflexivity|].
    now rewrite IH. }
  now rewrite !Happ.
Qed.

(** Of a password of 72 bytes or more only the first 72 bytes are read:
    whatever follows them makes no difference. *)
Lemma bcrypt_key_long head tail tail' :
  String.length head = 72%nat ->
  bcrypt_key (head ++ tail) = bcrypt_key (head ++ tail').
Proof.
  intro Hl. unfold bcrypt_key. cbv zeta.
  now rewrite !(substring_append 72 head _ Hl).
Qed.

(** X7: a login with an address nobody registered and a login with a
    registered address and a password bcrypt rejects get the same answer,
    401 INVALID_CREDENTIALS, and neither writes anything.  bcrypt rejects
    a password when the key it reads from it is not the key of the
    digest; among passwords of fewer than 72 bytes without a NUL byte
    that is every password but the registered one. *)
Theorem login_failure_does_not_tell_why (w : world) (mail pw : string) :
  available User_findUnique w = true ->
  (find (fun u => (email u =? mail)%string) (users w) = None ->
   AuthController.login (Schemas.WellFormed mail pw) w
   = (Return AuthController.InvalidCredentials, w))
  /\ (forall u,
        find (fun u => (email u =? mail)%string) (users w) = Some u ->
        bcrypt_key pw <> hashed (password u) ->
        AuthController.login (Schemas.WellFormed mail pw) w
        = (Return AuthController.InvalidCredentials, w))
  /\ (forall u salt_ registered,
        find (fun u => (email u =? mail)%string) (users w) = Some u ->
        password u = bcrypt_hash salt_ registered ->
        (String.length registered < 72)%nat ->
        (String.length pw < 72)%nat ->
        no_NUL registered = true -> no_NUL pw = true ->
        pw <> registered ->
        AuthController.login (Schemas.WellFormed mail pw) w
        = (Return AuthController.InvalidCredentials, w)).
Proof.
  intro Ha.
  assert (Hrej : forall u,
             find (fun u => (email u =? mail)%string) (users w) = Some u ->
             bcrypt_key pw <> hashed (password u) ->
             AuthController.login (Schemas.WellFormed mail pw) w
             = (Return AuthController.InvalidCredentials, w)).
  { intros u Hu Hpw. apply login_run_rejected.
    rewrite (authenticateUser_run mail pw w Ha), Hu.
    unfold Auth.comparePassword, bcrypt_compare.
    destruct (bcrypt_key pw =? hashed (password u))%string eqn:E;
      [|reflexivity].
    apply String.eqb_eq in E. contradiction. }
  split; [|split].
  - intro Hn. apply login_run_rejected.
    now rewrite (authenticateUser_run mail pw w Ha), Hn.
  - exact Hrej.
  - intros u salt_ registered Hu Hd Hl Hl' Hn Hn' Hne.
    apply (Hrej u Hu). rewrite Hd. cbn [hashed bcrypt_hash].
    intro E. apply Hne. now apply bcrypt_key_short_inj.
Qed.

Lemma login_failure_does_not_tell_why_witness :
  AuthController.login
    (Schemas.WellFormed "mallory@example.com" "Secret123!") Scenario.fresh
  = (Return AuthController.InvalidCredentials, Scenario.fresh)
  /\ AuthController.login
       (Schemas.WellFormed "alice@example.com" "guess") Scenario.fresh
     = (Return AuthController.InvalidCredentials, Scenario.fresh).
Proof.
  destruct (login_failure_does_not_tell_why Scenario.fresh
              "mallory@example.com" "Secret123!" eq_refl) as [H1 _].
  destruct (login_failure_does_not_tell_why Scenario.fresh
              "alice@example.com" "guess" eq_refl) as [_ [_ H2]].
  split; [exact (H1 eq_refl)|].
  apply (H2 Scenario.alice "c2FsdA" "Secret123!" eq_refl eq_refl);
    [simpl; lia | simpl; lia | reflexivity | reflexivity | discriminate].
Defined.

Lemma login_run_accepted mail pw w u :
  outage w = [] ->
  find (fun x => (email x =? mail)%string) (users w) = Some u ->
  Auth.comparePassword pw (password u) = true ->
  stored (Auth.generateRefreshToken (env w) (clock w) (id u)) w = None ->
  AuthController.login (Schemas.WellFormed mail pw) w
  = (Return {| status := 200;
               body := AuthBody (UserService.without_password u)
                         (Auth.generateAccessToken (env w) (clock w) (id u))
                         (Auth.generateRefreshToken (env w) (clock w) (id u)) |},
     set_refreshTokens
       (filter (fun r => negb ((userId r =? id u)%string
                               && (expiresAt r <? clock w)))
          (refreshTokens w ++
           [{| token := Auth.generateRefreshToken (env w) (clock w) (id u);
               userId := id u;
               expiresAt := Auth.expiry w |}])) w).
Proof.
  intros Ho Hu Hpw Hs.
  unfold AuthController.login, try_catch, bind at 1. simpl.
  unfold bind at 1.
  rewrite (authenticateUser_run mail pw w (available_all _ w Ho)), Hu.
  rewrite Hpw. cbn [negb].
  unfold bind at 1. unfold get_env at 1. unfold bind at 1.
  unfold new_Date at 1. unfold bind at 1. cbn [UserService.pub_id
    UserService.without_password].
  rewrite (store_run (id u) _ w (available_all _ w Ho)
             (stored_none_exists _ _ Hs)).
  unfold bind at 1.
  unfold Auth.cleanupExpiredTokens, bind, new_Date,
    Prisma.refreshToken_deleteMany, Prisma.call.
  assert (Hd : available RefreshToken_deleteMany
                 (set_refreshTokens
                    (refreshTokens w ++
                     [{| token := Auth.generateRefreshToken (env w) (clock w)
                                    (id u);
                         userId := id u;
                         expiresAt := Auth.expiry w |}]) w)
               = true) by (apply available_all; exact Ho).
  rewrite Hd. reflexivity.
Qed.

(** X8: with the database answering, a login with a password bcrypt
    accepts for a registered user whose refresh token of this second is
    not yet stored
    answers 200 with that user and a fresh pair; afterwards the refresh
    token of the pair passes the validity check and the access token of
    the pair is admitted by the middleware as that user. *)
Theorem login_opens_a_session (w : world) (mail pw : string) (u : User) :
  outage w = [] ->
  find (fun x => (email x =? mail)%string) (users w) = Some u ->
  find (fun x => (id x =? id u)%string) (users w) = Some u ->
  Auth.comparePassword pw (password u) = true ->
  stored (Auth.generateRefreshToken (env w) (clock w) (id u)) w = None ->
  let A := Auth.generateAccessToken (env w) (clock w) (id u) in
  let R := Auth.generateRefreshToken (env w) (clock w) (id u) in
  let w' := snd (AuthController.login (Schemas.WellFormed mail pw) w) in
  fst (AuthController.login (Schemas.WellFormed mail pw) w)
  = Return {| status := 200;
              body := AuthBody (UserService.without_password u) A R |}
  /\ Auth.isRefreshTokenValid R w' = (Return true, w')
  /\ Middleware.authenticateToken (Some (Middleware.Bearer A)) w'
     = (Return (Middleware.Next (UserService.without_password u)), w').
Proof.
  intros Ho Hu Hid Hpw Hs A R w'.
  unfold w'. rewrite (login_run_accepted mail pw w u Ho Hu Hpw Hs).
  cbn [fst snd]. fold A R. split; [reflexivity|].
  set (row := {| token := R; userId := id u;
                 expiresAt := Auth.expiry w |}).
  set (w1 := set_refreshTokens _ w).
  split.
  - apply isValid_live with (row := row).
    + apply available_all. exact Ho.
    + unfold stored, w1. simpl. apply find_filter_kept.
      * rewrite find_append.
        change (find (Prisma.has_token R) (refreshTokens w))
          with (stored (Auth.generateRefreshToken (env w) (clock w) (id u)) w).
        rewrite Hs. unfold row. cbn [find].
        unfold Prisma.has_token. cbn [token]. now rewrite token_eqb_refl.
      * apply negb_true_iff, andb_false_iff. right. apply Z.ltb_ge.
        unfold row. cbn [expiresAt]. pose proof (expiry_bounds w).
        unfold msPerDay in *. lia.
    + unfold row, w1. cbn [expiresAt clock set_refreshTokens].
      pose proof (expiry_bounds w). unfold msPerDay in *. lia.
  - assert (Hv : Auth.verifyAccessToken (env w1) (clock w1) A
                 = inl {| Jwt.userId := id u; Jwt.type := "access";
                          Jwt.iat := Jwt.clockTimestamp (clock w);
                          Jwt.exp := Some (Jwt.clockTimestamp (clock w)
                                           + Auth.fifteen_minutes) |}).
    { unfold A, w1. simpl. rewrite verify_generated_access.
      rewrite Z.geb_leb. destruct (_ <=? _) eqn:E; [|reflexivity].
      apply Z.leb_le in E. unfold Auth.fifteen_minutes in E. lia. }
    rewrite (authenticate_verified _ _ _ Hv)
      by (apply available_all; exact Ho).
    simpl. now rewrite Hid.
Qed.

Lemma login_opens_a_session_witness :
  Middleware.authenticateToken (Some (Middleware.Bearer Scenario.A1))
    Scenario.logged_in
  = (Return (Middleware.Next (UserService.without_password Scenario.alice)),
     Scenario.logged_in).
Proof.
  exact (proj2 (proj2 (login_opens_a_session Scenario.fresh
                         "alice@example.com" "Secret123!" Scenario.alice
                         eq_refl eq_refl eq_refl eq_refl eq_refl))).
Defined.

(** X9: a login whose refresh token is already stored, which is the case
    for a second login of the same user within one clock second, is
    answered 500 INTERNAL_SERVER_ERROR although the credentials are right,
    and it writes nothing. *)
Theorem login_twice_within_a_second_fails
    (w : world) (mail pw : string) (u : User) (row : RefreshToken) :
  available User_findUnique w = true ->
  available RefreshToken_create w = true ->
  find (fun x => (email x =? mail)%string) (users w) = Some u ->
  Auth.comparePassword pw (password u) = true ->
  stored (Auth.generateRefreshToken (env w) (clock w) (id u)) w = Some row ->
  AuthController.login (Schemas.WellFormed mail pw) w
  = (Return (AuthController.InternalServerError
               "An unexpected error occurred during login"), w).
Proof.
  intros Ha Hc Hu Hpw Hs.
  unfold AuthController.login, try_catch, bind at 1. simpl.
  unfold bind at 1. rewrite (authenticateUser_run mail pw w Ha), Hu.
  rewrite Hpw. cbn [negb].
  unfold bind at 1. unfold get_env at 1. unfold bind at 1.
  unfold new_Date at 1. unfold bind at 1. cbn [UserService.pub_id
    UserService.without_password].
  unfold bind at 1.
  now rewrite (storing_a_stored_token_is_rejected_aux (id u) _ w row Hc Hs).
Qed.

Lemma login_twice_within_a_second_fails_witness :
  AuthController.login Scenario.credentials
    (set_clock 1999 Scenario.logged_in)
  = (Return (AuthController.InternalServerError
               "An unexpected error occurred during login"),
     set_clock 1999 Scenario.logged_in).
Proof.
  exact (login_twice_within_a_second_fails (set_clock 1999 Scenario.logged_in)
           "alice@example.com" "Secret123!" Scenario.alice
           {| token := Scenario.R1; userId := "u1";
              expiresAt := 1500 + Auth.seven_days_ms |}
           eq_refl eq_refl eq_refl eq_refl eq_refl).
Defined.

(** ** Refresh *)

Lemma parse_inl_carrying req t :
  Schemas.refreshTokenSchema_parse req = inl t ->
  req = carrying t /\ Jwt.is_empty t = false.
Proof.
  destruct req as [[t0|]]; unfold Schemas.refreshTokenSchema_parse; simpl;
    [|discriminate].
  destruct (Jwt.is_empty t0) eqn:E; [discriminate|].
  intro H. injection H as ->. split; [reflexivity | exact E].
Qed.

Lemma parse_inr_zod req err :
  Schemas.refreshTokenSchema_parse req = inr err -> err = Schemas.ZodError.
Proof.
  destruct req as [[t0|]]; unfold Schemas.refreshTokenSchema_parse; simpl;
    [destruct (Jwt.is_empty t0)|]; intro H; now inversion H.
Qed.

(** X10: the refresh handler answers 200 only to a request whose token
    passes the schema, verifies as a refresh token, and has a row that is
    not expired; the pair it then returns is issued for the subject of
    the presented token. *)
Theorem refresh_answers_200_only_to_live_tokens
    (req : Schemas.RefreshTokenRequest) (w : world) (r : response) :
  fst (AuthController.refreshToken req w) = Return r ->
  status r = 200 ->
  exists t decoded row,
    req = carrying t
    /\ Auth.verifyRefreshToken (env w) (clock w) t = inl decoded
    /\ stored t w = Some row
    /\ clock w <= expiresAt row
    /\ body r
       = TokenBody
           (Auth.generateAccessToken (env w) (clock w) (Jwt.userId decoded))
           (Auth.generateRefreshToken (env w) (clock w) (Jwt.userId decoded)).
Proof.
  unfold AuthController.refreshToken, try_catch, bind at 1.
  destruct (Schemas.refreshTokenSchema_parse req) as [t|err] eqn:Hp.
  2:{ apply parse_inr_zod in Hp. subst err. simpl.
      intros H Hs. injection H as <-. discriminate. }
  destruct (parse_inl_carrying req t Hp) as [-> Hne]. simpl.
  unfold bind at 1. unfold get_env at 1. unfold bind at 1.
  unfold new_Date at 1. unfold bind at 1.
  destruct (Auth.verifyRefreshToken (env w) (clock w) t) as [d|err] eqn:Hv.
  2:{ apply verifyRefreshToken_error in Hv. subst err. simpl.
      intros H Hs. injection H as <-. discriminate. }
  simpl. unfold bind at 1.
  unfold Auth.isRefreshTokenValid at 1. unfold bind at 1.
  unfold Prisma.refreshToken_findUnique, Prisma.call.
  destruct (available RefreshToken_findUnique w) eqn:Hf.
  2:{ simpl. intros H Hs. injection H as <-. discriminate. }
  fold (stored t w). destruct (stored t w) as [row|] eqn:Hrow.
  2:{ simpl. intros H Hs. injection H as <-. discriminate. }
  unfold bind at 1. unfold new_Date at 1.
  destruct (expiresAt row <? clock w) eqn:Hexp.
  { unfold bind at 1.
    unfold Auth.removeRefreshToken, Prisma.refreshToken_delete, Prisma.call.
    destruct (available RefreshToken_delete w);
      [rewrite (stored_some_exists _ _ _ Hrow)|];
      simpl; intros H Hs; injection H as <-; discriminate. }
  apply Z.ltb_ge in Hexp. simpl.
  unfold bind at 1. unfold new_Date at 1. unfold bind at 1.
  unfold Auth.removeRefreshToken, Prisma.refreshToken_delete, Prisma.call.
  destruct (available RefreshToken_delete w).
  2:{ simpl. intros H Hs. injection H as <-. discriminate. }
  rewrite (stored_some_exists _ _ _ Hrow). unfold bind at 1.
  unfold Auth.storeRefreshToken, bind, new_Date, setDate_plus,
    Prisma.refreshToken_create, Prisma.call.
  cbn [refreshTokens clock token set_refreshTokens].
  change (available RefreshToken_create (set_refreshTokens ?l w))
    with (available RefreshToken_create w).
  destruct (available RefreshToken_create w).
  2:{ simpl. intros H Hs. injection H as <-. discriminate. }
  destruct (existsb _ _).
  { simpl. intros H Hs. injection H as <-. discriminate. }
  unfold res_json, ret. cbn [fst]. intros H _. injection H as <-.
  exists t, d, row. repeat split; assumption.
Qed.

Lemma refresh_answers_200_only_to_live_tokens_witness :
  exists t decoded row,
    carrying Scenario.R1 = carrying t
    /\ Auth.verifyRefreshToken (env (set_clock 2000 Scenario.logged_in))
         2000 t = inl decoded
    /\ stored t Scenario.logged_in = Some row
    /\ 2000 <= expiresAt row.
Proof.
  destruct (refresh_answers_200_only_to_live_tokens
              (carrying Scenario.R1) (set_clock 2000 Scenario.logged_in)
              {| status := 200;
                 body := TokenBody
                           (Auth.generateAccessToken Scenario.defaults 2000 "u1")
                           (Auth.generateRefreshToken Scenario.defaults 2000
                              "u1") |}
              eq_refl eq_refl)
    as [t [d [row [H1 [H2 [H3 [H4 _]]]]]]].
  exists t, d, row. repeat split; assumption.
Defined.



(** Where the clocks go forward by an hour within the week, a token of
    six days and 23 and a half hours still verifies, but its row has
    expired: refresh rejects it and deletes the row. *)
Lemma row_expiry_comes_first_across_summer_time :
  let later := 1500 + 7 * 86400000 - 1800000 in
  let w1 := set_clock later
              (snd (Auth.storeRefreshToken "u1" Scenario.R1
                      Scenario.before_summer_time)) in
  (exists d, Auth.verifyRefreshToken (env w1) later Scenario.R1 = inl d)
  /\ stored Scenario.R1 w1 <> None
  /\ fst (AuthController.refreshToken (carrying Scenario.R1) w1)
     = Return InvalidRefresh
  /\ stored Scenario.R1
       (snd (AuthController.refreshToken (carrying Scenario.R1) w1))
     = None.
Proof.
  cbv zeta. split; [eexists; vm_compute; reflexivity|].
  split; [vm_compute; discriminate|].
  split; vm_compute; reflexivity.
Qed.

(** X12: after a rotation the successor is live: the refresh token that
    was returned passes the validity check and verifies as a refresh
    token of the same subject, and the access token that was returned
    verifies as an access token of the same subject. *)
Theorem rotation_hands_the_session_over
    (t : Jwt.token) (w : world) (decoded : Jwt.payload) (row : RefreshToken) :
  Auth.verifyRefreshToken (env w) (clock w) t = inl decoded ->
  stored t w = Some row ->
  clock w <= expiresAt row ->
  available RefreshToken_findUnique w = true ->
  available RefreshToken_delete w = true ->
  available RefreshToken_create w = true ->
  stored (Auth.generateRefreshToken (env w) (clock w) (Jwt.userId decoded)) w
  = None ->
  let newA := Auth.generateAccessToken (env w) (clock w) (Jwt.userId decoded) in
  let newR := Auth.generateRefreshToken (env w) (clock w) (Jwt.userId decoded) in
  let w' := snd (AuthController.refreshToken (carrying t) w) in
  Auth.isRefreshTokenValid newR w' = (Return true, w')
  /\ (exists d, Auth.verifyRefreshToken (env w') (clock w') newR = inl d
                /\ Jwt.userId d = Jwt.userId decoded)
  /\ (exists d, Auth.verifyAccessToken (env w') (clock w') newA = inl d
                /\ Jwt.userId d = Jwt.userId decoded).
Proof.
  intros Hv Hs Hle Hf Hd Hc Hnew newA newR w'.
  unfold w'. rewrite (refresh_rotates t w decoded row Hv Hs Hle Hf Hd Hc Hnew).
  cbn [snd]. fold newR. split; [|split].
  - apply isValid_live
      with (row := {| token := newR; userId := Jwt.userId decoded;
                      expiresAt := Auth.expiry w |}).
    + exact Hf.
    + unfold stored. cbn [refreshTokens set_refreshTokens].
      rewrite find_append.
      assert (Hne : t <> newR) by (intro E; unfold newR in E;
                                   rewrite <- E in Hnew; congruence).
      rewrite (find_without_other t newR _ Hne).
      change (find (Prisma.has_token newR) (refreshTokens w))
        with (stored newR w).
      unfold newR. rewrite Hnew. cbn [find].
      unfold Prisma.has_token. cbn [token]. now rewrite token_eqb_refl.
    + cbn [clock set_refreshTokens expiresAt].
      pose proof (expiry_bounds w). unfold msPerDay in *. lia.
  - eexists. cbn [env clock set_refreshTokens]. unfold newR.
    rewrite refresh_token_round_trip_aux.
    assert (E : (Jwt.clockTimestamp (clock w)
                 <? Jwt.clockTimestamp (clock w) + 7 * 24 * 60 * 60) = true)
      by (apply Z.ltb_lt; lia).
    rewrite E. split; reflexivity.
  - eexists. cbn [env clock set_refreshTokens]. unfold newA.
    rewrite verify_generated_access.
    assert (E : (Jwt.clockTimestamp (clock w)
                 >=? Jwt.clockTimestamp (clock w) + Auth.fifteen_minutes)
                = false).
    { rewrite Z.geb_leb. apply Z.leb_gt. unfold Auth.fifteen_minutes. lia. }
    rewrite E. split; reflexivity.
Qed.

Lemma rotation_hands_the_session_over_witness :
  let w' := snd (AuthController.refreshToken (carrying Scenario.R1)
                   (set_clock 2000 Scenario.logged_in)) in
  Auth.isRefreshTokenValid
    (Auth.generateRefreshToken Scenario.defaults 2000 "u1") w'
  = (Return true, w').
Proof.
  exact (proj1 (rotation_hands_the_session_over Scenario.R1
                  (set_clock 2000 Scenario.logged_in)
                  {| Jwt.userId := "u1"; Jwt.type := "refresh"; Jwt.iat := 1;
                     Jwt.exp := Some 604801 |}
                  {| token := Scenario.R1; userId := "u1";
                     expiresAt := 1500 + Auth.seven_days_ms |}
                  eq_refl eq_refl ltac:(vm_compute; discriminate)
                  eq_refl eq_refl eq_refl eq_refl)).
Defined.

(** ** Logout *)

(** X13: logout ends one session only.  Whatever the request and whatever
    the state of the database, it is answered 200 or 400, never 401 or
    500, and the row of every token value other than the presented one
    is left as it was. *)
Theorem logout_ends_one_session_only
    (req : Schemas.RefreshTokenRequest) (w : world) :
  (fst (AuthController.logout req w) = Return LoggedOut
   \/ fst (AuthController.logout req w) = Return ValidationError)
  /\ (forall t', Schemas.refreshToken_field req <> Some t' ->
                 stored t' (snd (AuthController.logout req w)) = stored t' w).
Proof.
  destruct (Schemas.refreshTokenSchema_parse req) as [t|err] eqn:Hp.
  - destruct (parse_inl_carrying req t Hp) as [-> Hne].
    split; [left; now apply logout_succeeds|].
    intros t' Hne'. assert (Hd : t <> t') by (intro; subst; now apply Hne').
    destruct (available RefreshToken_delete w) eqn:Ha.
    + rewrite (logout_run t w Hne Ha). cbn [snd].
      destruct (stored t w); [|reflexivity].
      unfold stored. cbn [refreshTokens set_refreshTokens].
      now apply find_without_other.
    + unfold AuthController.logout, try_catch, bind at 1.
      rewrite (parse_carrying t Hne). simpl. unfold bind.
      now rewrite (delete_run_outage t w Ha).
  - rewrite (logout_invalid_body req w err Hp). split; [now right|].
    reflexivity.
Qed.

(** ** The two middlewares *)

Lemma authenticateToken_run h w :
  Middleware.authenticateToken h w
  = (Return
       match h with
       | Some (Middleware.Bearer t) =>
           if Jwt.is_empty t
           then Middleware.unauthorized "MISSING_TOKEN"
                  "Access token is required"
           else
             match Auth.verifyAccessToken (env w) (clock w) t with
             | inr _ => Middleware.unauthorized "INVALID_TOKEN"
                          "Invalid or expired access token"
             | inl decoded =>
                 if available User_findUnique w then
                   match find (fun u => (id u =? Jwt.userId decoded)%string)
                           (users w) with
                   | None => Middleware.unauthorized "USER_NOT_FOUND"
                               "User associated with token no longer exists"
                   | Some u =>
                       Middleware.Next (UserService.without_password u)
                   end
                 else
                   Middleware.Responded
                     {| status := 500;
                        body := ErrorBody "AUTHENTICATION_ERROR"
                                  "Internal authentication error" |}
             end
       | _ => Middleware.unauthorized "MISSING_TOKEN"
                "Access token is required"
       end, w).
Proof.
  unfold Middleware.authenticateToken, try_catch.
  destruct h as [[t|s]|]; try reflexivity.
  destruct (Jwt.is_empty t); [reflexivity|].
  unfold bind, get_env, new_Date.
  destruct (Auth.verifyAccessToken (env w) (clock w) t) as [d|err];
    [|reflexivity].
  unfold Prisma.user_findUnique, Prisma.call.
  destruct (available User_findUnique w); [|reflexivity].
  now destruct (find _ _).
Qed.

Lemma optionalAuth_run h w :
  OptionalAuth.optionalAuth h w
  = (Return
       match h with
       | Some (Middleware.Bearer t) =>
           if Jwt.is_empty t then None
           else
             match Auth.verifyAccessToken (env w) (clock w) t with
             | inr _ => None
             | inl decoded =>
                 if available User_findUnique w then
                   match find (fun u => (id u =? Jwt.userId decoded)%string)
                           (users w) with
                   | None => None
                   | Some u => Some (UserService.without_password u)
                   end
                 else None
             end
       | _ => None
       end, w).
Proof.
  unfold OptionalAuth.optionalAuth, try_catch.
  destruct h as [[t|s]|]; try reflexivity.
  destruct (Jwt.is_empty t); [reflexivity|].
  unfold bind, get_env, new_Date.
  destruct (Auth.verifyAccessToken (env w) (clock w) t) as [d|err];
    [|reflexivity].
  unfold lift, ret, Prisma.user_findUnique, Prisma.call.
  destruct (available User_findUnique w); [|reflexivity].
  now destruct (find _ _).
Qed.

(** X14: the strict middleware reads and never writes.  It calls [next()]
    exactly when the header is a bearer token that verifies as an access
    token and whose subject the user table holds, and [req.user] is then
    that row without its password digest; every other request is
    answered 401, or 500 when the lookup itself fails; a request without
    a bearer token is answered MISSING_TOKEN even while the database is
    unreachable. *)
Theorem authenticateToken_admits_exactly
    (h : option Middleware.authorization) (w : world)
    (u : UserService.UserWithoutPassword) :
  snd (Middleware.authenticateToken h w) = w
  /\ (fst (Middleware.authenticateToken h w) = Return (Middleware.Next u)
      <-> exists t decoded row,
            h = Some (Middleware.Bearer t)
            /\ Auth.verifyAccessToken (env w) (clock w) t = inl decoded
            /\ available User_findUnique w = true
            /\ find (fun x => (id x =? Jwt.userId decoded)%string) (users w)
               = Some row
            /\ u = UserService.without_password row)
  /\ (forall r, fst (Middleware.authenticateToken h w)
                = Return (Middleware.Responded r) ->
                status r = 401 \/ status r = 500)
  /\ ((forall t, h = Some (Middleware.Bearer t) -> Jwt.is_empty t = true) ->
      fst (Middleware.authenticateToken h w)
      = Return (Middleware.unauthorized "MISSING_TOKEN"
                  "Access token is required")).
Proof.
  rewrite authenticateToken_run. cbn [fst snd].
  split; [reflexivity|]. split; [|split].
  - split.
    + destruct h as [[t|s]|]; try discriminate.
      destruct (Jwt.is_empty t); [discriminate|].
      destruct (Auth.verifyAccessToken (env w) (clock w) t) as [d|err] eqn:Hv;
        [|discriminate].
      destruct (available User_findUnique w) eqn:Ha; [|discriminate].
      destruct (find _ _) as [row|] eqn:Hu; [|discriminate].
      intro H. injection H as <-. exists t, d, row. repeat split; assumption.
    + intros [t [d [row [-> [Hv [Ha [Hu ->]]]]]]].
      assert (Hne : Jwt.is_empty t = false).
      { destruct t as [p k|s]; [reflexivity|].
        unfold Auth.verifyAccessToken in Hv. simpl in Hv.
        destruct (s =? "")%string; discriminate. }
      now rewrite Hne, Hv, Ha, Hu.
  - intros r. destruct h as [[t|s]|];
      try (intro H; injection H as <-; now left).
    destruct (Jwt.is_empty t); [intro H; injection H as <-; now left|].
    destruct (Auth.verifyAccessToken (env w) (clock w) t) as [d|err];
      [|intro H; injection H as <-; now left].
    destruct (available User_findUnique w);
      [|intro H; injection H as <-; now right].
    destruct (find _ _); [discriminate|].
    intro H; injection H as <-; now left.
  - intro Hm. destruct h as [[t|s]|]; try reflexivity.
    now rewrite (Hm t eq_refl).
Qed.

(** X15: the lenient middleware never answers a request and never
    writes: it always calls [next()], and it sets [req.user] to a user
    exactly when the strict middleware would admit the same request as
    that user. *)
Theorem optionalAuth_attaches_whom_the_strict_one_admits
    (h : option Middleware.authorization) (w : world)
    (u : UserService.UserWithoutPassword) :
  snd (OptionalAuth.optionalAuth h w) = w
  /\ (exists attached, fst (OptionalAuth.optionalAuth h w) = Return attached)
  /\ (fst (OptionalAuth.optionalAuth h w) = Return (Some u)
      <-> fst (Middleware.authenticateToken h w)
          = Return (Middleware.Next u)).
Proof.
  rewrite optionalAuth_run, authenticateToken_run. cbn [fst snd].
  split; [reflexivity|]. split; [eexists; reflexivity|].
  destruct h as [[t|s]|]; try (split; discriminate).
  destruct (Jwt.is_empty t); [split; discriminate|].
  destruct (Auth.verifyAccessToken (env w) (clock w) t) as [d|err];
    [|split; discriminate].
  destruct (available User_findUnique w); [|split; discriminate].
  destruct (find _ _); [|split; discriminate].
  split; intro H; injection H as <-; reflexivity.
Qed.

(** ** Registration *)

Lemma existsb_or_find_none {A} (f g : A -> bool) l :
  find f l = None -> find g l = None ->
  existsb (fun x => f x || g x) l = false.
Proof.
  induction l as [|x l IH]; simpl; [reflexivity|].
  destruct (f x); [discriminate|]. destruct (g x); [discriminate|].
  exact IH.
Qed.

(** No row of the table holds a token signed for the subject [uid]. *)
Lemma stored_none_for_new_subject w uid e t0 :
  (forall r p k, In r (refreshTokens w) -> token r = Jwt.Signed p k ->
                 Jwt.userId p <> uid) ->
  stored (Auth.generateRefreshToken e t0 uid) w = None.
Proof.
  intro Hnew. unfold stored.
  destruct (find _ _) as [r|] eqn:Hf; [|reflexivity].
  apply find_some in Hf. destruct Hf as [Hin Ht].
  unfold Prisma.has_token in Ht. apply token_eqb_eq in Ht.
  exfalso. exact (Hnew r _ _ Hin Ht eq_refl).
Qed.

Lemma register_run d w mail pw name_ :
  outage w = [] ->
  Register.insert_answers d = true ->
  find (fun x => (email x =? mail)%string) (users w) = None ->
  find (fun x => (id x =? Register.cuid d)%string) (users w) = None ->
  stored (Auth.generateRefreshToken (env w) (clock w) (Register.cuid d)) w
  = None ->
  let row := {| id := Register.cuid d; email := mail;
                password := Register.hashPassword d pw; user_name := name_;
                createdAt := clock w; updatedAt := clock w |} in
  let R := Auth.generateRefreshToken (env w) (clock w) (Register.cuid d) in
  Register.register d (Register.WellFormed mail pw name_) w
  = (Return {| status := 201;
               body := AuthBody (UserService.without_password row)
                         (Auth.generateAccessToken (env w) (clock w)
                            (Register.cuid d)) R |},
     set_refreshTokens
       (filter (fun r => negb ((userId r =? Register.cuid d)%string
                               && (expiresAt r <? clock w)))
          (refreshTokens w ++
           [{| token := R; userId := Register.cuid d;
               expiresAt := Auth.expiry w |}]))
       (Register.set_users (users w ++ [row]) w)).
Proof.
  intros Ho Hi Hmail Hid Hs row R.
  unfold Register.register, try_catch, bind at 1. simpl.
  unfold bind at 1. unfold Register.createUser, bind at 1.
  unfold Prisma.user_findUnique, Prisma.call.
  rewrite (available_all User_findUnique w Ho), Hmail.
  unfold Register.user_create. rewrite Hi. cbn [negb].
  rewrite (existsb_or_find_none _ _ _ Hid Hmail).
  unfold bind at 1. unfold get_env at 1. unfold bind at 1.
  unfold new_Date at 1. unfold bind at 1.
  cbn [UserService.pub_id UserService.without_password id env clock
       Register.set_users].
  fold row. fold R.
  rewrite (store_run (Register.cuid d) R
             (Register.set_users (users w ++ [row]) w));
    [| apply available_all; exact Ho
     | apply stored_none_exists; exact Hs].
  unfold bind at 1.
  unfold Auth.cleanupExpiredTokens, bind, new_Date,
    Prisma.refreshToken_deleteMany, Prisma.call.
  rewrite available_all by exact Ho. reflexivity.
Qed.

(** X16: a registration with an address and an id new to the user table
    answers 201 and adds the user.  From the next clock second on, a
    login with the same address answers 200 with the same user for the
    registered password and for every password from which bcrypt reads
    the same key, and 401 INVALID_CREDENTIALS for every other password.
    So a password of fewer than 72 bytes without a NUL byte admits no
    other such password, and a password of 72 bytes or more admits every
    password that shares its first 72 bytes. *)
Theorem register_then_login
    (d : Register.draw) (w : world) (mail pw name_ : string) (later : Z) :
  outage w = [] ->
  Register.insert_answers d = true ->
  find (fun x => (email x =? mail)%string) (users w) = None ->
  find (fun x => (id x =? Register.cuid d)%string) (users w) = None ->
  (forall r p k, In r (refreshTokens w) -> token r = Jwt.Signed p k ->
                 Jwt.userId p <> Register.cuid d) ->
  let row := {| id := Register.cuid d; email := mail;
                password := Register.hashPassword d pw; user_name := name_;
                createdAt := clock w; updatedAt := clock w |} in
  let registered := Register.register d (Register.WellFormed mail pw name_) w in
  let w1 := set_clock later (snd registered) in
  let welcome :=
    Return {| status := 200;
              body := AuthBody (UserService.without_password row)
                        (Auth.generateAccessToken (env w) later
                           (Register.cuid d))
                        (Auth.generateRefreshToken (env w) later
                           (Register.cuid d)) |} in
  fst registered
  = Return {| status := 201;
              body := AuthBody (UserService.without_password row)
                        (Auth.generateAccessToken (env w) (clock w)
                           (Register.cuid d))
                        (Auth.generateRefreshToken (env w) (clock w)
                           (Register.cuid d)) |}
  /\ users (snd registered) = (users w ++ [row])%list
  /\ (forall pw', bcrypt_key pw' = bcrypt_key pw ->
        Jwt.clockTimestamp later <> Jwt.clockTimestamp (clock w) ->
        fst (AuthController.login (Schemas.WellFormed mail pw') w1) = welcome)
  /\ (forall pw', bcrypt_key pw' <> bcrypt_key pw ->
        AuthController.login (Schemas.WellFormed mail pw') w1
        = (Return AuthController.InvalidCredentials, w1))
  /\ (forall pw',
        (String.length pw < 72)%nat -> (String.length pw' < 72)%nat ->
        no_NUL pw = true -> no_NUL pw' = true -> pw' <> pw ->
        AuthController.login (Schemas.WellFormed mail pw') w1
        = (Return AuthController.InvalidCredentials, w1))
  /\ (forall head tail tail',
        pw = (head ++ tail)%string -> String.length head = 72%nat ->
        Jwt.clockTimestamp later <> Jwt.clockTimestamp (clock w) ->
        fst (AuthController.login
               (Schemas.WellFormed mail (head ++ tail')%string) w1)
        = welcome).
Proof.
  intros Ho Hi Hmail Hid Hnew row registered w1 welcome.
  pose proof (register_run d w mail pw name_ Ho Hi Hmail Hid
                (stored_none_for_new_subject w _ _ _ Hnew)) as Hrun.
  cbv zeta in Hrun. fold row in Hrun.
  unfold w1, registered. rewrite Hrun. cbn [fst snd].
  split; [reflexivity|]. split; [reflexivity|].
  set (w2 := set_clock later _).
  assert (Hu : find (fun x => (email x =? mail)%string) (users w2) = Some row).
  { unfold w2. cbn [users set_clock set_refreshTokens Register.set_users].
    rewrite find_append, Hmail. cbn [find]. unfold row at 1. cbn [email].
    now rewrite String.eqb_refl. }
  assert (Hyes : forall pw', bcrypt_key pw' = bcrypt_key pw ->
             Jwt.clockTimestamp later <> Jwt.clockTimestamp (clock w) ->
             fst (AuthController.login (Schemas.WellFormed mail pw') w2)
             = welcome).
  { intros pw' Hkey Hsec.
    rewrite (login_run_accepted mail pw' w2 row); try assumption;
      try reflexivity.
    - unfold Auth.comparePassword, bcrypt_compare, row.
      cbn [password hashed Register.hashPassword bcrypt_hash].
      rewrite Hkey. apply String.eqb_refl.
    - unfold stored, w2.
      cbn [refreshTokens set_clock set_refreshTokens env clock id row].
      destruct (find _ (filter _ _)) as [r|] eqn:Hf; [|reflexivity].
      apply find_some in Hf. destruct Hf as [Hin Ht].
      apply filter_In in Hin. destruct Hin as [Hin _].
      unfold Prisma.has_token in Ht. apply token_eqb_eq in Ht.
      apply in_app_or in Hin. destruct Hin as [Hin|[<-|[]]].
      + exfalso. exact (Hnew r _ _ Hin Ht eq_refl).
      + exfalso. cbn [token] in Ht.
        unfold Auth.generateRefreshToken, Jwt.sign in Ht.
        injection Ht as Hiat. apply Hsec. symmetry. exact Hiat. }
  assert (Hno : forall pw', bcrypt_key pw' <> bcrypt_key pw ->
             AuthController.login (Schemas.WellFormed mail pw') w2
             = (Return AuthController.InvalidCredentials, w2)).
  { intros pw' Hpw. apply login_run_rejected.
    rewrite (authenticateUser_run mail pw' w2)
      by (apply available_all; exact Ho).
    rewrite Hu. unfold Auth.comparePassword, bcrypt_compare, row.
    cbn [password hashed Register.hashPassword bcrypt_hash].
    destruct (bcrypt_key pw' =? bcrypt_key pw)%string eqn:E; [|reflexivity].
    apply String.eqb_eq in E. contradiction. }
  split; [exact Hyes|]. split; [exact Hno|]. split.
  - intros pw' Hl Hl' Hn Hn' Hne. apply Hno. intro E. apply Hne.
    now apply bcrypt_key_short_inj.
  - intros head tail tail' Hpw Hl Hsec. apply Hyes; [|exact Hsec].
    rewrite Hpw. now apply bcrypt_key_long.
Qed.

(** X17: a registration with an address that is already in the user table
    answers 409 DUPLICATE_EMAIL and writes nothing: no user, no token. *)
Theorem register_rejects_a_taken_address
    (d : Register.draw) (w : world) (mail pw name_ : string) (u : User) :
  available User_findUnique w = true ->
  find (fun x => (email x =? mail)%string) (users w) = Some u ->
  Register.register d (Register.WellFormed mail pw name_) w
  = (Return Register.DuplicateEmail, w).
Proof.
  intros Ha Hu.
  unfold Register.register, try_catch, bind at 1. simpl.
  unfold bind at 1. unfold Register.createUser, bind at 1.
  unfold Prisma.user_findUnique, Prisma.call.
  now rewrite Ha, Hu.
Qed.

Lemma register_then_login_witness :
  let w1 := set_clock 2500
              (snd (Register.register bob_draw
                      (Register.WellFormed "bob@example.com" "Hunter2!!" "Bob")
                      Scenario.fresh)) in
  AuthController.login (Schemas.WellFormed "bob@example.com" "hunter2") w1
  = (Return AuthController.InvalidCredentials, w1).
Proof.
  refine (proj1 (proj2 (proj2 (proj2 (proj2
            (register_then_login bob_draw Scenario.fresh
               "bob@example.com" "Hunter2!!" "Bob" 2500
               eq_refl eq_refl eq_refl eq_refl _)))))
            "hunter2" _ _ eq_refl eq_refl _).
  - intros r p k Hin. destruct Hin.
  - simpl. lia.
  - simpl. lia.
  - discriminate.
Defined.

(** A password of 80 bytes, registered, and another that differs from it
    in the last eight bytes only: the login with the second one is
    answered 200. *)
Lemma login_accepts_a_password_that_shares_72_bytes :
  let long := "0123456789012345678901234567890123456789012345678901234567890123456789AB" in
  let w1 := set_clock 2500
              (snd (Register.register bob_draw
                      (Register.WellFormed "bob@example.com"
                         (long ++ "-correct") "Bob")
                      Scenario.fresh)) in
  String.length long = 72%nat
  /\ (long ++ "-another" <> long ++ "-correct")%string
  /\ exists b,
       fst (AuthController.login
              (Schemas.WellFormed "bob@example.com" (long ++ "-another")) w1)
       = Return {| status := 200; body := b |}.
Proof.
  cbv zeta. split; [reflexivity|]. split; [discriminate|].
  eexists. vm_compute. reflexivity.
Qed.

Lemma register_rejects_a_taken_address_witness :
  Register.register bob_draw
    (Register.WellFormed "alice@example.com" "Hunter2!!" "Bob") Scenario.fresh
  = (Return Register.DuplicateEmail, Scenario.fresh).
Proof.
  exact (register_rejects_a_taken_address bob_draw Scenario.fresh
           "alice@example.com" "Hunter2!!" "Bob" Scenario.alice
           eq_refl eq_refl).
Defined.

(** ** The routes *)

Lemma refresh_invalid_body req w err :
  Schemas.refreshTokenSchema_parse req = inr err ->
  AuthController.refreshToken req w = (Return ValidationError, w).
Proof.
  intro Hp. unfold AuthController.refreshToken, try_catch, bind at 1.
  rewrite Hp. apply parse_inr_zod in Hp. subst err. reflexivity.
Qed.

(** X18: behind [validateBody] and the error handler, the refresh and
    logout routes answer every body exactly as the bare handlers do: a
    body that fails the schema gets the same 400 VALIDATION_ERROR from
    the error handler, and a body that passes is handed on as it is. *)
Theorem validation_in_front_changes_no_answer
    (req : Schemas.RefreshTokenRequest) (w : world) :
  Pipeline.post_refresh req w = AuthController.refreshToken req w
  /\ Pipeline.post_logout req w = AuthController.logout req w.
Proof.
  unfold Pipeline.post_refresh, Pipeline.post_logout, Pipeline.route,
    Pipeline.validateBody.
  destruct (Schemas.refreshTokenSchema_parse req) as [t|err] eqn:Hp.
  - destruct (parse_inl_carrying req t Hp) as [-> _]. split; reflexivity.
  - rewrite (refresh_invalid_body req w err Hp),
      (logout_invalid_body req w err Hp).
    apply parse_inr_zod in Hp. subst err. split; reflexivity.
Qed.

(** ** The rate limiter *)

Lemma serve_cons maxR win ip now rest m :
  RateLimit.serve maxR win ((ip, now) :: rest) m
  = (fst (RateLimit.basicRateLimit maxR win ip now m)
     :: fst (RateLimit.serve maxR win rest
               (snd (RateLimit.basicRateLimit maxR win ip now m))),
     snd (RateLimit.serve maxR win rest
            (snd (RateLimit.basicRateLimit maxR win ip now m)))).
Proof.
  simpl. destruct (RateLimit.basicRateLimit maxR win ip now m) as [v m'].
  simpl. now destruct (RateLimit.serve maxR win rest m').
Qed.

(** Within an open window the remaining quota is spent in order, and
    what follows is refused. *)
Lemma quota_within_window maxR win ip (ts : list Z) :
  forall m d,
    m (or_else ip "unknown") = Some d ->
    (forall t, In t ts -> t <= RateLimit.resetTime d) ->
    let k := Nat.min (List.length ts)
               (Z.to_nat (maxR - RateLimit.count d)) in
    fst (RateLimit.serve maxR win (map (fun t => (ip, t)) ts) m)
    = (repeat RateLimit.Passed k
       ++ map (fun t =>
                 if RateLimit.is_time_value (RateLimit.resetTime d)
                 then RateLimit.TooManyRequests
                        (RateLimit.ceil_seconds (RateLimit.resetTime d - t))
                        (RateLimit.resetTime d)
                 else RateLimit.Threw RateLimit.RangeError)
            (skipn k ts))%list.
Proof.
  induction ts as [|t ts IH]; intros m d Hm Hts; [reflexivity|].
  cbv zeta. cbn [map]. rewrite serve_cons. cbn [fst].
  assert (Ht : (t >? RateLimit.resetTime d) = false).
  { rewrite Z.gtb_ltb. apply Z.ltb_ge. apply Hts. now left. }
  destruct (RateLimit.count d <? maxR) eqn:Hc.
  - assert (Hrun : RateLimit.basicRateLimit maxR win ip t m
                   = (RateLimit.Passed,
                      RateLimit.set (or_else ip "unknown")
                        {| RateLimit.count := RateLimit.count d + 1;
                           RateLimit.resetTime := RateLimit.resetTime d |} m)).
    { unfold RateLimit.basicRateLimit. now rewrite Hm, Ht, Hc. }
    rewrite Hrun. apply Z.ltb_lt in Hc. cbn [fst snd].
    rewrite (IH _ {| RateLimit.count := RateLimit.count d + 1;
                     RateLimit.resetTime := RateLimit.resetTime d |}).
    + cbn [RateLimit.count RateLimit.resetTime List.length].
      replace (Z.to_nat (maxR - RateLimit.count d))
        with (S (Z.to_nat (maxR - (RateLimit.count d + 1)))) by lia.
      reflexivity.
    + unfold RateLimit.set. now rewrite String.eqb_refl.
    + intros t' Hin. cbn [RateLimit.resetTime]. apply Hts. now right.
  - assert (Hrun : RateLimit.basicRateLimit maxR win ip t m
                   = (if RateLimit.is_time_value (RateLimit.resetTime d)
                      then RateLimit.TooManyRequests
                             (RateLimit.ceil_seconds
                                (RateLimit.resetTime d - t))
                             (RateLimit.resetTime d)
                      else RateLimit.Threw RateLimit.RangeError, m)).
    { unfold RateLimit.basicRateLimit. rewrite Hm, Ht, Hc.
      now destruct (RateLimit.is_time_value _). }
    rewrite Hrun. apply Z.ltb_ge in Hc. cbn [fst snd].
    rewrite (IH m d Hm) by (intros t' Hin; apply Hts; now right).
    replace (Z.to_nat (maxR - RateLimit.count d)) with O by lia.
    rewrite !Nat.min_0_r. reflexivity.
Qed.

(** X19: of the requests a client makes within one window, counted from
    the request that opens it, the first [maxRequests] are let through;
    the request that opens a window is let through even when
    [maxRequests] is zero or negative.  Every later request is answered
    429, with the time left as [Retry-After], when the end of the window
    is a time value of [Date]; when it lies beyond the range of [Date]
    the middleware throws a RangeError on each of them instead, while it
    builds the [X-RateLimit-Reset] header. *)
Theorem rate_limit_quota
    (maxR win : Z) (ip : option string) (t0 : Z) (ts : list Z)
    (m : RateLimit.counters) :
  (m (or_else ip "unknown") = None
   \/ exists d, m (or_else ip "unknown") = Some d
                /\ RateLimit.resetTime d < t0) ->
  (forall t, In t ts -> t <= t0 + win) ->
  let k := Nat.min (List.length ts) (Z.to_nat (maxR - 1)) in
  let verdicts :=
    fst (RateLimit.serve maxR win (map (fun t => (ip, t)) (t0 :: ts)) m) in
  (- 8640000000000000 <= t0 + win <= 8640000000000000 ->
   verdicts
   = (RateLimit.Passed :: repeat RateLimit.Passed k
      ++ map (fun t => RateLimit.TooManyRequests
                         (RateLimit.ceil_seconds (t0 + win - t)) (t0 + win))
           (skipn k ts))%list)
  /\ (8640000000000000 < t0 + win \/ t0 + win < - 8640000000000000 ->
      verdicts
      = (RateLimit.Passed :: repeat RateLimit.Passed k
         ++ map (fun _ => RateLimit.Threw
                            {| name := "RangeError";
                               message := "Invalid time value";
                               code := "" |})
              (skipn k ts))%list).
Proof.
  intros Hopen Hts k verdicts. unfold verdicts. clear verdicts.
  cbn [map]. rewrite serve_cons. cbn [fst].
  assert (Hfirst : RateLimit.basicRateLimit maxR win ip t0 m
                   = (RateLimit.Passed,
                      RateLimit.set (or_else ip "unknown")
                        {| RateLimit.count := 1;
                           RateLimit.resetTime := t0 + win |} m)).
  { unfold RateLimit.basicRateLimit.
    destruct Hopen as [Hn|[d [Hd Hlt]]].
    - now rewrite Hn.
    - rewrite Hd. replace (t0 >? RateLimit.resetTime d) with true;
        [reflexivity|]. symmetry. rewrite Z.gtb_ltb. now apply Z.ltb_lt. }
  rewrite Hfirst. cbn [fst snd].
  rewrite (quota_within_window maxR win ip ts _
             {| RateLimit.count := 1; RateLimit.resetTime := t0 + win |});
    [| unfold RateLimit.set; now rewrite String.eqb_refl | exact Hts].
  cbn [RateLimit.count RateLimit.resetTime]. fold k.
  split; intro Hrange.
  - assert (Hv : RateLimit.is_time_value (t0 + win) = true).
    { unfold RateLimit.is_time_value, RateLimit.maxTime.
      apply andb_true_iff. split; apply Z.leb_le; lia. }
    now rewrite Hv.
  - assert (Hv : RateLimit.is_time_value (t0 + win) = false).
    { unfold RateLimit.is_time_value, RateLimit.maxTime.
      apply andb_false_iff.
      destruct Hrange; [right | left]; apply Z.leb_gt; lia. }
    now rewrite Hv.
Qed.

Lemma rate_limit_quota_witness :
  fst (RateLimit.serve 2 900000
         (map (fun t => (Some "10.0.0.1", t)) [0; 10; 20; 900000])
         RateLimit.empty)
  = [RateLimit.Passed; RateLimit.Passed;
     RateLimit.TooManyRequests 900 900000;
     RateLimit.TooManyRequests 0 900000].
Proof.
  refine (proj1 (rate_limit_quota 2 900000 (Some "10.0.0.1") 0
                   [10; 20; 900000] RateLimit.empty (or_introl eq_refl) _) _).
  - intros t Hin. simpl in Hin.
    repeat (destruct Hin as [<-|Hin]; [lia|]). destruct Hin.
  - lia.
Defined.

Lemma limiter_reads_one_entry maxR win ip now m m' :
  m (or_else ip "unknown") = m' (or_else ip "unknown") ->
  fst (RateLimit.basicRateLimit maxR win ip now m)
  = fst (RateLimit.basicRateLimit maxR win ip now m')
  /\ snd (RateLimit.basicRateLimit maxR win ip now m) (or_else ip "unknown")
     = snd (RateLimit.basicRateLimit maxR win ip now m') (or_else ip "unknown").
Proof.
  intro H. unfold RateLimit.basicRateLimit. rewrite <- H.
  destruct (m (or_else ip "unknown")) as [d|] eqn:Hd.
  - destruct (now >? RateLimit.resetTime d);
      [|destruct (RateLimit.count d <? maxR);
        [|destruct (RateLimit.is_time_value (RateLimit.resetTime d))]];
      cbn [fst snd];
      unfold RateLimit.set; rewrite ?String.eqb_refl;
      split; try reflexivity; now rewrite <- H, Hd.
  - cbn [fst snd]. unfold RateLimit.set. rewrite String.eqb_refl.
    split; reflexivity.
Qed.

Lemma limiter_writes_one_entry maxR win ip now m c :
  c <> or_else ip "unknown" ->
  snd (RateLimit.basicRateLimit maxR win ip now m) c = m c.
Proof.
  intro Hne. apply String.eqb_neq in Hne.
  unfold RateLimit.basicRateLimit.
  destruct (m (or_else ip "unknown")) as [d|].
  - destruct (now >? RateLimit.resetTime d);
      [|destruct (RateLimit.count d <? maxR);
        [|destruct (RateLimit.is_time_value (RateLimit.resetTime d))]];
      cbn [snd]; unfold RateLimit.set; rewrite ?Hne; reflexivity.
  - cbn [snd]. unfold RateLimit.set. now rewrite Hne.
Qed.

Lemma of_client_cons c ip now reqs :
  RateLimit.of_client c ((ip, now) :: reqs)
  = if (or_else ip "unknown" =? c)%string
    then (ip, now) :: RateLimit.of_client c reqs
    else RateLimit.of_client c reqs.
Proof. reflexivity. Qed.

Lemma verdicts_of_cons c ip now reqs v vs :
  RateLimit.verdicts_of c ((ip, now) :: reqs) (v :: vs)
  = if (or_else ip "unknown" =? c)%string
    then v :: RateLimit.verdicts_of c reqs vs
    else RateLimit.verdicts_of c reqs vs.
Proof.
  unfold RateLimit.verdicts_of. cbn [combine filter].
  unfold RateLimit.clientId at 1. cbn [fst].
  now destruct (or_else ip "unknown" =? c)%string.
Qed.

(** X20: the limiter keeps its clients apart.  In any sequence of
    requests, the verdicts a client gets and the counter it is left with
    are those it would get if its own requests were the only ones. *)
Theorem rate_limit_clients_do_not_interfere
    (maxR win : Z) (c : string) (reqs : list (option string * Z))
    (m : RateLimit.counters) :
  RateLimit.verdicts_of c reqs (fst (RateLimit.serve maxR win reqs m))
  = fst (RateLimit.serve maxR win (RateLimit.of_client c reqs) m)
  /\ snd (RateLimit.serve maxR win reqs m) c
     = snd (RateLimit.serve maxR win (RateLimit.of_client c reqs) m) c.
Proof.
  assert (H : forall m m', m c = m' c ->
    RateLimit.verdicts_of c reqs (fst (RateLimit.serve maxR win reqs m))
    = fst (RateLimit.serve maxR win (RateLimit.of_client c reqs) m')
    /\ snd (RateLimit.serve maxR win reqs m) c
       = snd (RateLimit.serve maxR win (RateLimit.of_client c reqs) m') c).
  { induction reqs as [|[ip now] reqs IH]; intros m1 m2 Hm.
    - split; [reflexivity | exact Hm].
    - rewrite serve_cons. cbn [fst snd].
      rewrite verdicts_of_cons, of_client_cons.
      destruct (or_else ip "unknown" =? c)%string eqn:E.
      + apply String.eqb_eq in E. subst c.
        destruct (limiter_reads_one_entry maxR win ip now m1 m2 Hm)
          as [Hv Hc].
        rewrite serve_cons. cbn [fst snd].
        destruct (IH _ _ Hc) as [IH1 IH2].
        now rewrite Hv, IH1, IH2.
      + apply String.eqb_neq in E.
        apply IH. rewrite limiter_writes_one_entry; [exact Hm|].
        congruence. }
  now apply H.
Qed.

Lemma ceil_seconds_bounds a :
  1000 * (RateLimit.ceil_seconds a - 1) < a <= 1000 * RateLimit.ceil_seconds a.
Proof.
  unfold RateLimit.ceil_seconds.
  pose proof (Z.div_mod (- a) 1000 ltac:(lia)).
  pose proof (Z.mod_pos_bound (- a) 1000 ltac:(lia)).
  lia.
Qed.

(** X21: a refused request changes no counter, and its [Retry-After] is
    the time left until the reset instant, rounded up to whole seconds;
    the client is refused again at every instant up to the reset instant
    itself, and let through at the first request strictly after it. *)
Theorem refused_until_after_the_reset
    (maxR win : Z) (ip : option string) (now : Z) (m m' : RateLimit.counters)
    (retryAfter reset : Z) :
  RateLimit.basicRateLimit maxR win ip now m
  = (RateLimit.TooManyRequests retryAfter reset, m') ->
  m' = m
  /\ now <= reset
  /\ 0 <= retryAfter
  /\ 1000 * (retryAfter - 1) < reset - now <= 1000 * retryAfter
  /\ (forall t, RateLimit.passed
                  (fst (RateLimit.basicRateLimit maxR win ip t m)) = true
                <-> reset < t).
Proof.
  unfold RateLimit.basicRateLimit.
  destruct (m (or_else ip "unknown")) as [d|] eqn:Hd; [|discriminate].
  destruct (now >? RateLimit.resetTime d) eqn:Ht; [discriminate|].
  destruct (RateLimit.count d <? maxR) eqn:Hc; [discriminate|].
  destruct (RateLimit.is_time_value (RateLimit.resetTime d)) eqn:Hv;
    [|discriminate].
  intro H. injection H as <- <- <-.
  rewrite Z.gtb_ltb in Ht. apply Z.ltb_ge in Ht.
  pose proof (ceil_seconds_bounds (RateLimit.resetTime d - now)) as Hb.
  repeat split; try lia.
  - destruct (t >? RateLimit.resetTime d) eqn:Et.
    + intros _. rewrite Z.gtb_ltb in Et. now apply Z.ltb_lt in Et.
    + discriminate.
  - intro Hlt. replace (t >? RateLimit.resetTime d) with true;
      [reflexivity|]. symmetry. rewrite Z.gtb_ltb. now apply Z.ltb_lt.
Qed.

Lemma refused_until_after_the_reset_witness :
  let m := snd (RateLimit.serve 1 900000 [(None, 0)] RateLimit.empty) in
  RateLimit.passed
    (fst (RateLimit.basicRateLimit 1 900000 None 900000 m)) = false
  /\ RateLimit.passed
       (fst (RateLimit.basicRateLimit 1 900000 None 900001 m)) = true.
Proof.
  intro m.
  destruct (refused_until_after_the_reset 1 900000 None 899000 m m 1 900000
              eq_refl) as [_ [_ [_ [_ Hiff]]]].
  split.
  - destruct (RateLimit.passed _) eqn:E; [|reflexivity].
    apply Hiff in E. lia.
  - apply Hiff. lia.
Defined.

(** * Further properties of the client side *)

(** X22: a pair stored at [t0] is read back as it was stored, each token
    until the expiry of its cookie and absent from then on; an empty
    token reads as absent; and after [clearTokens] both are absent at
    once.  A cookie expires at the beginning of the second in which its
    time is up: the access token at most fifteen minutes and the refresh
    token at most seven days after [t0], and either of them less than a
    second before that. *)
Theorem stored_pair_is_read_back_until_it_expires
    (t0 t : Z) (access refresh : string) (j : jar) :
  let access_expiry := (t0 + 15 * 60 * 1000) / 1000 * 1000 in
  let refresh_expiry := (t0 + 7 * 24 * 60 * 60 * 1000) / 1000 * 1000 in
  ClientAuth.getCurrentUser t (setTokens t0 access refresh j)
  = (if (t <? access_expiry) && negb (access =? "")%string
     then Some access else None,
     if (t <? refresh_expiry) && negb (refresh =? "")%string
     then Some refresh else None)
  /\ ClientAuth.getCurrentUser t (clearTokens (setTokens t0 access refresh j))
     = (None, None)
  /\ t0 + 15 * 60 * 1000 - 1000 < access_expiry <= t0 + 15 * 60 * 1000
  /\ t0 + 7 * 24 * 60 * 60 * 1000 - 1000 < refresh_expiry
     <= t0 + 7 * 24 * 60 * 60 * 1000.
Proof.
  intros access_expiry refresh_expiry.
  unfold ClientAuth.getCurrentUser, getAccessToken, getRefreshToken,
    setTokens, clearTokens, Cookies_get, or_null.
  cbn [accessToken refreshToken value expires].
  change (day / 96) with (15 * 60 * 1000).
  change (7 * day) with (7 * 24 * 60 * 60 * 1000).
  fold (toUTCString (t0 + 15 * 60 * 1000)) in access_expiry.
  fold (toUTCString (t0 + 7 * 24 * 60 * 60 * 1000)) in refresh_expiry.
  fold access_expiry refresh_expiry.
  split; [|split; [reflexivity|]].
  - destruct (t <? access_expiry), (t <? refresh_expiry),
      (access =? "")%string, (refresh =? "")%string; reflexivity.
  - split; [apply (toUTCString_bounds (t0 + 15 * 60 * 1000))
           | apply (toUTCString_bounds (t0 + 7 * 24 * 60 * 60 * 1000))].
Qed.

(** A pair stored a second and a half after the epoch: the access
    token is still read at 900.999 s and gone at 901 s, half a second
    before its fifteen minutes are over. *)
Lemma access_cookie_is_gone_within_the_last_second :
  ClientAuth.getCurrentUser 900999 (setTokens 1500 "A" "R" access_only)
  = (Some "A", Some "R")
  /\ ClientAuth.getCurrentUser 901000 (setTokens 1500 "A" "R" access_only)
     = (None, Some "R").
Proof. split; reflexivity. Qed.

(** X23: [enhanceError] marks an error as a network error exactly when it
    carries no response, and never changes an error that carries one; a
    network error is also marked as a timeout when its code is
    ECONNABORTED or its message contains "timeout"; and marking twice is
    marking once. *)
Theorem enhanceError_marks_network_errors (e : ClientAuth.AxiosError) :
  ClientAuth.isNetworkError e = false ->
  ClientAuth.isTimeoutError e = false ->
  let e' := ClientAuth.enhanceError e in
  (ClientAuth.isNetworkError e' = true <-> ClientAuth.response e = None)
  /\ (ClientAuth.response e <> None -> e' = e)
  /\ (ClientAuth.isTimeoutError e' = true
      <-> ClientAuth.response e = None
          /\ (ClientAuth.error_code e = Some "ECONNABORTED"
              \/ includes "timeout" (ClientAuth.error_message e) = true))
  /\ ClientAuth.enhanceError e' = e'.
Proof.
  intros Hn Ht. unfold ClientAuth.enhanceError.
  destruct e as [resp c msg n tmo]. cbn in Hn, Ht. subst n tmo.
  cbn [ClientAuth.response ClientAuth.error_code ClientAuth.error_message
       ClientAuth.isNetworkError ClientAuth.isTimeoutError].
  destruct resp as [s|].
  - cbn. repeat split; try discriminate; try reflexivity.
    intros [H _]. discriminate.
  - cbn [ClientAuth.isNetworkError ClientAuth.isTimeoutError
         ClientAuth.response ClientAuth.error_code ClientAuth.error_message].
    split; [split; reflexivity|]. split; [intro H; now elim H|].
    split.
    + split.
      * intro H. split; [reflexivity|].
        destruct c as [c|].
        -- destruct (c =? "ECONNABORTED")%string eqn:E.
           ++ left. apply String.eqb_eq in E. now subst.
           ++ right. simpl in H. now destruct (includes "timeout" msg).
        -- right. simpl in H. now destruct (includes "timeout" msg).
      * intros [_ [H|H]].
        -- rewrite H, String.eqb_refl. reflexivity.
        -- rewrite H, orb_true_r. reflexivity.
    + destruct (match c with
                | Some c0 => (c0 =? "ECONNABORTED")%string
                | None => false
                end || includes "timeout" msg); reflexivity.
Qed.

Lemma enhanceError_marks_network_errors_witness :
  ClientAuth.isTimeoutError
    (ClientAuth.enhanceError
       {| ClientAuth.response := None;
          ClientAuth.error_code := Some "ECONNABORTED";
          ClientAuth.error_message := "timeout of 10000ms exceeded";
          ClientAuth.isNetworkError := false;
          ClientAuth.isTimeoutError := false |}) = true.
Proof.
  apply (proj1 (proj2 (proj2 (enhanceError_marks_network_errors
           {| ClientAuth.response := None;
              ClientAuth.error_code := Some "ECONNABORTED";
              ClientAuth.error_message := "timeout of 10000ms exceeded";
              ClientAuth.isNetworkError := false;
              ClientAuth.isTimeoutError := false |} eq_refl eq_refl)))).
  split; [reflexivity | left; reflexivity].
Defined.

(** ** Retrying *)

Lemma request_interceptor_keeps_retry t j c :
  _retry (request_interceptor t j c) = _retry c.
Proof.
  unfold request_interceptor. now destruct (getAccessToken t j).
Qed.

Lemma marked_wake a wt :
  ClientAuth.marked a ->
  _retry (original wt) = true ->
  ClientAuth.marked (wake a wt).
Proof.
  intros [Hs Hf] Hwt. unfold wake.
  destruct (settled a (promise wt)) as [[tok|e]|].
  - unfold resume. split.
    + intros x Hin. apply Hs. now destruct (owner wt).
    + intros c cfg Hin.
      assert (Hin' : In (c, Reissued cfg)
                       (finished a ++
                        [(request wt,
                          Reissued
                            (request_interceptor (now a) (cookies a)
                               (set_Authorization ("Bearer " ++ tok)
                                  (original wt))))])%list)
        by (destruct (owner wt); exact Hin).
      apply in_app_or in Hin'. destruct Hin' as [Hin'|[Heq|[]]].
      * now apply (Hf c).
      * injection Heq as _ <-.
        rewrite request_interceptor_keeps_retry. exact Hwt.
  - unfold resume. split.
    + intros x Hin. apply Hs. now destruct (owner wt).
    + intros c cfg Hin.
      assert (Hin' : In (c, Reissued cfg)
                       (finished a ++ [(request wt, Failed e)])%list)
        by (destruct (owner wt); exact Hin).
      apply in_app_or in Hin'. destruct Hin' as [Hin'|[Heq|[]]].
      * now apply (Hf c).
      * discriminate.
  - split.
    + intros x Hin. cbn in Hin. apply in_app_or in Hin.
      destruct Hin as [Hin|[<-|[]]]; [now apply Hs | exact Hwt].
    + exact Hf.
Qed.

Lemma marked_fold_wake l :
  forall a,
    ClientAuth.marked a ->
    (forall wt, In wt l -> _retry (original wt) = true) ->
    ClientAuth.marked (fold_left wake l a).
Proof.
  induction l as [|wt l IH]; intros a Ha Hl; [exact Ha|].
  cbn [fold_left]. apply IH.
  - apply marked_wake; [exact Ha | apply Hl; now left].
  - intros x Hin. apply Hl. now right.
Qed.

Lemma marked_handle ev a :
  ClientAuth.marked a -> ClientAuth.marked (handle ev a).
Proof.
  intros [Hs Hf]. destruct ev as [c status cfg e|p r|dt]; cbn [handle].
  - unfold response_error.
    assert (Hfail : ClientAuth.marked (finish c (Failed e) a)).
    { split; [exact Hs|]. intros c' cfg' Hin. cbn in Hin.
      apply in_app_or in Hin. destruct Hin as [Hin|[Heq|[]]];
        [now apply (Hf c') | discriminate]. }
    destruct status as [s|]; [|exact Hfail].
    destruct ((s =? 401) && negb (_retry cfg)); [|exact Hfail].
    unfold refreshAccessToken, performTokenRefresh.
    destruct (refreshPromise a);
      [|destruct (getRefreshToken (now a) (cookies a))];
      (split; [|exact Hf]); intros x Hin; cbn in Hin;
      apply in_app_or in Hin; destruct Hin as [Hin|[<-|[]]];
      try (now apply Hs); reflexivity.
  - unfold performTokenRefresh_resume.
    destruct (nth_error (promises a) p) as [[s|]|]; try (split; assumption).
    destruct r; split; assumption.
  - split; assumption.
Qed.

(** X24: no request is retried twice.  From a client with nothing
    pending, whatever the browser delivers, every interceptor that waits
    for a refresh and every request that has been sent again carries the
    [_retry] mark; and a 401 met by a request that carries the mark
    neither starts nor joins a refresh: the error is passed on to the
    caller and no POST is made. *)
Theorem a_request_is_retried_at_most_once
    (evs : list event) (a : agent) :
  suspended a = [] ->
  (forall c cfg, In (c, Reissued cfg) (finished a) -> _retry cfg = true) ->
  ClientAuth.marked (run evs a)
  /\ (forall c cfg e,
        _retry cfg = true ->
        handle (ResponseError c (Some 401) cfg e) (run evs a)
        = finish c (Failed e) (run evs a)).
Proof.
  intros Hs Hf. split.
  - assert (H0 : ClientAuth.marked a).
    { split; [rewrite Hs; intros wt []| exact Hf]. }
    clear Hs Hf. revert a H0.
    induction evs as [|ev evs IH]; intros a H0; [exact H0|].
    rewrite run_cons. apply IH. unfold step, drain.
    destruct (marked_handle ev a H0) as [Hs' Hf'].
    apply marked_fold_wake; [|exact Hs'].
    split; [intros wt []| exact Hf'].
  - intros c cfg e Hr. cbn [handle]. unfold response_error.
    rewrite Hr. now rewrite andb_false_r.
Qed.

Lemma a_request_is_retried_at_most_once_witness :
  let a := run (map unauthorized [(1%nat, blank); (2%nat, blank)]
                ++ [RefreshReply 0 (Tokens "A1" "R1")]) idle in
  finished a
  = [(1%nat, Reissued {| url := "/api/tasks";
                         Authorization := Some "Bearer A1";
                         _retry := true |});
     (2%nat, Reissued {| url := "/api/tasks";
                         Authorization := Some "Bearer A1";
                         _retry := true |})]
  /\ ClientAuth.marked a.
Proof.
  split; [reflexivity|].
  apply (a_request_is_retried_at_most_once
           (map unauthorized [(1%nat, blank); (2%nat, blank)]
            ++ [RefreshReply 0 (Tokens "A1" "R1")]) idle eq_refl).
  intros c cfg [].
Defined.

(** ** Logout while a refresh is in flight *)

Lemma cookies_fold_wake_fulfilled p tok (l : list waiter) :
  forall acc,
    settled acc p = Some (Fulfilled tok) ->
    (forall wt, In wt l -> promise wt = p) ->
    cookies (fold_left wake l acc) = cookies acc
    /\ now (fold_left wake l acc) = now acc.
Proof.
  induction l as [|wt l IH]; intros acc Hs Hp; [split; reflexivity|].
  cbn [fold_left]. unfold wake at 2 4.
  rewrite (Hp wt (or_introl eq_refl)), Hs.
  destruct (IH (resume wt (Fulfilled tok) acc)) as [Hc Hn].
  - unfold resume. now destruct (owner wt).
  - intros x Hin. apply Hp. now right.
  - rewrite Hc, Hn. unfold resume. now destruct (owner wt).
Qed.

(** X25: logout does not cancel a refresh in flight.  When [auth.logout]
    has cleared the pair while the answer to a refresh is still awaited,
    nothing is stored at first; but the answer, once it arrives, stores
    the new pair, so that the client holds a refresh token again after
    having logged out. *)
Theorem logout_does_not_cancel_a_refresh_in_flight
    (a : agent) (p : nat) (access refresh : string) :
  in_flight p a ->
  refresh <> ""%string ->
  let a1 := ClientAuth.auth_logout_done a in
  let a2 := step a1 (RefreshReply p (Tokens access refresh)) in
  ClientAuth.getCurrentUser (now a1) (cookies a1) = (None, None)
  /\ getRefreshToken (now a2) (cookies a2) = Some refresh
  /\ cookies a2 = setTokens (now a) access refresh (cookies a1).
Proof.
  intros [Hm [Hn Hw]] Hne a1 a2.
  split; [reflexivity|].
  assert (Hc : cookies a2 = setTokens (now a) access refresh (cookies a1)
               /\ now a2 = now a).
  { unfold a2, step, handle, performTokenRefresh_resume.
    unfold a1, ClientAuth.auth_logout_done. cbn [promises set_cookies].
    rewrite Hn. unfold drain. fields.
    match goal with
    | |- context [fold_left wake (suspended a) ?acc] =>
        destruct (cookies_fold_wake_fulfilled p access (suspended a) acc)
          as [H1 H2]
    end.
    - unfold settled. fields.
      clear - Hn. revert p Hn.
      induction (promises a) as [|x l IH]; intros [|p] Hn;
        try discriminate; cbn in *.
      + reflexivity.
      + now apply IH.
    - exact Hw.
    - rewrite H1, H2. split; reflexivity. }
  destruct Hc as [Hc Hnow]. split; [|exact Hc].
  rewrite Hc, Hnow. unfold getRefreshToken, setTokens, Cookies_get.
  cbn [refreshToken expires value].
  rewrite fresh_refresh_cookie. unfold or_null.
  destruct (refresh =? "")%string eqn:E; [|reflexivity].
  apply String.eqb_eq in E. contradiction.
Qed.

Lemma logout_does_not_cancel_a_refresh_in_flight_witness :
  let waiting := run [unauthorized (1%nat, blank)] idle in
  let a2 := step (ClientAuth.auth_logout_done waiting)
              (RefreshReply 0 (Tokens "A1" "R1")) in
  getRefreshToken (now a2) (cookies a2) = Some "R1".
Proof.
  refine (proj1 (proj2 (logout_does_not_cancel_a_refresh_in_flight
            (run [unauthorized (1%nat, blank)] idle) 0 "A1" "R1" _ _))).
  - repeat split. intros wt [<-|[]]. reflexivity.
  - discriminate.
Defined.

(** * Properties of the task service *)

Lemma owner_of_unique_id uid k table t :
  NoDup (map Tasks.id table) ->
  Tasks.getTaskById uid k table = Some t ->
  forall t', In t' table -> Tasks.id t' = k -> t' = t.
Proof.
  unfold Tasks.getTaskById. intros Hnd Hf.
  apply find_some in Hf. destruct Hf as [Hin Hk].
  apply andb_true_iff in Hk. destruct Hk as [Hk _].
  apply String.eqb_eq in Hk.
  clear uid. revert Hnd Hin. induction table as [|x l IH]; [intros _ []|].
  cbn [map]. intros Hnd Hin t' Hin' Hk'.
  inversion Hnd as [|? ? Hnin Hl]. subst.
  destruct Hin as [->|Hin], Hin' as [->|Hin']; try reflexivity.
  - exfalso. apply Hnin. apply in_map_iff. exists t'. split; [|exact Hin'].
    congruence.
  - exfalso. apply Hnin. apply in_map_iff. exists t. split; [|exact Hin].
    congruence.
  - now apply IH.
Qed.

Lemma own_task uid k table t :
  Tasks.getTaskById uid k table = Some t ->
  In t table /\ Tasks.id t = k /\ Tasks.userId t = uid.
Proof.
  unfold Tasks.getTaskById. intro Hf. apply find_some in Hf.
  destruct Hf as [Hin Hk]. apply andb_true_iff in Hk.
  destruct Hk as [Hk Hu]. apply String.eqb_eq in Hk, Hu. auto.
Qed.

Lemma of_others_update uid k data table :
  (forall x, In x table -> Tasks.id x = k -> Tasks.userId x = uid) ->
  (forall x, Tasks.userId (data x) = Tasks.userId x) ->
  Tasks.of_others uid (Tasks.task_update k data table)
  = Tasks.of_others uid table.
Proof.
  intros Hown Hdata. unfold Tasks.of_others, Tasks.task_update.
  induction table as [|x l IH]; [reflexivity|].
  cbn [map filter].
  rewrite IH by (intros y Hy; apply Hown; now right).
  destruct (Tasks.id x =? k)%string eqn:E; [|reflexivity].
  apply String.eqb_eq in E.
  rewrite Hdata, (Hown x (or_introl eq_refl) E), String.eqb_refl.
  reflexivity.
Qed.

Lemma of_others_delete uid k table :
  (forall x, In x table -> Tasks.id x = k -> Tasks.userId x = uid) ->
  Tasks.of_others uid (Tasks.task_delete k table)
  = Tasks.of_others uid table.
Proof.
  intros Hown. unfold Tasks.of_others, Tasks.task_delete.
  induction table as [|x l IH]; [reflexivity|].
  cbn [filter].
  destruct (Tasks.id x =? k)%string eqn:E; cbn [negb filter].
  - apply String.eqb_eq in E.
    rewrite (Hown x (or_introl eq_refl) E), String.eqb_refl. cbn [negb].
    apply IH. intros y Hy. apply Hown. now right.
  - rewrite IH by (intros y Hy; apply Hown; now right). reflexivity.
Qed.

Lemma find_updated k data table t :
  (forall x, Tasks.id (data x) = Tasks.id x) ->
  find (fun x => (Tasks.id x =? k)%string) table = Some t ->
  find (fun x => (Tasks.id x =? k)%string) (Tasks.task_update k data table)
  = Some (data t).
Proof.
  intros Hid. unfold Tasks.task_update.
  induction table as [|x l IH]; [discriminate|].
  cbn [map find]. destruct (Tasks.id x =? k)%string eqn:E.
  - intro H. injection H as ->. now rewrite Hid, E.
  - rewrite E. exact IH.
Qed.

Lemma getTaskById_of_find_by_id uid k table t :
  find (fun x => (Tasks.id x =? k)%string) table = Some t ->
  Tasks.userId t = uid ->
  Tasks.getTaskById uid k table = Some t.
Proof.
  unfold Tasks.getTaskById. intros Hf Hu.
  induction table as [|x l IH]; [discriminate|].
  cbn [find] in *. destruct (Tasks.id x =? k)%string.
  - injection Hf as ->. now rewrite Hu, String.eqb_refl.
  - cbn [andb]. now apply IH.
Qed.

Lemma find_by_id_of_own uid k table t :
  NoDup (map Tasks.id table) ->
  Tasks.getTaskById uid k table = Some t ->
  find (fun x => (Tasks.id x =? k)%string) table = Some t.
Proof.
  intros Hnd Hf.
  destruct (own_task uid k table t Hf) as [Hin [Hk _]].
  destruct (find (fun x => (Tasks.id x =? k)%string) table) as [t'|] eqn:E.
  - apply find_some in E. destruct E as [Hin' Hk'].
    apply String.eqb_eq in Hk'.
    now rewrite (owner_of_unique_id uid k table t Hnd Hf t' Hin' Hk').
  - apply (find_none _ _ E) in Hin. apply String.eqb_neq in Hin.
    contradiction.
Qed.

(** X26: with ids unique in the task table, what a user does to a task
    stays within that user's tasks.  An update, a toggle or a deletion
    asked for by [uid] leaves the tasks of every other user exactly as
    they were; and when the task does not exist or belongs to someone
    else, the operation returns null or false and changes
    nothing at all. *)
Theorem task_operations_touch_only_own_tasks
    (uid taskId : string) (updates : Tasks.UpdateTaskRequest) (now : Z)
    (table : list Tasks.Task) :
  NoDup (map Tasks.id table) ->
  (Tasks.of_others uid
     (snd (Tasks.updateTask uid taskId updates now table))
   = Tasks.of_others uid table
   /\ Tasks.of_others uid (snd (Tasks.toggleTaskStatus uid taskId now table))
      = Tasks.of_others uid table
   /\ Tasks.of_others uid (snd (Tasks.deleteTask uid taskId table))
      = Tasks.of_others uid table)
  /\ (Tasks.getTaskById uid taskId table = None ->
      Tasks.updateTask uid taskId updates now table = (None, table)
      /\ Tasks.toggleTaskStatus uid taskId now table = (None, table)
      /\ Tasks.deleteTask uid taskId table = (false, table)).
Proof.
  intro Hnd.
  unfold Tasks.updateTask, Tasks.toggleTaskStatus, Tasks.deleteTask.
  destruct (Tasks.getTaskById uid taskId table) as [t|] eqn:Hf.
  - assert (Hown : forall x, In x table -> Tasks.id x = taskId ->
                             Tasks.userId x = uid).
    { intros x Hx Hk.
      rewrite (owner_of_unique_id uid taskId table t Hnd Hf x Hx Hk).
      apply (own_task uid taskId table t Hf). }
    split; [|discriminate]. cbn [snd]. split; [|split].
    + now apply of_others_update.
    + now apply of_others_update.
    + now apply of_others_delete.
  - split; [repeat split|]. intros _. repeat split.
Qed.

Lemma task_operations_touch_only_own_tasks_witness :
  Tasks.of_others "u1" (snd (Tasks.deleteTask "u1" "t1" Tasks.sample))
  = Tasks.of_others "u1" Tasks.sample
  /\ Tasks.deleteTask "u1" "t2" Tasks.sample = (false, Tasks.sample).
Proof.
  assert (Hnd : NoDup (map Tasks.id Tasks.sample)).
  { repeat constructor; simpl; intuition discriminate. }
  destruct (task_operations_touch_only_own_tasks "u1" "t1"
              {| Tasks.new_title := None; Tasks.new_description := None;
                 Tasks.new_status := None |} 0 Tasks.sample Hnd)
    as [[_ [_ H1]] _].
  destruct (task_operations_touch_only_own_tasks "u1" "t2"
              {| Tasks.new_title := None; Tasks.new_description := None;
                 Tasks.new_status := None |} 0 Tasks.sample Hnd)
    as [_ H2].
  split; [exact H1 | exact (proj2 (proj2 (H2 eq_refl)))].
Defined.

(** X27: toggling a task of one's own twice gives back the status it
    had, for the two statuses the schema admits, and touches nothing of
    the task but the status and [updatedAt]; a single toggle turns
    PENDING into COMPLETED and anything else into PENDING. *)
Theorem toggling_twice_restores_the_status
    (uid taskId : string) (t1 t2 : Z) (table : list Tasks.Task)
    (t : Tasks.Task) :
  NoDup (map Tasks.id table) ->
  Tasks.getTaskById uid taskId table = Some t ->
  let once := Tasks.toggleTaskStatus uid taskId t1 table in
  let twice := Tasks.toggleTaskStatus uid taskId t2 (snd once) in
  fst once
  = Some {| Tasks.id := Tasks.id t; Tasks.title := Tasks.title t;
            Tasks.description := Tasks.description t;
            Tasks.status :=
              if (Tasks.status t =? Tasks.PENDING)%string
              then Tasks.COMPLETED else Tasks.PENDING;
            Tasks.userId := Tasks.userId t;
            Tasks.createdAt := Tasks.createdAt t; Tasks.updatedAt := t1 |}
  /\ (Tasks.status t = Tasks.PENDING \/ Tasks.status t = Tasks.COMPLETED ->
      fst twice
      = Some {| Tasks.id := Tasks.id t; Tasks.title := Tasks.title t;
                Tasks.description := Tasks.description t;
                Tasks.status := Tasks.status t;
                Tasks.userId := Tasks.userId t;
                Tasks.createdAt := Tasks.createdAt t;
                Tasks.updatedAt := t2 |}).
Proof.
  intros Hnd Hf once twice.
  set (flip := fun (s : string) (n : Z) (x : Tasks.Task) =>
         {| Tasks.id := Tasks.id x; Tasks.title := Tasks.title x;
            Tasks.description := Tasks.description x; Tasks.status := s;
            Tasks.userId := Tasks.userId x;
            Tasks.createdAt := Tasks.createdAt x; Tasks.updatedAt := n |}).
  set (s1 := if (Tasks.status t =? Tasks.PENDING)%string
             then Tasks.COMPLETED else Tasks.PENDING).
  assert (Honce : once
                  = (Some (flip s1 t1 t),
                     Tasks.task_update taskId (flip s1 t1) table)).
  { unfold once, Tasks.toggleTaskStatus. rewrite Hf. cbv zeta.
    fold s1. fold (flip s1 t1).
    now rewrite (find_updated taskId (flip s1 t1) table t
                   (fun _ => eq_refl) (find_by_id_of_own _ _ _ _ Hnd Hf)). }
  rewrite Honce. cbn [fst]. split; [reflexivity|].
  intro Hst.
  destruct (own_task uid taskId table t Hf) as [Hin [Hk Hu]].
  assert (Hnd' : NoDup (map Tasks.id
                          (Tasks.task_update taskId (flip s1 t1) table))).
  { unfold Tasks.task_update. rewrite map_map.
    erewrite map_ext; [exact Hnd|].
    intro x. now destruct (Tasks.id x =? taskId)%string. }
  assert (Hf' : Tasks.getTaskById uid taskId
                  (Tasks.task_update taskId (flip s1 t1) table)
                = Some (flip s1 t1 t)).
  { apply getTaskById_of_find_by_id; [|exact Hu].
    apply find_updated; [reflexivity|].
    exact (find_by_id_of_own _ _ _ _ Hnd Hf). }
  unfold twice. rewrite Honce. cbn [snd].
  unfold Tasks.toggleTaskStatus. rewrite Hf'.
  cbv zeta.
  set (s2 := if (Tasks.status (flip s1 t1 t) =? Tasks.PENDING)%string
             then Tasks.COMPLETED else Tasks.PENDING).
  fold (flip s2 t2). cbn [fst].
  rewrite (find_updated taskId (flip s2 t2) _ (flip s1 t1 t)
             (fun _ => eq_refl) (find_by_id_of_own _ _ _ _ Hnd' Hf')).
  f_equal. unfold flip, s2, s1. cbn [Tasks.id Tasks.title Tasks.description
    Tasks.status Tasks.userId Tasks.createdAt Tasks.updatedAt].
  destruct Hst as [-> | ->]; reflexivity.
Qed.

Lemma toggling_twice_restores_the_status_witness :
  fst (Tasks.toggleTaskStatus "u1" "t1" 20
         (snd (Tasks.toggleTaskStatus "u1" "t1" 10 Tasks.sample)))
  = Some {| Tasks.id := "t1"; Tasks.title := "Write";
            Tasks.description := None; Tasks.status := Tasks.PENDING;
            Tasks.userId := "u1"; Tasks.createdAt := 0;
            Tasks.updatedAt := 20 |}.
Proof.
  assert (Hnd : NoDup (map Tasks.id Tasks.sample)).
  { repeat constructor; simpl; intuition discriminate. }
  exact (proj2 (toggling_twice_restores_the_status "u1" "t1" 10 20
                  Tasks.sample _ Hnd eq_refl) (or_introl eq_refl)).
Defined.
